(** * Islami Bank statement parser (app.py): a shallow embedding

    The development follows [src/app.py].  The statement text is a Python
    [str]; here it is a list of characters, a character being a code point
    below 256 (Rocq's [ascii]).  Python's [re] is embedded as a backtracking
    matcher in continuation-passing style, with the priorities of the
    [sre] engine (greedy and lazy repetition, ordered alternation, atomic
    lookahead, capture groups).  [float(...)] is embedded by the exact
    decimal value of the literal it reads (a rational): the rounding to
    binary64 is monotone and leaves 0 and the integers below 2^53 fixed, so
    signs and the integral amounts used below are the ones Python computes.
    A decimal of at most fifteen digits is told apart from every other one
    by binary64 and is printed back as it was read; beyond fifteen digits
    Python rounds what it reads (and gives [inf] from 309 digits on), which
    the rational does not show: the properties that state the value of an
    amount state it for numbers of at most fifteen digits.  In the same
    way, below 256 the decimal digits are the ten ASCII digits; above,
    [\d], [strptime] and [float] take other decimal digits as well, and the
    properties are about texts below 256.

    The parse of the text, that is [parse_bank_statement] after
    [pdfplumber] has returned the text of the pages, is embedded first;
    the reading of the pages and the route [upload_pdf] follow, with
    [pdfplumber] and Flask as parameters: a reader that gives the texts of
    the pages or raises, and the files of the request. *)

From Stdlib Require Import List String Ascii Bool Arith NArith ZArith QArith Lia.
Import ListNotations.

Set Warnings "-register-all".

Close Scope Q_scope.
Close Scope Z_scope.
Local Open Scope nat_scope.
Local Open Scope list_scope.

(** ** Text *)

Definition str := list ascii.

Notation "« s »" := (list_ascii_of_string s) (at level 0, s at level 0, format "« s »").

Definition is_nl (a : ascii) : bool := Ascii.eqb a "010"%char.

(** [Py_UNICODE_ISDECIMAL] below 256: the ten ASCII digits. *)
Definition is_digit (a : ascii) : bool :=
  let n := N_of_ascii a in ((48 <=? n) && (n <=? 57))%N.

(** [Py_UNICODE_ISSPACE] below 256: TAB, LF, VT, FF, CR, FS, GS, RS, US,
    SPACE, NEL and NBSP.  It is the set used both by [\s] and by
    [str.strip()]. *)
Definition is_space (a : ascii) : bool :=
  let n := N_of_ascii a in
  (((9 <=? n) && (n <=? 13)) || ((28 <=? n) && (n <=? 32))
   || (n =? 133) || (n =? 160))%N.

(** ** Regular expressions *)

Inductive cclass : Type :=
| Dot                          (* .   without re.DOTALL *)
| DotAll                       (* .   with re.DOTALL *)
| Digit                        (* \d *)
| Space                        (* \s *)
| Lit (a : ascii)              (* a literal character *)
| Range (lo hi : ascii)        (* lo-hi inside a set *)
| Union (c1 c2 : cclass).      (* a set [...] of several items *)

Fixpoint cc_in (cl : cclass) (a : ascii) : bool :=
  match cl with
  | Dot => negb (is_nl a)
  | DotAll => true
  | Digit => is_digit a
  | Space => is_space a
  | Lit b => Ascii.eqb a b
  | Range lo hi =>
      ((N_of_ascii lo <=? N_of_ascii a) && (N_of_ascii a <=? N_of_ascii hi))%N
  | Union c1 c2 => cc_in c1 a || cc_in c2 a
  end.

Inductive regex : Type :=
| Eps
| Chr (cl : cclass)
| Seq (r1 r2 : regex)
| Alt (r1 r2 : regex)              (* r1|r2, r1 tried first *)
| Star (greedy : bool) (r : regex) (* r* and r*? *)
| Group (i : nat) (r : regex)      (* the i-th capture group *)
| Ahead (r : regex)                (* (?=r) *)
| Bol.                             (* ^ under re.MULTILINE *)

Declare Scope re_scope.
Delimit Scope re_scope with re.
Bind Scope re_scope with regex.
Notation "r1 +++ r2" := (Seq r1 r2) (at level 60, right associativity) : re_scope.

Fixpoint lit (s : string) : regex :=
  match s with
  | EmptyString => Eps
  | String a s' => Seq (Chr (Lit a)) (lit s')
  end.

Definition plus (g : bool) (r : regex) : regex := Seq r (Star g r).
Definition opt (r : regex) : regex := Alt r Eps.

Fixpoint rep (n : nat) (r : regex) : regex :=
  match n with
  | O => Eps
  | S n' => Seq r (rep n' r)
  end.

(** [r{0,n}], greedy. *)
Fixpoint upto (n : nat) (r : regex) : regex :=
  match n with
  | O => Eps
  | S n' => opt (Seq r (upto n' r))
  end.

(** [r{lo,hi}], greedy. *)
Definition rep_range (lo hi : nat) (r : regex) : regex :=
  Seq (rep lo r) (upto (hi - lo) r).

(** ** Captures *)

Definition caps := nat -> option str.

Definition no_caps : caps := fun _ => None.

Definition upd (i : nat) (w : str) (c : caps) : caps :=
  fun j => if Nat.eqb j i then Some w else c j.

(** ** The backtracking matcher

    A position is the remaining text [s], the number [p] of characters
    consumed since the attempt began, and [b], which tells whether the
    position is at the beginning of a line (start of the text or just
    after a newline).  [k] is what remains to be matched.  In a
    repetition an iteration that consumed nothing is not followed by
    another one: the engine goes on with the rest of the pattern, as
    [sre]'s MAX_UNTIL does. *)

Definition orelse {R : Type} (x y : option R) : option R :=
  match x with
  | Some v => Some v
  | None => y
  end.

Definition cont (R : Type) : Type := bool -> nat -> str -> caps -> option R.

(** The loop of a repetition; [body] matches one iteration and [n] bounds
    the number of iterations that consume text. *)
Fixpoint star_loop {R : Type}
    (body : bool -> nat -> str -> caps -> cont R -> option R)
    (g : bool) (k : cont R) (n : nat) (b : bool) (p : nat) (s : str) (c : caps)
    {struct n} : option R :=
  let again :=
    match n with
    | O => None
    | S n' =>
        body b p s c
          (fun b' p' s' c' =>
             if p <? p' then star_loop body g k n' b' p' s' c'
             else k b' p' s' c')
    end in
  if g then orelse again (k b p s c) else orelse (k b p s c) again.

Fixpoint m (r : regex) (R : Type) (b : bool) (p : nat) (s : str) (c : caps)
    (k : cont R) {struct r} : option R :=
  match r with
  | Eps => k b p s c
  | Chr cl =>
      match s with
      | a :: s' => if cc_in cl a then k (is_nl a) (S p) s' c else None
      | [] => None
      end
  | Seq r1 r2 => m r1 R b p s c (fun b' p' s' c' => m r2 R b' p' s' c' k)
  | Alt r1 r2 => orelse (m r1 R b p s c k) (m r2 R b p s c k)
  | Star g r1 => star_loop (m r1 R) g k (S (List.length s)) b p s c
  | Group i r1 =>
      m r1 R b p s c
        (fun b' p' s' c' => k b' p' s' (upd i (firstn (p' - p) s) c'))
  | Ahead r1 =>
      match m r1 caps b p s c (fun _ _ _ c' => Some c') with
      | Some c' => k b p s c'
      | None => None
      end
  | Bol => if b then k b p s c else None
  end.

(** A match object: the captures and the text left after the match. *)
Definition match_obj : Type := caps * str.

Definition group (i : nat) (mo : match_obj) : option str := fst mo i.

Definition accept : cont match_obj := fun _ _ s c => Some (c, s).

(** [pattern.match(s)]: the first match beginning at the start of [s]. *)
Definition re_match (r : regex) (s : str) : option match_obj :=
  m r match_obj true 0 s no_caps accept.

(** [re.search(pattern, s)]: the leftmost match. *)
Fixpoint search_from (r : regex) (b : bool) (s : str) : option match_obj :=
  match m r match_obj b 0 s no_caps accept with
  | Some mo => Some mo
  | None =>
      match s with
      | [] => None
      | a :: s' => search_from r (is_nl a) s'
      end
  end.

Definition re_search (r : regex) (s : str) : option match_obj :=
  search_from r true s.

(** ** The patterns of [parse_bank_statement] *)

Section Patterns.
Local Open Scope re_scope.
Local Open Scope string_scope.

Definition d : regex := Chr Digit.
Definition ws : regex := Chr Space.
Definition nl : regex := Chr (Lit "010"%char).

(* \d{2}/\d{2}/\d{2} *)
Definition date_yy : regex := rep 2 d +++ lit "/" +++ rep 2 d +++ lit "/" +++ rep 2 d.
(* \d{2}/\d{2}/\d{4} *)
Definition date_yyyy : regex := rep 2 d +++ lit "/" +++ rep 2 d +++ lit "/" +++ rep 4 d.
(* \d{1,3}(?:,\d{3})*\.\d{2} *)
Definition amount : regex :=
  rep_range 1 3 d +++ Star true (lit "," +++ rep 3 d) +++ lit "." +++ rep 2 d.
(* \d{1,3}(?:,\d{3})*\.\d{2}|0\.00 *)
Definition amount_or_zero : regex := Alt amount (lit "0.00").
(* [\d,]+\.\d{2} *)
Definition total_number : regex :=
  plus true (Chr (Union Digit (Lit ","%char))) +++ lit "." +++ rep 2 d.

Definition holder_pattern : regex :=
  lit "Name" +++ plus true ws +++ Group 1 (Star false (Chr Dot)) +++ nl.

Definition address_pattern : regex :=
  lit "Address" +++ plus true ws +++ Group 1 (Star false (Chr DotAll))
  +++ nl +++ lit "Account No".

Definition account_no_pattern : regex :=
  lit "Account No" +++ plus true ws +++ Group 1 (plus true d).

Definition account_type_pattern : regex :=
  lit "Account Type" +++ plus true ws +++ Group 1 (Star false (Chr Dot))
  +++ nl.

Definition period_pattern : regex :=
  lit "Account Statement for the period of" +++ plus true ws
  +++ Group 1 date_yyyy +++ plus true ws +++ lit "to" +++ plus true ws
  +++ Group 2 date_yyyy.

Definition transaction_pattern : regex :=
  Group 1 date_yy +++ plus true ws
  +++ Group 2 date_yy +++ plus true ws
  +++ Group 3 (Star false (Chr Dot)) +++ plus true ws
  +++ Ahead (Alt amount (Alt (lit "0.00") (plus true ws +++ amount)))
  +++ opt (Group 4 (plus true (Chr (Union (Range "A"%char "Z"%char)
                                         (Range "0"%char "9"%char)))))
  +++ Star true ws
  +++ opt (Group 5 amount_or_zero) +++ plus true ws
  +++ opt (Group 6 amount_or_zero) +++ plus true ws
  +++ Group 7 amount.

Definition total_pattern : regex :=
  Bol +++ Star true ws +++ Star true (Star true (Chr (Lit ","%char)) +++ Star true ws)
  +++ lit "TOTAL" +++ plus true ws
  +++ Group 1 total_number +++ plus true ws
  +++ Group 2 total_number +++ plus true ws
  +++ Group 3 total_number.

End Patterns.

(** ** String operations used by the parser *)

(* str.strip() *)
Fixpoint lstrip (s : str) : str :=
  match s with
  | a :: s' => if is_space a then lstrip s' else s
  | [] => []
  end.

Definition rstrip (s : str) : str := rev (lstrip (rev s)).

Definition strip (s : str) : str := rstrip (lstrip s).

(* s.split(x) *)
Fixpoint split_on (x : ascii) (s : str) : list str :=
  match s with
  | [] => [[]]
  | a :: s' =>
      if Ascii.eqb a x then [] :: split_on x s'
      else match split_on x s' with
           | l :: ls => (a :: l) :: ls
           | [] => [[a]]
           end
  end.

(* text.split('\n') *)
Definition split_nl (s : str) : list str := split_on "010"%char s.

Fixpoint starts_with (p s : str) : bool :=
  match p, s with
  | [], _ => true
  | a :: p', b :: s' => Ascii.eqb a b && starts_with p' s'
  | _ :: _, [] => false
  end.

(* sub in s *)
Fixpoint contains (sub s : str) : bool :=
  starts_with sub s ||
  match s with
  | [] => false
  | _ :: s' => contains sub s'
  end.

(* s.replace(',', '') *)
Definition remove_commas (s : str) : str :=
  filter (fun a => negb (Ascii.eqb a ","%char)) s.

(** ** Numbers *)

Definition digit_val (a : ascii) : Z := Z.of_N (N_of_ascii a) - 48.

Definition digits_val (s : str) : Z :=
  fold_left (fun acc a => 10 * acc + digit_val a)%Z s 0%Z.

(* int(s), for the digit strings (possibly padded with blanks) of a date *)
Definition int_of_str (s : str) : Z := digits_val (strip s).

Fixpoint split_dot (s : str) : str * option str :=
  match s with
  | [] => ([], None)
  | a :: s' =>
      if Ascii.eqb a "."%char then ([], Some s')
      else let (i, f) := split_dot s' in (a :: i, f)
  end.

(* n / 10^k, in lowest terms *)
Definition decimal (n : Z) (k : nat) : Q :=
  Qred (Qmake n (Pos.pow 10 (Pos.of_nat k))).

(** [float(s)] on plain decimal literals: blanks around, an optional sign,
    digits with at most one point and at least one digit.  Exponents,
    underscores, [inf] and [nan] are not modelled: the parser only calls
    [float] on text made of digits and points.  [None] is [ValueError]. *)
Definition float_unsigned (s : str) : option Q :=
  let (i, f) := split_dot s in
  let f := match f with Some f => f | None => [] end in
  if forallb is_digit (i ++ f) && negb (Nat.eqb (List.length (i ++ f)) 0)
  then Some (decimal (digits_val (i ++ f)) (List.length f))
  else None.

Definition float (s : str) : option Q :=
  match strip s with
  | a :: s' =>
      if Ascii.eqb a "-"%char then option_map Qopp (float_unsigned s')
      else if Ascii.eqb a "+"%char then float_unsigned s'
      else float_unsigned (a :: s')
  | [] => None
  end.

(** ** Date Normalizer

    [datetime.strptime] (CPython's [_strptime]) turns the format into a
    regular expression, matches it at the start of the token, refuses a
    token that is not consumed entirely, and validates the calendar date.
    The directive patterns are the ones of [TimeRE]:
      %d  (?P<d>3[0-1]|[1-2]\d|0[1-9]|[1-9]| [1-9])
      %m  (?P<m>1[0-2]|0[1-9]|[1-9])
      %y  (?P<y>\d\d)        %Y  (?P<Y>\d\d\d\d)
    ([re.IGNORECASE] changes nothing for digits, blanks and slashes). *)

Section TimeRE.
Local Open Scope re_scope.
Local Open Scope string_scope.

Definition r09 : regex := Chr (Range "0"%char "9"%char).
Definition r19 : regex := Chr (Range "1"%char "9"%char).

Definition directive_d : regex :=
  Alt (lit "3" +++ Chr (Range "0"%char "1"%char))
 (Alt (Chr (Range "1"%char "2"%char) +++ d)
 (Alt (lit "0" +++ r19)
 (Alt r19
      (lit " " +++ r19)))).

Definition directive_m : regex :=
  Alt (lit "1" +++ Chr (Range "0"%char "2"%char))
 (Alt (lit "0" +++ r19)
      r19).

Definition directive_y : regex := d +++ d.
Definition directive_Y : regex := d +++ d +++ d +++ d.

Inductive date_format : Type :=
| D_M_y     (* "%d/%m/%y" *)
| D_M_Y.    (* "%d/%m/%Y" *)

Definition format_regex (f : date_format) : regex :=
  Group 1 directive_d +++ lit "/" +++ Group 2 directive_m +++ lit "/"
  +++ Group 3 (match f with D_M_y => directive_y | D_M_Y => directive_Y end).

End TimeRE.

Record date : Type := mkdate { year : Z; month : Z; day : Z }.

Section Calendar.
Local Open Scope Z_scope.

Definition is_leap (y : Z) : bool :=
  (y mod 4 =? 0) && (negb (y mod 100 =? 0) || (y mod 400 =? 0)).

Definition days_in_month (y mo : Z) : Z :=
  match mo with
  | 2 => if is_leap y then 29 else 28
  | 4 | 6 | 9 | 11 => 30
  | _ => 31
  end.

(* datetime.date(year, month, day): MINYEAR = 1, MAXYEAR = 9999 *)
Definition check_date_fields (y mo dy : Z) : option date :=
  if (1 <=? y) && (y <=? 9999) && (1 <=? mo) && (mo <=? 12)
     && (1 <=? dy) && (dy <=? days_in_month y mo)
  then Some (mkdate y mo dy)
  else None.

End Calendar.

(* %y: the values 0..68 are of the century 2000, 69..99 of 1900 *)
Definition found_year (f : date_format) (y : Z) : Z :=
  match f with
  | D_M_y => if (y <=? 68)%Z then (y + 2000)%Z else (y + 1900)%Z
  | D_M_Y => y
  end.

(** [datetime.strptime(s, fmt)]; [None] is [ValueError]. *)
Definition strptime (s : str) (f : date_format) : option date :=
  match re_match (format_regex f) s with
  | None => None                          (* does not match format *)
  | Some mo =>
      match snd mo with
      | _ :: _ => None                    (* unconverted data remains *)
      | [] =>
          match group 1 mo, group 2 mo, group 3 mo with
          | Some gd, Some gm, Some gy =>
              check_date_fields (found_year f (int_of_str gy))
                                (int_of_str gm) (int_of_str gd)
          | _, _, _ => None
          end
      end
  end.

Definition digit_char (n : Z) : ascii := ascii_of_N (Z.to_N (48 + n)).

Definition pad2 (n : Z) : str :=
  [digit_char (n / 10 mod 10); digit_char (n mod 10)]%Z.

Definition pad4 (n : Z) : str :=
  [digit_char (n / 1000 mod 10); digit_char (n / 100 mod 10);
   digit_char (n / 10 mod 10); digit_char (n mod 10)]%Z.

(** %Y is left to the C library.  From 1000 on the year is printed on its
    four digits everywhere; below 1000 glibc prints it without leading
    zeros (other libraries pad it), which is what is written here.  No
    property below relies on the years under 1000. *)
Definition year_text (y : Z) : str :=
  if (1000 <=? y)%Z then pad4 y
  else if (100 <=? y)%Z
       then [digit_char (y / 100 mod 10); digit_char (y / 10 mod 10);
             digit_char (y mod 10)]%Z
       else if (10 <=? y)%Z then pad2 y else [digit_char y].

(* date_obj.strftime("%Y-%m-%d") *)
Definition strftime (dt : date) : str :=
  year_text (year dt) ++ "-"%char :: pad2 (month dt) ++ "-"%char :: pad2 (day dt).

Definition convert_date_format (date_str : str) : str :=
  match strptime date_str D_M_y with
  | Some date_obj => strftime date_obj
  | None =>
      match strptime date_str D_M_Y with
      | Some date_obj => strftime date_obj
      | None => date_str
      end
  end.


(** ** Values

    The parser returns nested dictionaries and lists; a dictionary keeps
    its keys in insertion order, and a key holding [None] is present
    ([Some VNone]), which is not the same as a missing key ([None]). *)

Inductive value : Type :=
| VNone
| VStr (s : str)
| VNum (q : Q)
| VDict (kv : list (string * value))
| VList (vs : list value).

Definition dict : Type := list (string * value).

Fixpoint dict_get (k : string) (dc : dict) : option value :=
  match dc with
  | [] => None
  | (k', v) :: dc' => if String.eqb k k' then Some v else dict_get k dc'
  end.

(* dc[k] = v *)
Fixpoint dict_set (k : string) (v : value) (dc : dict) : dict :=
  match dc with
  | [] => [(k, v)]
  | (k', v') :: dc' =>
      if String.eqb k k' then (k, v) :: dc' else (k', v') :: dict_set k v dc'
  end.

Definition bind {A B : Type} (x : option A) (f : A -> option B) : option B :=
  match x with
  | Some a => f a
  | None => None
  end.

Notation "x <- e ;; k" := (bind e (fun x => k))
  (at level 61, e at next level, right associativity).

(** A statement of a [try] block works on a dictionary and may raise
    ([None]); when one raises, the [except] clause only logs, and the
    dictionary stays as the statements before it left it. *)
Definition stmt : Type := dict -> option dict.

Fixpoint try_block (body : list stmt) (dc : dict) : dict :=
  match body with
  | [] => dc
  | st :: body' =>
      match st dc with
      | Some dc' => try_block body' dc'
      | None => dc
      end
  end.

Definition assign (k : string) (e : option value) : stmt :=
  fun dc => v <- e ;; Some (dict_set k v dc).

(** ** parse_bank_statement, after the text has been read from the PDF

    The three parts follow the source.  The statements inside a [try] are
    the ones that can raise: a method called on a group that took no part
    in the match, and [float] on text that is not a number.  Outside the
    [try] blocks the function only compiles a pattern, splits and strips
    strings, tests substrings and runs [match] and [search], none of
    which raises on a string. *)

Section Parser.
Local Open Scope string_scope.

(* mo.group(i).strip(): an AttributeError when the group took no part *)
Definition group_strip (i : nat) (mo : match_obj) : option str :=
  g <- group i mo ;; Some (strip g).

Definition opt_value (o : option str) : value :=
  match o with
  | Some s => VStr s
  | None => VNone
  end.

Definition account_info_block (text : str) : list stmt :=
  let account_holder_match := re_search holder_pattern text in
  let address_match := re_search address_pattern text in
  let account_no_match := re_search account_no_pattern text in
  let account_type_match := re_search account_type_pattern text in
  let period_match := re_search period_pattern text in
  [ assign "account_holder"
      (match account_holder_match with
       | Some mo => g <- group_strip 1 mo ;; Some (VStr g)
       | None => Some VNone
       end);
    assign "account_number"
      (match account_no_match with
       | Some mo => Some (opt_value (group 1 mo))
       | None => Some VNone
       end);
    assign "account_type"
      (match account_type_match with
       | Some mo => g <- group_strip 1 mo ;; Some (VStr g)
       | None => Some VNone
       end);
    match period_match with
    | Some mo =>
        assign "statement_period"
          (start_date_str <- group_strip 1 mo ;;
           end_date_str <- group_strip 2 mo ;;
           Some (VDict [("start_date", VStr (convert_date_format start_date_str));
                        ("end_date", VStr (convert_date_format end_date_str))]))
    | None =>
        assign "statement_period"
          (Some (VDict [("start_date", VNone); ("end_date", VNone)]))
    end ].

Definition account_info_of (text : str) : dict :=
  try_block (account_info_block text)
            [("bank", VStr «"Islami Bank Bangladesh PLC."»)].

Definition is_empty (s : str) : bool :=
  match s with
  | [] => true
  | _ :: _ => false
  end.

(* the test that sends the loop to the next line *)
Definition skip_line (line : str) : bool :=
  contains «"Trans Date"» line || contains «"Post Date"» line
  || contains «"Report taken on"» line || contains «"B/F"» line
  || contains «"Page"» line || is_empty (strip line).

(* x or "0.00" *)
Definition or_zero (o : option str) : str :=
  match o with
  | Some (a :: s) => a :: s
  | _ => «"0.00"»
  end.

(* float(s) if s else 0.00 *)
Definition float_or_zero (s : str) : option Q :=
  if is_empty s then Some 0%Q else float s.

(** The body of the [try] of the loop: the record appended for a match,
    or [None] when a conversion raises. *)
Definition transaction_record (mo : match_obj) : option dict :=
  let trans_date := group 1 mo in
  let post_date := group 2 mo in
  let description := group 3 mo in
  let ref_no := group 4 mo in
  let withdraw := group 5 mo in
  let deposit := group 6 mo in
  let balance := group 7 mo in
  let withdraw_str := remove_commas (strip (or_zero withdraw)) in
  let deposit_str := remove_commas (strip (or_zero deposit)) in
  let balance_str := remove_commas (strip (or_zero balance)) in
  td <- trans_date ;;
  pd <- post_date ;;
  ds <- description ;;
  w <- float_or_zero withdraw_str ;;
  dp <- float_or_zero deposit_str ;;
  bl <- float_or_zero balance_str ;;
  Some [("date", VStr (convert_date_format td));
        ("post_date", VStr (convert_date_format pd));
        ("description", VStr (strip ds));
        ("reference", match ref_no with
                      | Some (a :: r) => VStr (strip (a :: r))
                      | _ => VNone
                      end);
        ("withdrawal", VNum w);
        ("deposit", VNum dp);
        ("balance", VNum bl)].

(** One turn of [for line in lines]. *)
Definition transaction_step (transactions : list value) (line : str) : list value :=
  if skip_line line then transactions
  else
    match re_match transaction_pattern (strip line) with
    | Some mo =>
        match transaction_record mo with
        | Some rc => transactions ++ [VDict rc]
        | None => transactions
        end
    | None => transactions
    end.

Definition transactions_of (text : str) : list value :=
  fold_left transaction_step (split_nl text) [].

(* mo.group(i).replace(',', '') *)
Definition group_replace (i : nat) (mo : match_obj) : option str :=
  g <- group i mo ;; Some (remove_commas g).

Definition totals_block (mo : match_obj) : list stmt :=
  [ fun totals =>
      total_withdraw_str <- group_replace 1 mo ;;
      total_deposit_str <- group_replace 2 mo ;;
      final_balance_str <- group_replace 3 mo ;;
      Some totals;
    fun totals => assign "total_withdrawal"
      (g <- group_replace 1 mo ;; x <- float g ;; Some (VNum x)) totals;
    fun totals => assign "total_deposit"
      (g <- group_replace 2 mo ;; x <- float g ;; Some (VNum x)) totals;
    fun totals => assign "final_balance"
      (g <- group_replace 3 mo ;; x <- float g ;; Some (VNum x)) totals ].

Definition totals_of (text : str) : dict :=
  let total_match := re_search total_pattern text in
  let totals := [("total_withdrawal", VNone); ("total_deposit", VNone);
                 ("final_balance", VNone)] in
  match total_match with
  | Some mo => try_block (totals_block mo) totals
  | None => totals
  end.

Definition parse_bank_statement (text : str) : dict :=
  let account_info := account_info_of text in
  let transactions := transactions_of text in
  let totals := totals_of text in
  [("account_info", VDict account_info);
   ("transactions", VList transactions);
   ("totals", VDict totals)].

End Parser.

(** ** Reading the PDF and the upload route

    [pdfplumber] and Flask are outside the program.  A reader gives, for
    the stream of an upload, the text of each page as [extract_text()]
    returns it ([None] for a page without text), or the exception raised
    while the file was opened or read.  An exception is kept by the two
    texts the route prints of it: [str(e)] and the traceback.  The files
    of a request are the pairs of a field name and an upload, in the
    order of the form; an upload has its file name ([None] when the part
    has none) and its stream. *)

Record exn : Type := mkexn { exn_text : str; exn_trace : str }.

Inductive result (A : Type) : Type :=
| Ok (a : A)
| Raise (e : exn).

Arguments Ok {A} a.
Arguments Raise {A} e.

Definition pdf_reader (stream : Type) : Type :=
  stream -> result (list (option str)).

(* sep.join(parts), for the separator "\n" *)
Fixpoint join_nl (parts : list str) : str :=
  match parts with
  | [] => []
  | [l] => l
  | l :: ls => l ++ "010"%char :: join_nl ls
  end.

(* [page.extract_text()], or the empty text when it is None or empty *)
Definition page_text (t : option str) : str :=
  match t with
  | Some (a :: s) => a :: s
  | _ => []
  end.

(* the texts of the pages, in order, joined with a newline between them *)
Definition document_text (pages : list (option str)) : str :=
  join_nl (map page_text pages).

(** [parse_bank_statement(file_stream)] as a whole: the text is read;
    an exception of the reader is printed and raised again. *)
Definition parse_bank_statement_stream {stream : Type}
    (reader : pdf_reader stream) (file_stream : stream) : result dict :=
  match reader file_stream with
  | Raise e => Raise e
  | Ok pages => Ok (parse_bank_statement (document_text pages))
  end.

(* str.lower(), on the code points below 256: A-Z and the accented
   capitals 192-214 and 216-222 move by 32 *)
Definition lower_char (a : ascii) : ascii :=
  let n := N_of_ascii a in
  if (((65 <=? n) && (n <=? 90)) || ((192 <=? n) && (n <=? 214))
      || ((216 <=? n) && (n <=? 222)))%N
  then ascii_of_N (n + 32) else a.

Definition lower (s : str) : str := map lower_char s.

(* s.endswith(suffix) *)
Definition ends_with (suffix s : str) : bool :=
  starts_with (rev suffix) (rev s).

Record file_storage (stream : Type) : Type :=
  mkfile { filename : option str; file_stream_of : stream }.

Arguments mkfile {stream} filename file_stream_of.
Arguments filename {stream} f.
Arguments file_stream_of {stream} f.

(* request.files: "file" in request.files and request.files["file"] *)
Fixpoint files_get {stream : Type} (k : string)
    (files : list (string * file_storage stream)) : option (file_storage stream) :=
  match files with
  | [] => None
  | (k', f) :: files' => if String.eqb k k' then Some f else files_get k files'
  end.

Section Upload.
Local Open Scope string_scope.

Definition error_body (msg : str) : dict := [("error", VStr msg)].

(** The route: the body that goes to [jsonify] and the status. *)
Definition upload_pdf {stream : Type} (reader : pdf_reader stream)
    (files : list (string * file_storage stream)) : dict * nat :=
  match files_get "file" files with
  | None => (error_body «"No file part in the request"», 400)
  | Some file =>
      match filename file with
      | None | Some [] => (error_body «"No selected file"», 400)
      | Some name =>
          if negb (ends_with «".pdf"» (lower name))
          then (error_body «"Invalid file type, please upload a PDF"», 400)
          else
            match parse_bank_statement_stream reader (file_stream_of file) with
            | Ok data => (data, 200)
            | Raise e =>
                ([("error",
                   VStr (app «"An internal error occurred while processing the PDF: "»
                             (exn_text e)));
                  ("traceback", VStr (exn_trace e))], 500)
            end
      end
  end.

End Upload.

(** ** Notions used to state the properties *)

(** The bodies of the groups numbered [i] in a pattern. *)
Fixpoint group_bodies (i : nat) (r : regex) : list regex :=
  match r with
  | Eps | Chr _ | Bol => []
  | Seq r1 r2 | Alt r1 r2 => group_bodies i r1 ++ group_bodies i r2
  | Star _ r1 | Ahead r1 => group_bodies i r1
  | Group j r1 => (if Nat.eqb i j then [r1] else []) ++ group_bodies i r1
  end.

(** Group [i] takes part in every match of the pattern. *)
Fixpoint sets (i : nat) (r : regex) : bool :=
  match r with
  | Eps | Chr _ | Bol | Star _ _ => false
  | Seq r1 r2 => sets i r1 || sets i r2
  | Alt r1 r2 => sets i r1 && sets i r2
  | Ahead r1 => sets i r1
  | Group j r1 => Nat.eqb i j || sets i r1
  end.

(** Every character the pattern can consume satisfies [P]. *)
Fixpoint alpha (P : ascii -> Prop) (r : regex) : Prop :=
  match r with
  | Eps | Bol | Ahead _ => True
  | Chr cl => forall a, cc_in cl a = true -> P a
  | Seq r1 r2 | Alt r1 r2 => alpha P r1 /\ alpha P r2
  | Star _ r1 | Group _ r1 => alpha P r1
  end.

(** The pattern has no lookahead: what it matches depends on the text it
    consumes only, not on what follows. *)
Fixpoint no_lookahead (r : regex) : bool :=
  match r with
  | Eps | Chr _ | Bol => true
  | Seq r1 r2 | Alt r1 r2 => no_lookahead r1 && no_lookahead r2
  | Star _ r1 | Group _ r1 => no_lookahead r1
  | Ahead _ => false
  end.

(** The lines the loop does not skip, and what the loop makes of one. *)
Definition retained_lines (text : str) : list str :=
  filter (fun line => negb (skip_line line)) (split_nl text).

Definition record_of_line (line : str) : list value :=
  match re_match transaction_pattern (strip line) with
  | Some mo =>
      match transaction_record mo with
      | Some rc => [VDict rc]
      | None => []
      end
  | None => []
  end.

(** The markers of the lines that carry no transaction. *)
Definition markers : list str :=
  [«"Trans Date"»; «"Post Date"»; «"Report taken on"»; «"B/F"»; «"Page"»]%string.

(** A line is blank, or one of the markers occurs in it. *)
Definition non_transaction_line (line : str) : Prop :=
  Forall (fun a => is_space a = true) line
  \/ exists mk u v, In mk markers /\ line = u ++ mk ++ v.

Definition all_digits (s : str) : Prop := Forall (fun a => is_digit a = true) s.

(** The date tokens, in words: three fields separated by slashes; the day
    on one or two digits, a single digit possibly after a blank; the month
    on one or two digits; the year on exactly two digits (four for the
    second format); and the three numbers are a day of the calendar. *)
Definition day_shape (D : str) : bool :=
  match D with
  | [x] => is_digit x
  | [x; y] => (is_digit x || Ascii.eqb x " "%char) && is_digit y
  | _ => false
  end.

Definition month_shape (M : str) : bool :=
  match M with
  | [x] => is_digit x
  | [x; y] => is_digit x && is_digit y
  | _ => false
  end.

Definition year_shape (f : date_format) (Y : str) : bool :=
  forallb is_digit Y
  && Nat.eqb (List.length Y) (match f with D_M_y => 2 | D_M_Y => 4 end).

Definition read_date (f : date_format) (token : str) : option date :=
  match split_on "/"%char token with
  | [D; M; Y] =>
      if day_shape D && month_shape M && year_shape f Y
      then check_date_fields (found_year f (int_of_str Y))
                             (int_of_str M) (int_of_str D)
      else None
  | _ => None
  end.

(** [s] is the date [dt] written YYYY-MM-DD. *)
Definition is_iso_of (dt : date) (s : str) : Prop :=
  exists y1 y2 y3 y4 m1 m2 d1 d2,
    s = [y1; y2; y3; y4; "-"%char; m1; m2; "-"%char; d1; d2]
    /\ all_digits [y1; y2; y3; y4; m1; m2; d1; d2]
    /\ digits_val [y1; y2; y3; y4] = year dt
    /\ digits_val [m1; m2] = month dt
    /\ digits_val [d1; d2] = day dt.

(** The fixed-width forms DD/MM/YY and DD/MM/YYYY. *)
Definition fixed_width (f : date_format) (token : str) : bool :=
  match token with
  | d1 :: d2 :: s1 :: m1 :: m2 :: s2 :: Y =>
      is_digit d1 && is_digit d2 && Ascii.eqb s1 "/"%char
      && is_digit m1 && is_digit m2 && Ascii.eqb s2 "/"%char
      && year_shape f Y
  | _ => false
  end.

(** The century [strptime] gives a year on two digits: 20 for the years
    00 to 68, 19 for 69 to 99. *)
Definition century (Y : str) : str :=
  if (digits_val Y <=? 68)%Z then «"20"» else «"19"».

Definition get (k : string) (v : value) : option value :=
  match v with
  | VDict dc => dict_get k dc
  | _ => None
  end.

Definition nullable_str (v : value) : Prop := v = VNone \/ exists s, v = VStr s.
Definition nullable_num (v : value) : Prop := v = VNone \/ exists q, v = VNum q.

(** The seven keys of a transaction record. *)
Definition transaction_shape (t : value) : Prop :=
  exists dt pd ds rf w dp bl,
    t = VDict [("date", VStr dt); ("post_date", VStr pd);
               ("description", VStr ds); ("reference", rf);
               ("withdrawal", VNum w); ("deposit", VNum dp);
               ("balance", VNum bl)]%string
    /\ nullable_str rf.

Definition no_minus (a : ascii) : Prop := a <> "-"%char.

(* [A-Z0-9] *)
Definition alnum : cclass :=
  Union (Range "A"%char "Z"%char) (Range "0"%char "9"%char).

Definition amount_char (a : ascii) : Prop :=
  is_digit a = true \/ a = ","%char \/ a = "."%char.

(** A file name the route takes for a PDF: it ends with a point and the
    letters p, d, f, each in either case. *)
Definition either_case (l u a : ascii) : Prop := a = l \/ a = u.

Definition pdf_name (name : str) : Prop :=
  exists stem p d f,
    name = stem ++ ["."%char; p; d; f]
    /\ either_case "p" "P" p /\ either_case "d" "D" d
    /\ either_case "f" "F" f.

(** The request carries an upload in the field [file] whose name is the
    name of a PDF. *)
Definition pdf_upload {stream : Type}
    (files : list (string * file_storage stream)) (file : file_storage stream)
    : Prop :=
  files_get "file" files = Some file
  /\ exists name, filename file = Some name /\ pdf_name name.
(** A run of blanks, one at least. *)
Definition blanks (w : str) : Prop :=
  w <> [] /\ Forall (fun a => is_space a = true) w.

(** The text holds the label, blanks, and a value that runs to the end of
    its line. *)
Definition label_line (label text value : str) : Prop :=
  exists pre sp rest,
    text = pre ++ label ++ sp ++ value ++ "010"%char :: rest
    /\ blanks sp /\ ~ In "010"%char value.

(** The text holds the label, blanks, and a number. *)
Definition label_number (label text number : str) : Prop :=
  exists pre sp rest,
    text = pre ++ label ++ sp ++ number ++ rest
    /\ blanks sp /\ number <> [] /\ all_digits number.

(** The text holds the sentence of the period, with its two dates. *)
Definition period_sentence (text first last : str) : Prop :=
  exists pre sp1 sp2 sp3 rest,
    text = pre ++ «"Account Statement for the period of"» ++ sp1 ++ first
               ++ sp2 ++ «"to"» ++ sp3 ++ last ++ rest
    /\ blanks sp1 /\ blanks sp2 /\ blanks sp3
    /\ fixed_width D_M_Y first = true /\ fixed_width D_M_Y last = true.
(** Whether a position is at the beginning of a line, after the text
    [pre] has been passed from a position where it was [b]. *)
Fixpoint bol_after (b : bool) (pre : str) : bool :=
  match pre with
  | [] => b
  | a :: pre' => bol_after (is_nl a) pre'
  end.

(** What remains to be matched fails or not whatever the captures. *)
Definition uniform {R : Type} (k : cont R) : Prop :=
  forall b p s c1 c2, k b p s c1 = None -> k b p s c2 = None.
(** An amount as the statement prints it: one to three digits, groups of
    a comma and three digits, a point and two digits. *)
Definition amount_word (w : str) : Prop :=
  exists h groups a1 a2,
    w = h ++ List.concat (map (fun g => ","%char :: g) groups) ++ ["."%char; a1; a2]
    /\ 1 <= List.length h <= 3 /\ all_digits h
    /\ Forall (fun g => List.length g = 3 /\ all_digits g) groups
    /\ is_digit a1 = true /\ is_digit a2 = true.

(** A column that may be empty. *)
Definition optional_amount (w : str) : Prop := w = [] \/ amount_word w.

(** Where the numeric section of a line begins: at an amount, or at
    blanks before an amount. *)
Definition numeric_start (s : str) : Prop :=
  exists sp a t,
    s = sp ++ a ++ t /\ Forall (fun x => is_space x = true) sp
    /\ amount_word a.

(** The columns of a transaction line: the two dates, the description,
    the reference, the withdrawal, the deposit and the balance, and what
    follows them on the line. *)
Record columns : Type := mkcolumns {
  col_date : str; col_post_date : str; col_description : str;
  col_reference : str; col_withdrawal : str; col_deposit : str;
  col_balance : str; col_rest : str }.

(** The line is made of the columns, with blanks between them: a run of
    blanks after each date, after the description, after the withdrawal
    and after the deposit, even when these two are empty; blanks or
    nothing after the reference. *)
Definition line_layout (s : str) (cs : columns) : Prop :=
  exists sp1 sp2 sp3 sp4 sp5 sp6,
    s = col_date cs ++ sp1 ++ col_post_date cs ++ sp2
        ++ col_description cs ++ sp3
        ++ col_reference cs ++ sp4 ++ col_withdrawal cs ++ sp5
        ++ col_deposit cs ++ sp6 ++ col_balance cs ++ col_rest cs
    /\ fixed_width D_M_y (col_date cs) = true /\ blanks sp1
    /\ fixed_width D_M_y (col_post_date cs) = true /\ blanks sp2
    /\ ~ In "010"%char (col_description cs) /\ blanks sp3
    /\ numeric_start (col_reference cs ++ sp4 ++ col_withdrawal cs ++ sp5
                      ++ col_deposit cs ++ sp6 ++ col_balance cs
                      ++ col_rest cs)
    /\ Forall (fun a => cc_in alnum a = true) (col_reference cs)
    /\ Forall (fun a => is_space a = true) sp4
    /\ optional_amount (col_withdrawal cs) /\ blanks sp5
    /\ optional_amount (col_deposit cs) /\ blanks sp6
    /\ amount_word (col_balance cs).

(** The capture of an optional group: none when it read nothing. *)
Definition optional_capture (w : str) : option str :=
  match w with
  | [] => None
  | _ :: _ => Some w
  end.

(** The match object reads the columns. *)
Definition reads_columns (mo : match_obj) (cs : columns) : Prop :=
  group 1 mo = Some (col_date cs) /\ group 2 mo = Some (col_post_date cs)
  /\ group 3 mo = Some (col_description cs)
  /\ group 4 mo = optional_capture (col_reference cs)
  /\ group 5 mo = optional_capture (col_withdrawal cs)
  /\ group 6 mo = optional_capture (col_deposit cs)
  /\ group 7 mo = Some (col_balance cs)
  /\ snd mo = col_rest cs.
(** The value of an amount column: its digits read as hundredths (an
    empty column counts for zero). *)
Definition amount_value (w : str) : Q :=
  decimal (digits_val (filter is_digit w)) 2.

(** The record of a line whose columns are [cs]. *)
Definition record_of_columns (cs : columns) : value :=
  VDict [("date", VStr (convert_date_format (col_date cs)));
         ("post_date", VStr (convert_date_format (col_post_date cs)));
         ("description", VStr (strip (col_description cs)));
         ("reference", opt_value (optional_capture (col_reference cs)));
         ("withdrawal", VNum (amount_value (col_withdrawal cs)));
         ("deposit", VNum (amount_value (col_deposit cs)));
         ("balance", VNum (amount_value (col_balance cs)))]%string.
(** A whole number of hundredths, not negative. *)
Definition hundredths (q : Q) : Prop :=
  exists n : Z, (0 <= n)%Z /\ q = decimal n 2.

(** A number of at most fifteen digits: [float] tells it apart from every
    other such number, and Python prints it back as it was read. *)
Definition short_number (w : str) : Prop :=
  List.length (filter is_digit w) <= 15.

(** What [float] makes of an amount column: a number that is not
    negative and that, for a column of at most fifteen digits, is the
    decimal the column spells, a whole number of hundredths. *)
Definition reads_amount (w : str) (q : Q) : Prop :=
  (0 <= q)%Q /\ (short_number w -> q = amount_value w /\ hundredths q).

(** A number of the TOTAL line: digits and commas, one at least, a point
    and two digits. *)
Definition total_word (n : str) : Prop :=
  exists u a1 a2,
    n = u ++ ["."%char; a1; a2] /\ u <> []
    /\ Forall (fun a => is_digit a = true \/ a = ","%char) u
    /\ is_digit a1 = true /\ is_digit a2 = true.
(** The number of blanks of a text. *)
Definition count_blanks (s : str) : nat := List.length (filter is_space s).

(** An amount with a single digit before its first comma or point. *)
Definition one_leading_digit (a : str) : Prop :=
  exists x p q, a = x :: p :: q /\ is_digit p = false.
(** The transaction pattern in its three parts: what goes before the
    numeric section, the reference group, and the amounts. *)
Definition line_head : regex :=
  (Group 1 date_yy +++ plus true ws
   +++ Group 2 date_yy +++ plus true ws
   +++ Group 3 (Star false (Chr Dot)) +++ plus true ws
   +++ Ahead (Alt amount (Alt (lit "0.00") (plus true ws +++ amount))))%re.

Definition reference_group : regex := Group 4 (plus true (Chr alnum)).

Definition numeric_tail : regex :=
  (Star true ws
   +++ opt (Group 5 amount_or_zero) +++ plus true ws
   +++ opt (Group 6 amount_or_zero) +++ plus true ws
   +++ Group 7 amount)%re.

(** An amount with two digits at least before its first comma or
    point. *)
Definition two_leading_digits (a : str) : Prop :=
  exists x1 x2 t, a = x1 :: x2 :: t /\ is_digit x2 = true.
(** The word occurs in the text at a place that begins in [pre], the
    text being [pre] followed by the word. *)
Definition begins_before (word pre : str) : bool :=
  contains word (pre ++ removelast word).

(** What the Date Normalizer makes of a token DD/MM/YY of a line: when
    the token spells a day of the calendar, that day written YYYY-MM-DD
    with the digits of the token after the century; when it spells none,
    the token itself. *)
Definition normalized_or_kept (token s : str) : Prop :=
  exists d1 d2 m1 m2 y1 y2,
    token = [d1; d2; "/"%char; m1; m2; "/"%char; y1; y2]
    /\ all_digits [d1; d2; m1; m2; y1; y2]
    /\ match check_date_fields (found_year D_M_y (digits_val [y1; y2]))
                               (digits_val [m1; m2]) (digits_val [d1; d2]) with
       | Some _ =>
           s = century [y1; y2]
                 ++ [y1; y2; "-"%char; m1; m2; "-"%char; d1; d2]
       | None => s = token
       end.

(** The texts of the scenarios. *)

Definition scenario1 : str :=
  «"Name John Doe"» ++ "010"%char :: «"Account No 123456"»
  ++ "010"%char :: «"Account Type Savings"» ++ ["010"%char].

Definition cash_deposit_line : str :=
  «"01/03/25 02/03/25 Cash Deposit 1,000.00 5,000.00"».

Definition total_line : str := «"TOTAL 10,000.00 12,000.00 2,000.00"».

Definition expected_totals : dict :=
  [("total_withdrawal", VNum 10000); ("total_deposit", VNum 12000);
   ("final_balance", VNum 2000)]%string.

(** The text before the line ends a line (or is empty). *)
Definition ends_line (pre : str) : Prop :=
  pre = [] \/ exists pre', pre = pre' ++ ["010"%char].

Definition sep_char (a : ascii) : Prop := is_space a = true \/ a = ","%char.

Definition reads_total_line (mo : match_obj) : Prop :=
  group 1 mo = Some «"10,000.00"» /\ group 2 mo = Some «"12,000.00"»
  /\ group 3 mo = Some «"2,000.00"».

(** The text holds a TOTAL line: at the beginning of a line, blanks and
    commas, the word, and three numbers set off by blanks. *)
Definition total_sentence (text n1 n2 n3 : str) : Prop :=
  exists pre seps sp1 sp2 sp3 rest,
    text = pre ++ seps ++ «"TOTAL"» ++ sp1 ++ n1 ++ sp2 ++ n2 ++ sp3 ++ n3
               ++ rest
    /\ ends_line pre /\ Forall sep_char seps
    /\ blanks sp1 /\ blanks sp2 /\ blanks sp3
    /\ total_word n1 /\ total_word n2 /\ total_word n3.

Definition page_header : str := «"Account Statement"» ++ ["010"%char].

(** A page where the word TOTAL stands before the line, in lines that are
    not TOTAL lines. *)
Definition page_with_subtotal : str :=
  page_header ++ «"TOTAL GAS STATION 40.00"» ++ "010"%char
  :: «"SUBTOTAL 1.00 2.00 3.00"» ++ ["010"%char].

Definition two_total_lines : str :=
  «"TOTAL 1.00 2.00 3.00"» ++ "010"%char :: total_line.

(** * Properties *)

(** ** What a match means

    [mt r b s c w b' s' c']: from the position [(b, s)] with captures [c],
    [r] can consume the word [w], leaving the position [(b', s')] and the
    captures [c'].  It is the matching relation without priorities; every
    answer of the backtracking matcher is one of its derivations. *)

Inductive mt : regex -> bool -> str -> caps -> str -> bool -> str -> caps -> Prop :=
| mt_eps b s c : mt Eps b s c [] b s c
| mt_chr cl a b s c :
    cc_in cl a = true -> mt (Chr cl) b (a :: s) c [a] (is_nl a) s c
| mt_seq r1 r2 b s c w1 b1 s1 c1 w2 b2 s2 c2 :
    mt r1 b s c w1 b1 s1 c1 -> mt r2 b1 s1 c1 w2 b2 s2 c2 ->
    mt (Seq r1 r2) b s c (w1 ++ w2) b2 s2 c2
| mt_alt_l r1 r2 b s c w b' s' c' :
    mt r1 b s c w b' s' c' -> mt (Alt r1 r2) b s c w b' s' c'
| mt_alt_r r1 r2 b s c w b' s' c' :
    mt r2 b s c w b' s' c' -> mt (Alt r1 r2) b s c w b' s' c'
| mt_star_nil g r b s c : mt (Star g r) b s c [] b s c
| mt_star_cons g r b s c w1 b1 s1 c1 w2 b2 s2 c2 :
    mt r b s c w1 b1 s1 c1 -> mt (Star g r) b1 s1 c1 w2 b2 s2 c2 ->
    mt (Star g r) b s c (w1 ++ w2) b2 s2 c2
| mt_group i r b s c w b' s' c' :
    mt r b s c w b' s' c' -> mt (Group i r) b s c w b' s' (upd i w c')
| mt_ahead r b s c w b' s' c' :
    mt r b s c w b' s' c' -> mt (Ahead r) b s c [] b s c'
| mt_bol s c : mt Bol true s c [] true s c.

#[local] Hint Constructors mt : core.

Lemma mt_app r b s c w b' s' c' :
  mt r b s c w b' s' c' -> s = w ++ s'.
Proof.
  induction 1; simpl; auto.
  - subst. now rewrite <- app_assoc.
  - subst. now rewrite <- app_assoc.
Qed.

Lemma firstn_consumed (p : nat) (w s' : str) :
  firstn (p + List.length w - p) (w ++ s') = w.
Proof.
  rewrite Nat.add_comm, Nat.add_sub.
  rewrite firstn_app, Nat.sub_diag, firstn_all. simpl. apply app_nil_r.
Qed.

Lemma orelse_some {R} (x y : option R) v :
  orelse x y = Some v -> x = Some v \/ y = Some v.
Proof. destruct x; simpl; auto. Qed.

Section StarLoop.
Context {R : Type} (body : bool -> nat -> str -> caps -> cont R -> option R)
        (g : bool) (k : cont R) (r : regex).

Hypothesis body_sound : forall b p s c k' x,
  body b p s c k' = Some x ->
  exists w b' s' c',
    mt r b s c w b' s' c' /\ k' b' (p + List.length w) s' c' = Some x.

Lemma star_loop_sound n : forall b p s c x,
  star_loop body g k n b p s c = Some x ->
  exists w b' s' c',
    mt (Star g r) b s c w b' s' c' /\ k b' (p + List.length w) s' c' = Some x.
Proof.
  induction n as [|n IH]; intros b p s c x H; simpl in H.
  - assert (Hk : k b p s c = Some x).
    { destruct g; simpl in H; auto. now destruct (k b p s c). }
    exists [], b, s, c. rewrite Nat.add_0_r. auto.
  - assert (Hcases :
      body b p s c (fun b' p' s' c' =>
        if p <? p' then star_loop body g k n b' p' s' c'
        else k b' p' s' c') = Some x \/ k b p s c = Some x).
    { destruct g; apply orelse_some in H; tauto. }
    destruct Hcases as [Hb|Hk].
    2:{ exists [], b, s, c. rewrite Nat.add_0_r. auto. }
    apply body_sound in Hb. destruct Hb as (w1 & b1 & s1 & c1 & Hm & Hk).
    destruct (p <? p + List.length w1).
    + apply IH in Hk. destruct Hk as (w2 & b2 & s2 & c2 & Hm2 & Hk).
      exists (w1 ++ w2), b2, s2, c2.
      rewrite length_app, Nat.add_assoc.
      split; [econstructor; eassumption|assumption].
    + exists (w1 ++ []), b1, s1, c1. rewrite app_nil_r at 2.
      split; [econstructor; [eassumption|constructor]|assumption].
Qed.

End StarLoop.

Theorem m_sound r : forall R b p s c (k : cont R) x,
  m r R b p s c k = Some x ->
  exists w b' s' c',
    mt r b s c w b' s' c' /\ k b' (p + List.length w) s' c' = Some x.
Proof.
  induction r; intros R b p s c k x H; cbn [m] in H.
  - exists [], b, s, c. rewrite Nat.add_0_r. auto.
  - destruct s as [|a s]; [discriminate|].
    destruct (cc_in cl a) eqn:E; [|discriminate].
    exists [a], (is_nl a), s, c. simpl. rewrite Nat.add_1_r. auto.
  - apply IHr1 in H. destruct H as (w1 & b1 & s1 & c1 & H1 & H).
    apply IHr2 in H. destruct H as (w2 & b2 & s2 & c2 & H2 & H).
    exists (w1 ++ w2), b2, s2, c2. rewrite length_app, Nat.add_assoc.
    split; [econstructor; eassumption|assumption].
  - apply orelse_some in H. destruct H as [H|H].
    + apply IHr1 in H. destruct H as (w & b' & s' & c' & H1 & H). eauto 8.
    + apply IHr2 in H. destruct H as (w & b' & s' & c' & H1 & H). eauto 8.
  - eapply star_loop_sound; [|exact H]. intros; eauto.
  - apply IHr in H. destruct H as (w & b' & s' & c' & H1 & H).
    pose proof (mt_app _ _ _ _ _ _ _ _ H1) as E. subst s.
    rewrite firstn_consumed in H. eauto 8.
  - destruct (m r caps b p s c (fun _ _ _ c' => Some c')) as [c1|] eqn:E;
      [|discriminate].
    apply IHr in E. destruct E as (w & b' & s' & c' & H1 & E).
    injection E as <-. exists [], b, s, c'. rewrite Nat.add_0_r. eauto.
  - destruct b; [|discriminate].
    exists [], true, s, c. rewrite Nat.add_0_r. auto.
Qed.

(** The bound on the iterations of a repetition is never what stops it:
    any bound above the length of the remaining text gives the same
    answer.  Two continuations that agree wherever the pattern can lead
    give the same answer. *)

Lemma m_ext r : forall R b p s c (k1 k2 : cont R),
  (forall b' w s' c',
     s = w ++ s' ->
     k1 b' (p + List.length w) s' c' = k2 b' (p + List.length w) s' c') ->
  m r R b p s c k1 = m r R b p s c k2.
Proof.
  induction r; intros R b p s c k1 k2 Hk; cbn [m].
  - specialize (Hk b [] s c eq_refl). now rewrite Nat.add_0_r in Hk.
  - destruct s as [|a s]; auto.
    specialize (Hk (is_nl a) [a] s c eq_refl). simpl in Hk.
    rewrite Nat.add_1_r in Hk. now rewrite Hk.
  - apply IHr1. intros b1 w1 s1 c1 ->. apply IHr2. intros b2 w2 s2 c2 ->.
    specialize (Hk b2 (w1 ++ w2) s2 c2).
    rewrite length_app, Nat.add_assoc, <- app_assoc in Hk. now apply Hk.
  - now rewrite (IHr1 _ _ _ _ _ k1 k2), (IHr2 _ _ _ _ _ k1 k2).
  - generalize (S (List.length s)) as n. intros n. revert b p s c Hk.
    induction n as [|n IH]; intros b p s c Hk; simpl.
    + pose proof (Hk b [] s c eq_refl) as E. rewrite Nat.add_0_r in E.
      now rewrite E.
    + pose proof (Hk b [] s c eq_refl) as E. rewrite Nat.add_0_r in E.
      rewrite E.
      assert (Eb : m r R b p s c
                (fun b' p' s' c' =>
                   if p <? p' then star_loop (m r R) greedy k1 n b' p' s' c'
                   else k1 b' p' s' c')
            = m r R b p s c
                (fun b' p' s' c' =>
                   if p <? p' then star_loop (m r R) greedy k2 n b' p' s' c'
                   else k2 b' p' s' c')).
      { apply IHr. intros b1 w1 s1 c1 ->.
        destruct (p <? p + List.length w1).
        - apply IH. intros b2 w2 s2 c2 ->.
          specialize (Hk b2 (w1 ++ w2) s2 c2).
          rewrite length_app, Nat.add_assoc, <- app_assoc in Hk. now apply Hk.
        - now apply Hk. }
      now rewrite Eb.
  - apply IHr. intros b1 w1 s1 c1 ->.
    rewrite Nat.add_comm, Nat.add_sub, Nat.add_comm. now apply Hk.
  - destruct (m r caps b p s c (fun _ _ _ c' => Some c')); auto.
    specialize (Hk b [] s c0 eq_refl). now rewrite Nat.add_0_r in Hk.
  - destruct b; auto.
    specialize (Hk true [] s c eq_refl). now rewrite Nat.add_0_r in Hk.
Qed.

Lemma star_loop_fuel r R g (k : cont R) : forall n1 n2 b p s c,
  List.length s < n1 -> List.length s < n2 ->
  star_loop (m r R) g k n1 b p s c = star_loop (m r R) g k n2 b p s c.
Proof.
  induction n1 as [|n1 IH]; intros n2 b p s c H1 H2; [lia|].
  destruct n2 as [|n2]; [lia|]. simpl.
  assert (E : m r R b p s c
                (fun b' p' s' c' =>
                   if p <? p' then star_loop (m r R) g k n1 b' p' s' c'
                   else k b' p' s' c')
            = m r R b p s c
                (fun b' p' s' c' =>
                   if p <? p' then star_loop (m r R) g k n2 b' p' s' c'
                   else k b' p' s' c')).
  { apply m_ext. intros b' w s' c' ->.
    destruct (p <? p + List.length w) eqn:E; auto.
    apply Nat.ltb_lt in E. rewrite length_app in H1, H2. apply IH; lia. }
  now rewrite E.
Qed.

(** ** Captures after a match *)

Lemma mt_caps_frame i r b s c w b' s' c' :
  mt r b s c w b' s' c' -> group_bodies i r = [] -> c' i = c i.
Proof.
  induction 1; simpl; intros E; auto.
  - apply app_eq_nil in E. destruct E. rewrite IHmt2, IHmt1; auto.
  - apply app_eq_nil in E. destruct E. auto.
  - apply app_eq_nil in E. destruct E. auto.
  - rewrite IHmt2, IHmt1; auto.
  - unfold upd. destruct (Nat.eqb i i0); [discriminate|]. auto.
Qed.

Lemma mt_group_origin i r b s c w b' s' c' :
  mt r b s c w b' s' c' ->
  forall g, c' i = Some g ->
  c i = Some g \/
  exists r0 b0 s0 c0 b1 s1 c1,
    In r0 (group_bodies i r) /\ mt r0 b0 s0 c0 g b1 s1 c1.
Proof.
  induction 1; simpl; intros g0 E; auto.
  - destruct (IHmt2 _ E) as [E1|(r0 & ? & ? & ? & ? & ? & ? & Hin & Hm)].
    + destruct (IHmt1 _ E1) as [E0|(r0 & ? & ? & ? & ? & ? & ? & Hin & Hm)]; auto.
      right. exists r0. repeat eexists; [apply in_or_app; left|]; eassumption.
    + right. exists r0. repeat eexists; [apply in_or_app; right|]; eassumption.
  - destruct (IHmt _ E) as [E0|(r0 & ? & ? & ? & ? & ? & ? & Hin & Hm)]; auto.
    right. exists r0. repeat eexists; [apply in_or_app; left|]; eassumption.
  - destruct (IHmt _ E) as [E0|(r0 & ? & ? & ? & ? & ? & ? & Hin & Hm)]; auto.
    right. exists r0. repeat eexists; [apply in_or_app; right|]; eassumption.
  - destruct (IHmt2 _ E) as [E1|Hr]; auto.
  - unfold upd in E. destruct (Nat.eqb i i0) eqn:Ei.
    + injection E as <-. right. exists r. repeat eexists; [now left|eassumption].
    + destruct (IHmt _ E) as [E0|Hr]; auto.
Qed.

Lemma mt_caps_keep i r b s c w b' s' c' :
  mt r b s c w b' s' c' -> c i <> None -> c' i <> None.
Proof.
  induction 1; auto.
  intros Hc. unfold upd. destruct (Nat.eqb i i0); [discriminate|auto].
Qed.

Lemma mt_sets i r b s c w b' s' c' :
  mt r b s c w b' s' c' -> sets i r = true -> c' i <> None.
Proof.
  induction 1; simpl; intros E; try discriminate.
  - apply orb_true_iff in E. destruct E as [E|E]; auto.
    eapply mt_caps_keep; eauto.
  - apply andb_true_iff in E. destruct E; auto.
  - apply andb_true_iff in E. destruct E; auto.
  - unfold upd. destruct (Nat.eqb i i0) eqn:Ei; [discriminate|]. simpl in E. auto.
  - auto.
Qed.

Lemma mt_alpha P r b s c w b' s' c' :
  mt r b s c w b' s' c' -> alpha P r -> Forall P w.
Proof.
  induction 1; simpl; intros A; auto.
  - destruct A. apply Forall_app; auto.
  - destruct A; auto.
  - destruct A; auto.
  - apply Forall_app; auto.
Qed.

(** ** What [re.match] and [re.search] return *)

Lemma re_match_sound r s mo :
  re_match r s = Some mo ->
  exists w b', mt r true s no_caps w b' (snd mo) (fst mo).
Proof.
  unfold re_match. intros H. apply m_sound in H.
  destruct H as (w & b' & s' & c' & Hm & E). injection E as <-. simpl. eauto.
Qed.

Lemma search_from_sound r : forall s b mo,
  search_from r b s = Some mo ->
  exists b0 s0 w b', mt r b0 s0 no_caps w b' (snd mo) (fst mo).
Proof.
  induction s as [|a s IH]; intros b mo H; simpl in H.
  - destruct (m r match_obj b 0 [] no_caps accept) eqn:E; [|discriminate].
    injection H as <-. apply m_sound in E.
    destruct E as (w & b' & s' & c' & Hm & E). injection E as <-. simpl. eauto 6.
  - destruct (m r match_obj b 0 (a :: s) no_caps accept) eqn:E.
    + injection H as <-. apply m_sound in E.
      destruct E as (w & b' & s' & c' & Hm & E). injection E as <-. simpl. eauto 6.
    + eauto.
Qed.

Lemma re_search_group_set r s mo i :
  re_search r s = Some mo -> sets i r = true -> exists g, group i mo = Some g.
Proof.
  intros H Hs. apply search_from_sound in H.
  destruct H as (b0 & s0 & w & b' & Hm).
  pose proof (mt_sets i _ _ _ _ _ _ _ _ Hm Hs) as Hn.
  unfold group. destruct (fst mo i); [eauto|congruence].
Qed.

(** ** Characters *)

Ltac each_ascii a :=
  destruct a as [[] [] [] [] [] [] [] []]; vm_compute; try discriminate; auto.

Lemma digit_not_space a : is_digit a = true -> is_space a = false.
Proof. each_ascii a. Qed.

Lemma digit_not_point a : is_digit a = true -> Ascii.eqb a "."%char = false.
Proof. each_ascii a. Qed.

Lemma digit_not_comma a : is_digit a = true -> Ascii.eqb a ","%char = false.
Proof. each_ascii a. Qed.

Lemma digit_not_sign a :
  is_digit a = true ->
  Ascii.eqb a "-"%char = false /\ Ascii.eqb a "+"%char = false.
Proof. each_ascii a. Qed.

Lemma digit_val_nonneg a : is_digit a = true -> (0 <= digit_val a)%Z.
Proof. each_ascii a. Qed.

(** ** Inversion of matches *)

Ltac inv H := inversion H; subst; clear H.

Ltac inv_mt :=
  repeat match goal with
  | H : mt (Seq _ _) _ _ _ _ _ _ _ |- _ => inv H
  | H : mt (Chr _) _ _ _ _ _ _ _ |- _ => inv H
  | H : mt Eps _ _ _ _ _ _ _ |- _ => inv H
  | H : mt (Alt _ _) _ _ _ _ _ _ _ |- _ => inv H
  | H : mt (Group _ _) _ _ _ _ _ _ _ |- _ => inv H
  | H : mt (Ahead _) _ _ _ _ _ _ _ |- _ => inv H
  | H : mt Bol _ _ _ _ _ _ _ |- _ => inv H
  end.

Lemma mt_star_chr g cl b s c w b' s' c' :
  mt (Star g (Chr cl)) b s c w b' s' c' ->
  c' = c /\ Forall (fun a => cc_in cl a = true) w.
Proof.
  intros H. remember (Star g (Chr cl)) as r eqn:Er.
  induction H; inversion Er; subst; clear Er.
  - auto.
  - inv H. destruct (IHmt2 eq_refl) as [-> HF]. split; auto.
    simpl. constructor; auto.
Qed.

Lemma mt_seq_inv r1 r2 b s c w b' s' c' :
  mt (Seq r1 r2) b s c w b' s' c' ->
  exists w1 b1 s1 c1 w2,
    mt r1 b s c w1 b1 s1 c1 /\ mt r2 b1 s1 c1 w2 b' s' c' /\ w = w1 ++ w2.
Proof. intros H. inv H. eauto 10. Qed.

Ltac peel H H1 :=
  apply mt_seq_inv in H;
  let w1 := fresh "w" in let b1 := fresh "b" in let s1 := fresh "s" in
  let c1 := fresh "c" in let w2 := fresh "w" in
  destruct H as (w1 & b1 & s1 & c1 & w2 & H1 & H & ->).

Lemma mt_lit str : forall b s c w b' s' c',
  mt (lit str) b s c w b' s' c' ->
  w = list_ascii_of_string str /\ s = w ++ s' /\ c' = c.
Proof.
  induction str as [|a str IH]; intros b s c w b' s' c' H; simpl in H.
  - inv H. auto.
  - apply mt_seq_inv in H.
    destruct H as (w1 & b1 & s1 & c1 & w2 & H1 & H & ->).
    inv H1. apply IH in H. destruct H as (-> & -> & ->).
    match goal with H : cc_in (Lit _) _ = true |- _ =>
      simpl in H; apply Ascii.eqb_eq in H; subst end.
    auto.
Qed.

Lemma orelse_none_r {R} (x : option R) : orelse x None = x.
Proof. now destruct x. Qed.

(** ** strip *)

Lemma lstrip_id s :
  match s with a :: _ => is_space a = false | [] => True end -> lstrip s = s.
Proof. destruct s as [|a s]; simpl; auto. now intros ->. Qed.

Lemma strip_no_space s :
  Forall (fun a => is_space a = false) s -> strip s = s.
Proof.
  intros H. unfold strip, rstrip.
  rewrite (lstrip_id s) by (destruct H; auto).
  rewrite lstrip_id; [apply rev_involutive|].
  apply Forall_rev in H. destruct H; auto.
Qed.

Lemma lstrip_Forall (P : ascii -> Prop) s : Forall P s -> Forall P (lstrip s).
Proof.
  induction 1; simpl; auto. destruct (is_space x); auto.
Qed.

Lemma strip_Forall (P : ascii -> Prop) s : Forall P s -> Forall P (strip s).
Proof.
  intros H. unfold strip, rstrip.
  apply Forall_rev, lstrip_Forall, Forall_rev, lstrip_Forall, H.
Qed.

(** ** float on the numbers of a statement *)

Lemma split_dot_digits u f :
  Forall (fun a => is_digit a = true) u ->
  split_dot (u ++ "."%char :: f) = (u, Some f).
Proof.
  induction 1 as [|a u Ha _ IH]; simpl; auto.
  rewrite (digit_not_point a Ha), IH. reflexivity.
Qed.

Lemma forallb_digits u :
  Forall (fun a => is_digit a = true) u -> forallb is_digit u = true.
Proof. intros H. apply forallb_forall. now apply Forall_forall. Qed.

(** Digits, a point and two digits always convert. *)
Lemma float_decimal u a1 a2 :
  Forall (fun a => is_digit a = true) u ->
  is_digit a1 = true -> is_digit a2 = true ->
  exists q, float (u ++ ["."%char; a1; a2]) = Some q.
Proof.
  intros Hu H1 H2. unfold float.
  rewrite strip_no_space.
  2:{ apply Forall_app. split.
      - eapply Forall_impl; [|exact Hu]. apply digit_not_space.
      - repeat constructor; auto using digit_not_space. }
  assert (Hall : forallb is_digit (u ++ [a1; a2]) = true).
  { apply forallb_digits, Forall_app. split; auto. }
  assert (Hun : exists q, float_unsigned (u ++ ["."%char; a1; a2]) = Some q).
  { unfold float_unsigned. rewrite split_dot_digits by assumption.
    rewrite Hall. rewrite length_app, Nat.add_comm. simpl. eauto. }
  destruct u as [|a u]; simpl app in *.
  - change (Ascii.eqb "." "-") with false. change (Ascii.eqb "." "+") with false.
    exact Hun.
  - inversion Hu; subst.
    destruct (digit_not_sign a) as [-> ->]; auto.
Qed.

(** ** Date Normalizer *)

Lemma digit_cases a :
  is_digit a = true ->
  In a ["0"; "1"; "2"; "3"; "4"; "5"; "6"; "7"; "8"; "9"]%char.
Proof.
  destruct a as [[] [] [] [] [] [] [] []]; vm_compute; intros H;
    try discriminate H; tauto.
Qed.

Lemma digit_not_slash a : is_digit a = true -> a <> "/"%char.
Proof. intros H ->. discriminate H. Qed.

Lemma range_digit lo hi a :
  cc_in (Range lo hi) a = true ->
  is_digit lo = true -> is_digit hi = true -> is_digit a = true.
Proof.
  unfold is_digit. simpl. rewrite !andb_true_iff, !N.leb_le. lia.
Qed.

Lemma sub_1 p : S p - p = 1.
Proof. lia. Qed.
Lemma sub_2 p : S (S p) - p = 2.
Proof. lia. Qed.
Lemma sub_4 p : S (S (S (S p))) - p = 4.
Proof. lia. Qed.

(** *** split *)

Lemma split_on_nonempty x s : split_on x s <> [].
Proof.
  destruct s as [|a s]; simpl; [discriminate|].
  destruct (Ascii.eqb a x); [discriminate|].
  destruct (split_on x s); discriminate.
Qed.

Lemma split_on_app x : forall u t,
  ~ In x u -> split_on x (u ++ x :: t) = u :: split_on x t.
Proof.
  induction u as [|a u IH]; intros t Hu; simpl.
  - now rewrite Ascii.eqb_refl.
  - destruct (Ascii.eqb a x) eqn:E.
    + apply Ascii.eqb_eq in E. exfalso. apply Hu. now left.
    + rewrite IH; [reflexivity|]. intros H. apply Hu. now right.
Qed.

Lemma split_on_single x : forall u, ~ In x u -> split_on x u = [u].
Proof.
  induction u as [|a u IH]; intros Hu; simpl; [reflexivity|].
  destruct (Ascii.eqb a x) eqn:E.
  - apply Ascii.eqb_eq in E. exfalso. apply Hu. now left.
  - rewrite IH; [reflexivity|]. intros H. apply Hu. now right.
Qed.

Lemma split_on_inv x : forall s l ls,
  split_on x s = l :: ls ->
  ~ In x l
  /\ ((ls = [] /\ s = l)
      \/ exists t, s = l ++ x :: t /\ split_on x t = ls).
Proof.
  induction s as [|a s IH]; intros l ls H; simpl in H.
  - injection H as <- <-. auto.
  - destruct (Ascii.eqb a x) eqn:E.
    + apply Ascii.eqb_eq in E. subst a. injection H as <- <-.
      split; [auto|]. right. now exists s.
    + destruct (split_on x s) as [|l' ls'] eqn:Es;
        [now apply split_on_nonempty in Es|].
      injection H as <- <-.
      destruct (IH l' ls' eq_refl) as [Hn [[-> ->]|(t & -> & Ht)]].
      * split; [|now left]. intros [->|Hin]; [|auto].
        now rewrite Ascii.eqb_refl in E.
      * split; [|right; now exists t]. intros [->|Hin]; [|auto].
        now rewrite Ascii.eqb_refl in E.
Qed.

Lemma split_on_three x s D M Y :
  split_on x s = [D; M; Y] ->
  s = D ++ x :: M ++ x :: Y /\ ~ In x D /\ ~ In x M /\ ~ In x Y.
Proof.
  intros H. apply split_on_inv in H.
  destruct H as [HD [[H _]|(t & -> & H)]]; [discriminate|].
  apply split_on_inv in H.
  destruct H as [HM [[H _]|(t' & -> & H)]]; [discriminate|].
  apply split_on_inv in H.
  destruct H as [HY [[_ ->]|(t'' & _ & H)]]; [auto|].
  now apply split_on_nonempty in H.
Qed.

(** *** The format, one field at a time *)

Ltac digits_of H :=
  apply digit_cases in H; simpl in H;
  repeat (destruct H as [H|H]; [symmetry in H; subst|]); [..|destruct H].

Ltac run_field Hr :=
  first [ cbn -[Nat.sub]; rewrite ?sub_1, ?sub_2; cbn; rewrite ?orelse_none_r;
          reflexivity
        | exfalso; vm_compute in Hr; intuition congruence ].

Lemma day_step D :
  day_shape D = true -> (1 <= int_of_str D <= 31)%Z ->
  forall R b s' c (k : cont R) r,
    m (Seq (Group 1 directive_d) (Seq (lit "/") r)) R b 0
      (D ++ "/"%char :: s') c k
    = m r R false (List.length D + 1) s' (upd 1 D c) k.
Proof.
  intros Hs Hr R b s' c k r.
  destruct D as [|x [|y [|z D]]]; try discriminate Hs; simpl in Hs.
  - digits_of Hs; run_field Hr.
  - apply andb_true_iff in Hs. destruct Hs as [Hx Hy].
    apply orb_true_iff in Hx. destruct Hx as [Hx|Hx].
    + digits_of Hx; digits_of Hy; run_field Hr.
    + apply Ascii.eqb_eq in Hx. subst x. digits_of Hy; run_field Hr.
Qed.

Lemma month_step M :
  month_shape M = true -> (1 <= int_of_str M <= 12)%Z ->
  forall R b p s' c (k : cont R) r,
    m (Seq (Group 2 directive_m) (Seq (lit "/") r)) R b p
      (M ++ "/"%char :: s') c k
    = m r R false (List.length M + 1 + p) s' (upd 2 M c) k.
Proof.
  intros Hs Hr R b p s' c k r.
  destruct M as [|x [|y [|z M]]]; try discriminate Hs; simpl in Hs.
  - digits_of Hs; run_field Hr.
  - apply andb_true_iff in Hs. destruct Hs as [Hx Hy].
    digits_of Hx; digits_of Hy; run_field Hr.
Qed.

Lemma year_step f Y :
  year_shape f Y = true ->
  forall b p c,
    m (Group 3 (match f with D_M_y => directive_y | D_M_Y => directive_Y end))
      match_obj b p Y c accept
    = Some (upd 3 Y c, []).
Proof.
  unfold year_shape. intros H b p c.
  apply andb_true_iff in H. destruct H as [Hd Hl].
  apply Nat.eqb_eq in Hl.
  destruct f; simpl in Hl.
  - destruct Y as [|y1 [|y2 [|y3 Y]]]; try discriminate Hl.
    simpl in Hd. rewrite !andb_true_iff in Hd. destruct Hd as (H1 & H2 & _).
    cbn -[Nat.sub]. rewrite H1, H2, sub_2. reflexivity.
  - destruct Y as [|y1 [|y2 [|y3 [|y4 [|y5 Y]]]]]; try discriminate Hl.
    simpl in Hd. rewrite !andb_true_iff in Hd.
    destruct Hd as (H1 & H2 & H3 & H4 & _).
    cbn -[Nat.sub]. rewrite H1, H2, H3, H4, sub_4. reflexivity.
Qed.

Ltac class_facts :=
  repeat match goal with
  | H : cc_in (Lit _) _ = true |- _ =>
      simpl in H; apply Ascii.eqb_eq in H; subst
  | H : cc_in (Range _ _) _ = true |- _ =>
      apply range_digit in H; [|reflexivity|reflexivity]
  | H : cc_in Digit ?a = true |- _ => change (is_digit a = true) in H
  end.

Ltac no_slash :=
  simpl; intros Hin;
  repeat match goal with
  | H : _ \/ _ |- _ => destruct H as [H|H]
  | H : False |- _ => destruct H
  | H : "/"%char = ?a, Hd : is_digit ?a = true |- _ =>
      rewrite <- H in Hd; discriminate Hd
  | H : ?a = "/"%char, Hd : is_digit ?a = true |- _ =>
      rewrite H in Hd; discriminate Hd
  | H : _ = "/"%char |- _ => discriminate H
  | H : "/"%char = _ |- _ => discriminate H
  end.

Lemma day_sound b s c D b' s' c' :
  mt directive_d b s c D b' s' c' ->
  c' = c /\ day_shape D = true /\ ~ In "/"%char D.
Proof.
  intros H. cbv [directive_d lit r19 d] in H. inv_mt; class_facts;
    (split; [reflexivity|]); simpl;
    repeat match goal with H : is_digit _ = true |- _ => rewrite H end;
    (split; [reflexivity|no_slash]).
Qed.

Lemma month_sound b s c M b' s' c' :
  mt directive_m b s c M b' s' c' ->
  c' = c /\ month_shape M = true /\ ~ In "/"%char M.
Proof.
  intros H. cbv [directive_m lit r19 d] in H. inv_mt; class_facts;
    (split; [reflexivity|]); simpl;
    repeat match goal with H : is_digit _ = true |- _ => rewrite H end;
    (split; [reflexivity|no_slash]).
Qed.

Lemma year_sound f b s c Y b' s' c' :
  mt (match f with D_M_y => directive_y | D_M_Y => directive_Y end)
     b s c Y b' s' c' ->
  c' = c /\ year_shape f Y = true /\ ~ In "/"%char Y.
Proof.
  intros H. destruct f; cbv [directive_y directive_Y d] in H; inv_mt;
    class_facts; (split; [reflexivity|]); unfold year_shape; simpl;
    repeat match goal with H : is_digit _ = true |- _ => rewrite H end;
    (split; [reflexivity|no_slash]).
Qed.

(** What a match of the whole format that leaves nothing says. *)
Lemma format_sound f s w b' c' :
  mt (format_regex f) true s no_caps w b' [] c' ->
  exists D M Y,
    s = D ++ "/"%char :: M ++ "/"%char :: Y
    /\ day_shape D = true /\ month_shape M = true /\ year_shape f Y = true
    /\ ~ In "/"%char D /\ ~ In "/"%char M /\ ~ In "/"%char Y
    /\ c' 1 = Some D /\ c' 2 = Some M /\ c' 3 = Some Y.
Proof.
  intros H. pose proof (mt_app _ _ _ _ _ _ _ _ H) as E.
  rewrite app_nil_r in E. subst s. unfold format_regex in H.
  apply mt_seq_inv in H. destruct H as (w1 & b1 & s1 & c1 & v1 & H1 & H & E1).
  apply mt_seq_inv in H. destruct H as (w2 & b2 & s2 & c2 & v2 & H2 & H & E2).
  apply mt_seq_inv in H. destruct H as (w3 & b3 & s3 & c3 & v3 & H3 & H & E3).
  apply mt_seq_inv in H. destruct H as (w4 & b4 & s4 & c4 & v4 & H4 & H & E4).
  subst. inv H1. inv H3. inv H.
  apply mt_lit in H2. destruct H2 as (-> & _ & ->).
  apply mt_lit in H4. destruct H4 as (-> & _ & ->).
  repeat match goal with
  | H : mt directive_d _ _ _ _ _ _ _ |- _ =>
      apply day_sound in H; destruct H as (-> & ? & ?)
  | H : mt directive_m _ _ _ _ _ _ _ |- _ =>
      apply month_sound in H; destruct H as (-> & ? & ?)
  | H : mt (match f with _ => _ end) _ _ _ _ _ _ _ |- _ =>
      apply year_sound in H; destruct H as (-> & ? & ?)
  end.
  do 3 eexists. split; [reflexivity|]. repeat split; auto.
Qed.

Lemma check_date_fields_range y mo dy dt :
  check_date_fields y mo dy = Some dt ->
  dt = mkdate y mo dy
  /\ (1 <= y <= 9999 /\ 1 <= mo <= 12 /\ 1 <= dy <= 31)%Z.
Proof.
  unfold check_date_fields.
  destruct (_ && _) eqn:E; [|discriminate]. intros H. injection H as <-.
  rewrite !andb_true_iff, !Z.leb_le in E.
  split; [reflexivity|].
  assert (days_in_month y mo <= 31)%Z.
  { unfold days_in_month.
    destruct mo as [|[[[|[]|]|[[]|[]|]|]|[[|[]|]|[[]|[]|]|]|]|];
      try destruct (is_leap y); lia. }
  lia.
Qed.

Lemma read_date_strptime f s dt :
  read_date f s = Some dt -> strptime s f = Some dt.
Proof.
  unfold read_date.
  destruct (split_on "/" s) as [|D [|M [|Y [|? ?]]]] eqn:Es; try discriminate.
  destruct (day_shape D && month_shape M && year_shape f Y) eqn:Esh;
    [|discriminate].
  rewrite !andb_true_iff in Esh. destruct Esh as [[HD HM] HY].
  intros Hc. pose proof (check_date_fields_range _ _ _ _ Hc) as (_ & _ & Hm & Hd).
  apply split_on_three in Es. destruct Es as (-> & _).
  unfold strptime, re_match, format_regex.
  rewrite day_step, month_step, year_step by assumption.
  unfold group. simpl. exact Hc.
Qed.

Lemma strptime_read_date f s dt :
  strptime s f = Some dt -> read_date f s = Some dt.
Proof.
  unfold strptime.
  destruct (re_match (format_regex f) s) as [[c' rest]|] eqn:E; [|discriminate].
  simpl. destruct rest; [|discriminate].
  apply re_match_sound in E. destruct E as (w & b' & Hm). simpl in Hm.
  apply format_sound in Hm.
  destruct Hm as (D & M & Y & -> & HD & HM & HY & ND & NM & NY & -> & -> & ->).
  intros Hc. unfold read_date.
  rewrite split_on_app, split_on_app, split_on_single by assumption.
  rewrite HD, HM, HY. exact Hc.
Qed.

(** [strptime] reads exactly the tokens described in words. *)
Lemma strptime_spec f s : strptime s f = read_date f s.
Proof.
  destruct (read_date f s) as [dt|] eqn:Er.
  - now apply read_date_strptime.
  - destruct (strptime s f) as [dt|] eqn:Es; [|reflexivity].
    apply strptime_read_date in Es. congruence.
Qed.

(** *** The canonical form *)

Lemma digit_char_ok k :
  (0 <= k < 10)%Z ->
  is_digit (digit_char k) = true /\ digit_val (digit_char k) = k.
Proof.
  intros H.
  assert (E : (k = 0 \/ k = 1 \/ k = 2 \/ k = 3 \/ k = 4 \/ k = 5 \/ k = 6
               \/ k = 7 \/ k = 8 \/ k = 9)%Z) by lia.
  repeat (destruct E as [E|E]; [subst k; split; reflexivity|]).
  subst k. split; reflexivity.
Qed.

Lemma strftime_iso y mo dy dt :
  check_date_fields y mo dy = Some dt -> (1000 <= y)%Z ->
  is_iso_of dt (strftime dt).
Proof.
  intros H Hk. apply check_date_fields_range in H.
  destruct H as (-> & Hy & Hm & Hd).
  unfold strftime, year_text, pad4, pad2. cbn [year month day].
  destruct (Z.leb_spec 1000 y) as [_|]; [|lia].
  destruct (digit_char_ok (y / 1000 mod 10)) as [D1 V1];
    [apply Z.mod_pos_bound; lia|].
  destruct (digit_char_ok (y / 100 mod 10)) as [D2 V2];
    [apply Z.mod_pos_bound; lia|].
  destruct (digit_char_ok (y / 10 mod 10)) as [D3 V3];
    [apply Z.mod_pos_bound; lia|].
  destruct (digit_char_ok (y mod 10)) as [D4 V4];
    [apply Z.mod_pos_bound; lia|].
  destruct (digit_char_ok (mo / 10 mod 10)) as [D5 V5];
    [apply Z.mod_pos_bound; lia|].
  destruct (digit_char_ok (mo mod 10)) as [D6 V6];
    [apply Z.mod_pos_bound; lia|].
  destruct (digit_char_ok (dy / 10 mod 10)) as [D7 V7];
    [apply Z.mod_pos_bound; lia|].
  destruct (digit_char_ok (dy mod 10)) as [D8 V8];
    [apply Z.mod_pos_bound; lia|].
  do 8 eexists. split; [reflexivity|]. split; [repeat constructor; assumption|].
  unfold digits_val. cbn [fold_left year month day].
  rewrite V1, V2, V3, V4, V5, V6, V7, V8.
  repeat split; Z.div_mod_to_equations; lia.
Qed.

Lemma read_date_iso f token dt :
  read_date f token = Some dt -> (1000 <= year dt)%Z ->
  is_iso_of dt (strftime dt).
Proof.
  unfold read_date.
  destruct (split_on "/" token) as [|D [|M [|Y [|? ?]]]]; try discriminate.
  destruct (_ && _); [|discriminate]. intros H Hy.
  eapply strftime_iso; [exact H|].
  apply check_date_fields_range in H. destruct H as [-> _]. exact Hy.
Qed.

Lemma digit_val_range a : is_digit a = true -> (0 <= digit_val a <= 9)%Z.
Proof.
  intros H. apply digit_cases in H. simpl in H.
  repeat (destruct H as [<-|H]; [vm_compute; split; discriminate|]).
  destruct H.
Qed.

(** A two-digit year is a year of 1969..2068. *)
Lemma read_date_yy_year token dt :
  read_date D_M_y token = Some dt -> (1969 <= year dt <= 2068)%Z.
Proof.
  unfold read_date.
  destruct (split_on "/" token) as [|D [|M [|Y [|? ?]]]]; try discriminate.
  destruct (_ && _) eqn:E; [|discriminate].
  rewrite !andb_true_iff in E. destruct E as [_ HY].
  intros H. apply check_date_fields_range in H. destruct H as [-> _].
  cbn [year]. unfold year_shape in HY. apply andb_true_iff in HY.
  destruct HY as [Hd Hl]. apply Nat.eqb_eq in Hl.
  destruct Y as [|y1 [|y2 [|y3 Y]]]; try discriminate Hl.
  simpl in Hd. rewrite !andb_true_iff in Hd. destruct Hd as (H1 & H2 & _).
  unfold int_of_str. rewrite strip_no_space
    by (repeat constructor; auto using digit_not_space).
  unfold digits_val. cbn [fold_left].
  pose proof (digit_val_range y1 H1). pose proof (digit_val_range y2 H2).
  unfold found_year.
  destruct (Z.leb_spec (10 * (10 * 0 + digit_val y1) + digit_val y2) 68); lia.
Qed.

(** C2, as amended.  The tokens are those of the file: their characters
    are code points below 256, where the decimal digits are the ten
    digits 0 to 9.  A token read as a date under %d/%m/%y, or failing
    that under %d/%m/%Y with a year from 1000 on, is returned as that day
    written YYYY-MM-DD; every token that is read under neither format is
    returned as it is.  A token is read as a date when it is three fields
    separated by slashes, the day on one or two digits (a single digit
    alone or after a blank), the month on one or two digits, the year on
    exactly two digits (a year of 1969..2068), respectively four, and the
    numbers are a day of the calendar.  The function is total: no
    exception leaves it. *)
Theorem convert_date_format_spec (token : str) :
  match read_date D_M_y token with
  | Some dt => (1969 <= year dt <= 2068)%Z
               /\ is_iso_of dt (convert_date_format token)
  | None =>
      match read_date D_M_Y token with
      | Some dt => (1000 <= year dt)%Z ->
                   is_iso_of dt (convert_date_format token)
      | None => convert_date_format token = token
      end
  end.
Proof.
  unfold convert_date_format. rewrite !strptime_spec.
  destruct (read_date D_M_y token) as [dt|] eqn:E1.
  - pose proof (read_date_yy_year _ _ E1) as Hy. split; [exact Hy|].
    eapply read_date_iso; [eassumption|lia].
  - destruct (read_date D_M_Y token) as [dt|] eqn:E2.
    + intros Hy. eapply read_date_iso; eassumption.
    + reflexivity.
Qed.

Lemma convert_date_format_spec_witness :
  (1000 <= 2025)%Z
  /\ is_iso_of (mkdate 2025 3 1) (convert_date_format «"01/03/2025"»).
Proof.
  assert (H : (1000 <= 2025)%Z) by (vm_compute; discriminate).
  split; [exact H|].
  exact (convert_date_format_spec «"01/03/2025"» H).
Defined.

(** The fixed-width tokens are among the tokens read: their day is the
    one of the calendar check. *)
Lemma fixed_width_read f d1 d2 s1 m1 m2 s2 Y :
  fixed_width f (d1 :: d2 :: s1 :: m1 :: m2 :: s2 :: Y) = true ->
  read_date f (d1 :: d2 :: s1 :: m1 :: m2 :: s2 :: Y) =
  check_date_fields (found_year f (digits_val Y))
                    (digits_val [m1; m2]) (digits_val [d1; d2]).
Proof.
  simpl. rewrite !andb_true_iff.
  intros ((((((H1 & H2) & E1) & H3) & H4) & E2) & HY).
  apply Ascii.eqb_eq in E1, E2. subst s1 s2.
  assert (HYd : all_digits Y).
  { unfold year_shape in HY. apply andb_true_iff in HY. destruct HY as [HY _].
    apply Forall_forall. now apply forallb_forall. }
  assert (NY : ~ In "/"%char Y).
  { intros Hin. assert (Hd : is_digit "/" = true); [|discriminate Hd].
    revert Hin. generalize "/"%char. now apply Forall_forall. }
  unfold read_date.
  change (d1 :: d2 :: "/"%char :: m1 :: m2 :: "/"%char :: Y)
    with ([d1; d2] ++ "/"%char :: [m1; m2] ++ "/"%char :: Y).
  rewrite (split_on_app "/" [d1; d2]), (split_on_app "/" [m1; m2]),
    split_on_single; auto.
  2:{ simpl. intros [E|[E|[]]]; subst; discriminate. }
  2:{ simpl. intros [E|[E|[]]]; subst; discriminate. }
  simpl day_shape. simpl month_shape. rewrite H1, H2, H3, H4, HY. simpl.
  unfold int_of_str. rewrite !strip_no_space; auto.
  - repeat constructor; auto using digit_not_space.
  - repeat constructor; auto using digit_not_space.
  - eapply Forall_impl; [|exact HYd]. apply digit_not_space.
Qed.

Example convert_date_format_examples :
  map (fun t => convert_date_format (list_ascii_of_string t))
      ["01/03/25"; "01/03/2025"; "29/02/24"; "01/03/69"; " 1/3/25";
       "31/02/25"; "29/02/2023"; "01-03-25"; "01/13/25"; "01/03/250"]%string
  = map list_ascii_of_string
      ["2025-03-01"; "2025-03-01"; "2024-02-29"; "1969-03-01"; "2025-03-01";
       "31/02/25"; "29/02/2023"; "01-03-25"; "01/13/25"; "01/03/250"]%string.
Proof. vm_compute. reflexivity. Qed.

(** C2, as stated, fails: "1/3/25" has neither fixed-width form, and is
    not returned unchanged. *)
Lemma one_digit_date_counterexample :
  ~ (forall token,
       fixed_width D_M_y token = false -> fixed_width D_M_Y token = false ->
       convert_date_format token = token).
Proof.
  intros H. specialize (H «"1/3/25"» eq_refl eq_refl).
  vm_compute in H. discriminate H.
Qed.

(** ** Header Extractor *)

Lemma search_group_strip r text mo i :
  re_search r text = Some mo -> sets i r = true ->
  exists g, group_strip i mo = Some g.
Proof.
  intros H Hs. destruct (re_search_group_set _ _ _ _ H Hs) as (g & Hg).
  unfold group_strip. rewrite Hg. simpl. eauto.
Qed.

Lemma account_info_shape (text : str) :
  exists holder number type_ start_date end_date,
    account_info_of text =
      [("bank", VStr «"Islami Bank Bangladesh PLC."»);
       ("account_holder", holder);
       ("account_number", number);
       ("account_type", type_);
       ("statement_period",
        VDict [("start_date", start_date); ("end_date", end_date)])]%string
    /\ nullable_str holder /\ nullable_str number /\ nullable_str type_
    /\ nullable_str start_date /\ nullable_str end_date.
Proof.
  unfold account_info_of, account_info_block, nullable_str.
  destruct (re_search holder_pattern text) as [m1|] eqn:E1.
  1: destruct (search_group_strip _ _ _ 1 E1 eq_refl) as (g1 & ->).
  all: destruct (re_search account_no_pattern text) as [m2|] eqn:E2.
  all: try destruct (re_search_group_set _ _ _ 1 E2 eq_refl) as (g2 & ->).
  all: destruct (re_search account_type_pattern text) as [m3|] eqn:E3.
  all: try destruct (search_group_strip _ _ _ 1 E3 eq_refl) as (g3 & ->).
  all: destruct (re_search period_pattern text) as [m4|] eqn:E4.
  all: try destruct (search_group_strip _ _ _ 1 E4 eq_refl) as (g4 & ->).
  all: try destruct (search_group_strip _ _ _ 2 E4 eq_refl) as (g5 & ->).
  all: simpl; do 5 eexists; (split; [reflexivity|]); repeat split; eauto.
Qed.

(** ** Transaction Line Parser: the loop *)

Lemma transaction_step_spec acc line :
  transaction_step acc line =
  acc ++ (if skip_line line then [] else record_of_line line).
Proof.
  unfold transaction_step, record_of_line.
  destruct (skip_line line); [now rewrite app_nil_r|].
  destruct (re_match transaction_pattern (strip line)) as [mo|];
    [|now rewrite app_nil_r].
  destruct (transaction_record mo); [reflexivity|now rewrite app_nil_r].
Qed.

Lemma fold_transaction_step lines : forall acc,
  fold_left transaction_step lines acc =
  acc ++ flat_map record_of_line
           (filter (fun line => negb (skip_line line)) lines).
Proof.
  induction lines as [|l lines IH]; intros acc; simpl.
  - now rewrite app_nil_r.
  - rewrite IH, transaction_step_spec.
    destruct (skip_line l); simpl; now rewrite <- app_assoc.
Qed.

Lemma transactions_of_spec text :
  transactions_of text = flat_map record_of_line (retained_lines text).
Proof. unfold transactions_of. now rewrite fold_transaction_step. Qed.

Lemma record_of_line_length line : List.length (record_of_line line) <= 1.
Proof.
  unfold record_of_line.
  destruct (re_match transaction_pattern (strip line)); simpl; auto.
  destruct (transaction_record m0); simpl; auto.
Qed.

Lemma flat_map_length_le lines :
  List.length (flat_map record_of_line lines) <= List.length lines.
Proof.
  induction lines as [|l lines IH]; simpl; auto.
  rewrite length_app. pose proof (record_of_line_length l). lia.
Qed.

(** ** Transaction Line Parser: the records *)

Lemma record_of_line_inv t line :
  In t (record_of_line line) ->
  exists mo rc,
    re_match transaction_pattern (strip line) = Some mo
    /\ transaction_record mo = Some rc /\ t = VDict rc.
Proof.
  unfold record_of_line.
  destruct (re_match transaction_pattern (strip line)) as [mo|]; [|intros []].
  destruct (transaction_record mo) as [rc|] eqn:E; [|intros []].
  intros [<-|[]]. exists mo, rc. auto.
Qed.

Lemma transactions_of_inv t text :
  In t (transactions_of text) ->
  exists line mo rc,
    In line (retained_lines text)
    /\ re_match transaction_pattern (strip line) = Some mo
    /\ transaction_record mo = Some rc /\ t = VDict rc.
Proof.
  rewrite transactions_of_spec, in_flat_map. intros (line & Hl & Ht).
  apply record_of_line_inv in Ht. destruct Ht as (mo & rc & ? & ? & ?). eauto 8.
Qed.

Lemma bind_some {A B} (x : option A) (f : A -> option B) y :
  bind x f = Some y -> exists a, x = Some a /\ f a = Some y.
Proof. destruct x; simpl; [eauto|discriminate]. Qed.

Lemma transaction_record_inv mo rc :
  transaction_record mo = Some rc ->
  exists td pd ds w dp bl,
    group 1 mo = Some td /\ group 2 mo = Some pd /\ group 3 mo = Some ds
    /\ float_or_zero (remove_commas (strip (or_zero (group 5 mo)))) = Some w
    /\ float_or_zero (remove_commas (strip (or_zero (group 6 mo)))) = Some dp
    /\ float_or_zero (remove_commas (strip (or_zero (group 7 mo)))) = Some bl
    /\ rc = [("date", VStr (convert_date_format td));
             ("post_date", VStr (convert_date_format pd));
             ("description", VStr (strip ds));
             ("reference", match group 4 mo with
                           | Some (a :: r) => VStr (strip (a :: r))
                           | _ => VNone
                           end);
             ("withdrawal", VNum w);
             ("deposit", VNum dp);
             ("balance", VNum bl)]%string.
Proof.
  unfold transaction_record. intros H.
  apply bind_some in H. destruct H as (td & E1 & H).
  apply bind_some in H. destruct H as (pd & E2 & H).
  apply bind_some in H. destruct H as (ds & E3 & H).
  apply bind_some in H. destruct H as (w & E4 & H).
  apply bind_some in H. destruct H as (dp & E5 & H).
  apply bind_some in H. destruct H as (bl & E6 & H).
  injection H as <-. exists td, pd, ds, w, dp, bl. repeat split; assumption.
Qed.

(** *** Amounts are not negative *)

Lemma digits_val_nonneg u : forall acc,
  Forall (fun a => is_digit a = true) u -> (0 <= acc)%Z ->
  (0 <= fold_left (fun acc a => 10 * acc + digit_val a)%Z u acc)%Z.
Proof.
  induction u as [|a u IH]; intros acc H Hacc; cbn [fold_left]; auto.
  inversion H; subst. apply IH; auto.
  assert (0 <= digit_val a)%Z by (apply digit_val_nonneg; assumption). lia.
Qed.

Lemma decimal_nonneg n k : (0 <= n)%Z -> (0 <= decimal n k)%Q.
Proof.
  intros H. unfold decimal.
  apply Qle_trans with (Qmake n (Pos.pow 10 (Pos.of_nat k))).
  - unfold Qle. cbn [Qnum Qden]. lia.
  - apply Qle_lteq. right. symmetry. apply Qred_correct.
Qed.

Lemma float_unsigned_nonneg s q : float_unsigned s = Some q -> (0 <= q)%Q.
Proof.
  unfold float_unsigned. destruct (split_dot s) as [i f].
  destruct (forallb is_digit _) eqn:E; cbn [andb]; [|discriminate].
  destruct (negb _); [|discriminate]. intros H. injection H as <-.
  apply decimal_nonneg, digits_val_nonneg; [|lia].
  apply Forall_forall. now apply forallb_forall.
Qed.

Lemma float_nonneg s q :
  Forall no_minus s -> float s = Some q -> (0 <= q)%Q.
Proof.
  intros H. apply strip_Forall in H. unfold float.
  destruct (strip s) as [|a t]; [discriminate|].
  inversion H as [|? ? Ha _]; subst.
  destruct (Ascii.eqb a "-") eqn:E.
  - apply Ascii.eqb_eq in E. contradiction.
  - destruct (Ascii.eqb a "+"); apply float_unsigned_nonneg.
Qed.

Lemma remove_commas_Forall (P : ascii -> Prop) s :
  Forall P s -> Forall P (remove_commas s).
Proof.
  intros H. apply Forall_forall. intros a Ha.
  apply filter_In in Ha. destruct Ha as [Ha _].
  revert a Ha. now apply Forall_forall.
Qed.

Lemma float_or_zero_nonneg o q :
  (forall g, o = Some g -> Forall no_minus g) ->
  float_or_zero (remove_commas (strip (or_zero o))) = Some q -> (0 <= q)%Q.
Proof.
  intros Ho. unfold float_or_zero.
  destruct (is_empty _).
  - intros H. injection H as <-. discriminate.
  - apply float_nonneg, remove_commas_Forall, strip_Forall.
    destruct o as [[|a g]|]; simpl.
    + repeat constructor; discriminate.
    + now apply Ho.
    + repeat constructor; discriminate.
Qed.

Lemma amount_or_zero_no_minus : alpha no_minus amount_or_zero.
Proof.
  cbv [amount_or_zero amount rep_range rep upto opt plus lit d alpha no_minus].
  repeat split; intros a H ->; vm_compute in H; discriminate.
Qed.

Lemma amount_group_no_minus s mo i g :
  re_match transaction_pattern s = Some mo ->
  (i = 5 \/ i = 6) -> group i mo = Some g -> Forall no_minus g.
Proof.
  intros H Hi Hg. apply re_match_sound in H. destruct H as (w & b' & Hm).
  destruct (mt_group_origin i _ _ _ _ _ _ _ _ Hm g Hg)
    as [Hc|(r0 & b1 & s1 & c1 & b2 & s2 & c2 & Hin & Hr)]; [discriminate|].
  assert (r0 = amount_or_zero) as ->.
  { destruct Hi as [->| ->]; simpl in Hin; intuition. }
  eapply mt_alpha; [exact Hr|apply amount_or_zero_no_minus].
Qed.

(** *** The reference group *)

Lemma amount_alpha : alpha amount_char amount.
Proof.
  cbv [amount rep_range rep upto opt plus lit d alpha amount_char].
  repeat split; intros a H; simpl in H; auto;
    apply Ascii.eqb_eq in H; auto.
Qed.

Lemma alnum_amount_char a :
  cc_in alnum a = true -> amount_char a -> is_digit a = true.
Proof.
  intros H [Hd|[->| ->]]; auto; vm_compute in H; discriminate.
Qed.

Lemma alnum_not_space a : cc_in alnum a = true -> is_space a = false.
Proof. each_ascii a. Qed.

Lemma amount_has_point b s c w b' s' c' :
  mt amount b s c w b' s' c' -> In "."%char w.
Proof.
  intros H. unfold amount in H.
  apply mt_seq_inv in H. destruct H as (w1 & b1 & s1 & c1 & w2 & _ & H & ->).
  apply mt_seq_inv in H. destruct H as (w3 & b3 & s3 & c3 & w4 & _ & H & ->).
  apply mt_seq_inv in H. destruct H as (w5 & b5 & s5 & c5 & w6 & H & _ & ->).
  cbv [lit] in H. inv_mt.
  match goal with H : cc_in (Lit _) ?a = true |- _ =>
    simpl in H; apply Ascii.eqb_eq in H; subst end.
  rewrite !in_app_iff. simpl. tauto.
Qed.

(** A run of letters and digits that begins a text beginning with a word
    holding another character is a prefix of that word. *)
Lemma alnum_prefix : forall (g wl u v : str),
  g ++ u = wl ++ v ->
  Forall (fun a => cc_in alnum a = true) g ->
  (exists x, In x wl /\ cc_in alnum x = false) ->
  exists t, wl = g ++ t.
Proof.
  induction g as [|a g IH]; intros wl u v E Hg (x & Hx & Hn).
  - now exists wl.
  - destruct wl as [|a' wl]; [destruct Hx|].
    simpl in E. injection E as -> E. inversion Hg; subst.
    destruct Hx as [->|Hx]; [congruence|].
    destruct (IH wl u v E) as (t & ->); eauto.
    now exists t.
Qed.

Lemma reference_digits b s c g b' s' c' wl b2 s2 c2 b3 c3 :
  mt (plus true (Chr alnum)) b s c g b' s' c' ->
  mt (Alt amount (Alt (lit "0.00") (plus true ws +++ amount)))
     b3 s c3 wl b2 s2 c2 ->
  g <> [] /\ Forall (fun a => is_digit a = true) g.
Proof.
  intros Hg Hl.
  pose proof (mt_app _ _ _ _ _ _ _ _ Hg) as Eg.
  pose proof (mt_app _ _ _ _ _ _ _ _ Hl) as El.
  assert (Hal : Forall (fun a => cc_in alnum a = true) g /\ g <> []).
  { unfold plus in Hg. apply mt_seq_inv in Hg.
    destruct Hg as (w1 & b1 & s1 & c1 & w2 & H1 & H2 & ->).
    inv H1. apply mt_star_chr in H2. destruct H2 as [_ H2].
    split; [constructor; assumption|discriminate]. }
  destruct Hal as [Hal Hne]. split; [assumption|].
  assert (Hcases : (Forall amount_char wl /\ In "."%char wl)
                   \/ exists a t, wl = a :: t /\ is_space a = true).
  { inv Hl; [left|].
    - split; [eapply mt_alpha; [eassumption|apply amount_alpha]
             |eapply amount_has_point; eassumption].
    - match goal with H : mt (Alt _ _) _ _ _ _ _ _ _ |- _ => inv H end.
      + left. cbv [lit] in *. inv_mt.
        repeat match goal with H : cc_in (Lit _) ?a = true |- _ =>
          simpl in H; apply Ascii.eqb_eq in H; subst end.
        simpl. split; [|tauto].
        repeat apply Forall_cons; try apply Forall_nil; unfold amount_char;
          first [left; reflexivity | right; right; reflexivity].
      + right. unfold plus, ws in *.
        match goal with H : mt (Seq _ _) _ _ _ _ _ _ _ |- _ =>
          apply mt_seq_inv in H;
          destruct H as (w1 & b1 & s1 & c1 & w2 & H1 & _ & ->) end.
        apply mt_seq_inv in H1.
        destruct H1 as (w3 & b4 & s4 & c4 & w4 & H1 & _ & ->).
        inv H1. simpl. eauto. }
  destruct Hcases as [[Hchars Hpt]|(a & t & -> & Hsp)].
  - destruct (alnum_prefix g wl s' s2) as (t & ->); auto.
    { rewrite <- Eg, <- El. reflexivity. }
    { exists "."%char. split; [assumption|reflexivity]. }
    apply Forall_app in Hchars. destruct Hchars as [Hchars _].
    apply Forall_forall. intros a Ha.
    apply alnum_amount_char.
    + revert a Ha. now apply Forall_forall.
    + revert a Ha. now apply Forall_forall.
  - destruct g as [|a' g]; [congruence|].
    rewrite Eg in El. simpl in El. injection El as -> _.
    inversion Hal; subst.
    match goal with H : cc_in alnum a = true |- _ =>
      apply alnum_not_space in H; congruence end.
Qed.

Lemma transaction_reference s w b' s' c' :
  mt transaction_pattern true s no_caps w b' s' c' ->
  c' 4 = None
  \/ exists g, c' 4 = Some g /\ g <> [] /\ Forall (fun a => is_digit a = true) g.
Proof.
  intros H. unfold transaction_pattern in H.
  peel H P1. peel H P2. peel H P3. peel H P4. peel H P5. peel H P6.
  peel H PA. peel H PG.
  apply (mt_caps_frame 4) in P1; [|reflexivity].
  apply (mt_caps_frame 4) in P2; [|reflexivity].
  apply (mt_caps_frame 4) in P3; [|reflexivity].
  apply (mt_caps_frame 4) in P4; [|reflexivity].
  apply (mt_caps_frame 4) in P5; [|reflexivity].
  apply (mt_caps_frame 4) in P6; [|reflexivity].
  apply (mt_caps_frame 4) in H; [|reflexivity].
  inv PA.
  match goal with HL : mt (Alt amount _) _ _ _ _ _ _ _ |- _ =>
    pose proof (mt_caps_frame 4 _ _ _ _ _ _ _ _ HL eq_refl) as FL end.
  inv PG.
  - match goal with HG : mt (Group 4 _) _ _ _ _ _ _ _ |- _ => inv HG end.
    right. eexists. split.
    + rewrite H. unfold upd. simpl. reflexivity.
    + eapply reference_digits; eassumption.
  - match goal with HE : mt Eps _ _ _ _ _ _ _ |- _ => inv HE end.
    left. rewrite H, FL, P6, P5, P4, P3, P2, P1. reflexivity.
Qed.

Lemma reference_value s mo :
  re_match transaction_pattern s = Some mo ->
  match group 4 mo with
  | Some (a :: r) => VStr (strip (a :: r))
  | _ => VNone
  end = VNone
  \/ exists g,
       match group 4 mo with
       | Some (a :: r) => VStr (strip (a :: r))
       | _ => VNone
       end = VStr g
       /\ g <> [] /\ Forall (fun a => is_digit a = true) g.
Proof.
  intros H. apply re_match_sound in H. destruct H as (w & b' & Hm).
  apply transaction_reference in Hm. unfold group.
  destruct Hm as [->|(g & -> & Hne & Hd)]; [now left|].
  destruct g as [|a r]; [congruence|]. right. exists (a :: r).
  rewrite strip_no_space; auto.
  eapply Forall_impl; [|exact Hd]. apply digit_not_space.
Qed.

(** *** Skipped lines, order and amounts *)

Lemma contains_app mk : forall u v, contains mk (u ++ mk ++ v) = true.
Proof.
  assert (Hs : forall v, starts_with mk (mk ++ v) = true).
  { induction mk as [|a mk IH]; intros v; simpl; auto.
    now rewrite Ascii.eqb_refl, IH. }
  induction u as [|a u IH]; intros v.
  - simpl app. destruct (mk ++ v) eqn:E; simpl; rewrite <- E, Hs; reflexivity.
  - simpl. rewrite IH. apply orb_true_r.
Qed.

Lemma strip_blank line :
  Forall (fun a => is_space a = true) line -> strip line = [].
Proof.
  intros H. unfold strip.
  assert (E : lstrip line = []).
  { induction H as [|a l Ha _ IH]; simpl; auto. now rewrite Ha. }
  now rewrite E.
Qed.

Lemma non_transaction_line_skipped line :
  non_transaction_line line -> skip_line line = true.
Proof.
  unfold skip_line. intros [Hb|(mk & u & v & Hin & ->)].
  - rewrite (strip_blank _ Hb). simpl. apply orb_true_r.
  - simpl in Hin.
    destruct Hin as [<-|[<-|[<-|[<-|[<-|[]]]]]];
      rewrite contains_app; simpl; rewrite ?orb_true_r; reflexivity.
Qed.

(** C9.  A line that is blank or holds one of the markers leaves the list
    of transactions as it was, whatever the transaction pattern would
    make of it, and taking it out of the lines changes nothing; the
    header line "Trans Date Post Date Particulars" gives no transaction,
    and a brought-forward line is skipped although the pattern matches. *)
Theorem marker_lines_yield_no_transaction
    (before after : list str) (line : str) (transactions : list value) :
  non_transaction_line line ->
  transaction_step transactions line = transactions
  /\ fold_left transaction_step (before ++ line :: after) [] =
     fold_left transaction_step (before ++ after) []
  /\ transactions_of «"Trans Date Post Date Particulars"» = []
  /\ (re_match transaction_pattern
        «"01/03/25 02/03/25 B/F 0.00 0.00 5,000.00"» <> None
      /\ transactions_of «"01/03/25 02/03/25 B/F 0.00 0.00 5,000.00"» = []).
Proof.
  intros H. apply non_transaction_line_skipped in H.
  split; [|split; [|split; [|split]]].
  - unfold transaction_step. now rewrite H.
  - rewrite !fold_transaction_step, !filter_app. simpl. now rewrite H.
  - vm_compute. reflexivity.
  - vm_compute. discriminate.
  - vm_compute. reflexivity.
Qed.

Lemma marker_lines_yield_no_transaction_witness :
  non_transaction_line «"Trans Date Post Date Particulars"»
  /\ transaction_step [] «"Trans Date Post Date Particulars"» = [].
Proof.
  assert (H : non_transaction_line «"Trans Date Post Date Particulars"»).
  { right. exists «"Trans Date"», [], «" Post Date Particulars"».
    split; [simpl; tauto|reflexivity]. }
  split; [exact H|].
  exact (proj1 (marker_lines_yield_no_transaction [] []
                  «"Trans Date Post Date Particulars"» [] H)).
Defined.

(** C7.  The transactions are the records of the retained lines, taken in
    the order of the lines, each line giving one record at most; so there
    are no more records than retained lines, and every record holds a
    withdrawal and a deposit that are not negative. *)
Theorem transactions_follow_retained_lines (text : str) :
  transactions_of text = flat_map record_of_line (retained_lines text)
  /\ Forall (fun line => List.length (record_of_line line) <= 1)
            (retained_lines text)
  /\ List.length (transactions_of text) <= List.length (retained_lines text)
  /\ Forall (fun t =>
               exists w dp,
                 get "withdrawal" t = Some (VNum w)
                 /\ get "deposit" t = Some (VNum dp)
                 /\ (0 <= w)%Q /\ (0 <= dp)%Q)
            (transactions_of text).
Proof.
  split; [apply transactions_of_spec|]. split; [|split].
  - apply Forall_forall. intros line _. apply record_of_line_length.
  - rewrite transactions_of_spec. apply flat_map_length_le.
  - apply Forall_forall. intros t Ht.
    apply transactions_of_inv in Ht.
    destruct Ht as (line & mo & rc & _ & Hm & Hr & ->).
    apply transaction_record_inv in Hr.
    destruct Hr as (td & pd & ds & w & dp & bl & _ & _ & _ & Hw & Hd & _ & ->).
    exists w, dp. repeat split.
    + eapply float_or_zero_nonneg; [|exact Hw].
      intros g Hg. apply (amount_group_no_minus _ mo 5 g Hm); auto.
    + eapply float_or_zero_nonneg; [|exact Hd].
      intros g Hg. apply (amount_group_no_minus _ mo 6 g Hm); auto.
Qed.

(** C10.  In every record the reference is null or a nonempty string of
    decimal digits: the lookahead leaves the reference group at the start
    of an amount, so that a token such as CHQ123 stays in the description
    and is never the reference. *)
Theorem reference_is_null_or_digits (text : str) :
  Forall (fun t =>
            get "reference" t = Some VNone
            \/ exists g, get "reference" t = Some (VStr g)
                         /\ g <> [] /\ all_digits g)
         (transactions_of text)
  /\ exists t,
       transactions_of
         «"01/03/25 02/03/25 Cash CHQ123 0.00 1,000.00 5,000.00"» = [t]
       /\ get "description" t = Some (VStr «"Cash CHQ123"»)
       /\ get "reference" t = Some VNone.
Proof.
  split.
  - apply Forall_forall. intros t Ht.
    apply transactions_of_inv in Ht.
    destruct Ht as (line & mo & rc & _ & Hm & Hr & ->).
    apply transaction_record_inv in Hr.
    destruct Hr as (td & pd & ds & w & dp & bl & _ & _ & _ & _ & _ & _ & ->).
    destruct (reference_value _ _ Hm) as [E|(g & E & Hne & Hd)].
    + left. simpl. now rewrite E.
    + right. exists g. simpl. rewrite E. auto.
  - eexists. split; [vm_compute; reflexivity|]. split; reflexivity.
Qed.

(** C1.  The line with two amounts separated by single blanks is retained
    by the loop, but the transaction pattern does not match it: after the
    numeric section begins, the pattern asks for a run of blanks after
    each of the two optional amounts, and the line has only one.  No
    record is produced.  With one more blank before the first amount the
    record of the claim comes out, the amount 1,000.00 being the
    deposit. *)
Theorem cash_deposit_line_gives_no_record :
  retained_lines cash_deposit_line = [cash_deposit_line]
  /\ re_match transaction_pattern (strip cash_deposit_line) = None
  /\ transactions_of cash_deposit_line = []
  /\ transactions_of «"01/03/25 02/03/25 Cash Deposit  1,000.00 5,000.00"» =
     [VDict [("date", VStr «"2025-03-01"»);
             ("post_date", VStr «"2025-03-02"»);
             ("description", VStr «"Cash Deposit"»);
             ("reference", VNone);
             ("withdrawal", VNum 0);
             ("deposit", VNum 1000);
             ("balance", VNum 5000)]]%string.
Proof. repeat split; vm_compute; reflexivity. Qed.

(** With three amounts on the line the record has them in the order of
    the pattern; and when the first amount begins with two digits, the
    optional reference group, tried first, keeps the first digit and the
    withdrawal is read from the second one on. *)
Example three_amounts_line :
  transactions_of «"01/03/25 02/03/25 Cash Deposit 0.00 1,000.00 5,000.00"» =
  [VDict [("date", VStr «"2025-03-01"»);
          ("post_date", VStr «"2025-03-02"»);
          ("description", VStr «"Cash Deposit"»);
          ("reference", VNone);
          ("withdrawal", VNum 0);
          ("deposit", VNum 1000);
          ("balance", VNum 5000)]]%string.
Proof. vm_compute. reflexivity. Qed.

Example reference_takes_a_leading_digit :
  transactions_of «"01/03/25 02/03/25 ATM 12,345.00 0.00 5,000.00"» =
  [VDict [("date", VStr «"2025-03-01"»);
          ("post_date", VStr «"2025-03-02"»);
          ("description", VStr «"ATM"»);
          ("reference", VStr «"1"»);
          ("withdrawal", VNum 2345);
          ("deposit", VNum 0);
          ("balance", VNum 5000)]]%string.
Proof. vm_compute. reflexivity. Qed.

(** ** The matcher finds a match when there is one

    The backtracking matcher tries the derivations of [mt] in the order
    of the priorities; when what remains to be matched does not look at
    the captures, it fails only when there is no derivation. *)

Lemma orelse_none {R} (x y : option R) :
  orelse x y = None <-> x = None /\ y = None.
Proof.
  destruct x; simpl; split; intros H; auto; try discriminate; tauto.
Qed.

Lemma star_loop_uniform {R} body g (k : cont R) :
  (forall b p s c1 c2 (k' : cont R),
     uniform k' -> body b p s c1 k' = None -> body b p s c2 k' = None) ->
  uniform k ->
  forall n, uniform (fun b p s c => star_loop body g k n b p s c).
Proof.
  intros Hbody Hk n. induction n as [|n IH]; intros b p s c1 c2 H.
  - simpl in *. destruct g; rewrite ?orelse_none in *; simpl in *;
      rewrite ?orelse_none_r in *; intuition eauto.
  - simpl in *.
    assert (HK : uniform (fun b' p' s' c' =>
                            if p <? p' then star_loop body g k n b' p' s' c'
                            else k b' p' s' c')).
    { intros b' p' s' c3 c4. destruct (p <? p'); [apply IH|apply Hk]. }
    destruct g; rewrite orelse_none in *; destruct H as [H1 H2]; split;
      eauto.
Qed.

Lemma m_uniform r : forall R b p s c1 c2 (k : cont R),
  uniform k -> m r R b p s c1 k = None -> m r R b p s c2 k = None.
Proof.
  induction r; intros R b p s c1 c2 k Hk H; cbn [m] in *.
  - eauto.
  - destruct s as [|a s]; auto. destruct (cc_in _ a); eauto.
  - eapply IHr1; [|exact H]. intros b' p' s' c3 c4. now apply IHr2.
  - rewrite orelse_none in *. destruct H. split; eauto.
  - revert H. apply (star_loop_uniform (m r R) _ k); auto. intros; eapply IHr; eauto.
  - eapply IHr; [|exact H]. intros b' p' s' c3 c4. apply Hk.
  - destruct (m r caps b p s c1 (fun _ _ _ c' => Some c')) as [c3|] eqn:E1.
    + destruct (m r caps b p s c2 (fun _ _ _ c' => Some c')); eauto.
    + erewrite IHr; [reflexivity| |exact E1]. intros ? ? ? ? ?. discriminate.
  - destruct b; eauto.
Qed.

Lemma mt_nil_pos r b s c w b' s' c' :
  mt r b s c w b' s' c' -> w = [] -> b' = b /\ s' = s.
Proof.
  induction 1; intros E; auto; try discriminate.
  - apply app_eq_nil in E. destruct E as [E1 E2].
    destruct (IHmt1 E1) as [-> ->]. auto.
  - apply app_eq_nil in E. destruct E as [E1 E2].
    destruct (IHmt1 E1) as [-> ->]. auto.
Qed.

Lemma uniform_live {R} (k : cont R) b p s c1 c2 :
  uniform k -> k b p s c1 <> None -> k b p s c2 <> None.
Proof. intros Hk H E. apply H. revert E. apply Hk. Qed.

Theorem m_complete r b s c w b' s' c' :
  mt r b s c w b' s' c' ->
  forall R (k : cont R) p c0 c1,
    uniform k -> k b' (p + List.length w) s' c1 <> None ->
    m r R b p s c0 k <> None.
Proof.
  induction 1; intros R k p c0 c1' Hk Hl; cbn [m].
  - rewrite Nat.add_0_r in Hl. eapply uniform_live; eauto.
  - rewrite H. simpl in Hl. rewrite Nat.add_1_r in Hl.
    eapply uniform_live; eauto.
  - eapply (IHmt1 R _ p c0 c1).
    + intros b' p' s' c3 c4. now apply m_uniform.
    + eapply IHmt2; [exact Hk|].
      rewrite length_app, Nat.add_assoc in Hl. exact Hl.
  - intros E. apply orelse_none in E. destruct E as [E _]. revert E.
    eapply IHmt; eauto.
  - intros E. apply orelse_none in E. destruct E as [_ E]. revert E.
    eapply IHmt; eauto.
  - rewrite Nat.add_0_r in Hl. simpl.
    assert (Hc : k b p s c0 <> None) by (eapply uniform_live; eauto).
    destruct g; intros E; apply orelse_none in E; tauto.
  - destruct w1 as [|a w1].
    + destruct (mt_nil_pos _ _ _ _ _ _ _ _ H eq_refl) as [-> ->].
      simpl in Hl. apply (IHmt2 R k p c0 c1' Hk Hl).
    + assert (Es : s = (a :: w1) ++ s1) by (eapply mt_app; eauto).
      assert (Hagain :
                m r R b p s c0
                  (fun b' p' s' c' =>
                     if p <? p'
                     then star_loop (m r R) g k (List.length s) b' p' s' c'
                     else k b' p' s' c') <> None).
      { eapply (IHmt1 R _ p c0 c1).
        - intros b' p' s' c3 c4. destruct (p <? p').
          + apply (star_loop_uniform (m r R) g k); auto.
            intros; eapply m_uniform; eauto.
          + apply Hk.
        - assert (Hp : (p <? p + List.length (a :: w1)) = true)
            by (apply Nat.ltb_lt; simpl; lia).
          rewrite Hp.
          rewrite (star_loop_fuel r R g k (List.length s)
                     (S (List.length s1))).
          + apply (IHmt2 R k (p + List.length (a :: w1)) c1 c1' Hk).
            rewrite length_app, Nat.add_assoc in Hl. exact Hl.
          + rewrite Es, length_app. simpl. lia.
          + lia. }
      simpl. destruct g; intros E; apply orelse_none in E; tauto.
  - eapply (IHmt R _ p c0 c1').
    + intros b1 p1 s1 c3 c4. apply Hk.
    + cbv beta. eapply uniform_live; eauto.
  - destruct (m r caps b p s c0 (fun _ _ _ c'0 => Some c'0)) as [c2|] eqn:E.
    + rewrite Nat.add_0_r in Hl. eapply uniform_live; eauto.
    + exfalso. revert E. eapply (IHmt caps _ p c0 c').
      * intros ? ? ? ? ?. discriminate.
      * discriminate.
  - rewrite Nat.add_0_r in Hl. eapply uniform_live; eauto.
Qed.

Lemma accept_uniform : uniform accept.
Proof. intros b p s c1 c2. discriminate. Qed.

Lemma re_match_complete r s w b' s' c' :
  mt r true s no_caps w b' s' c' -> exists mo, re_match r s = Some mo.
Proof.
  intros H. unfold re_match.
  destruct (m r match_obj true 0 s no_caps accept) as [mo|] eqn:E; [eauto|].
  exfalso. revert E.
  eapply (m_complete _ _ _ _ _ _ _ _ H match_obj accept 0 no_caps c');
    [apply accept_uniform|discriminate].
Qed.

Lemma search_from_complete r w b' s' c' : forall pre b s0,
  mt r (bol_after b pre) s0 no_caps w b' s' c' ->
  exists mo, search_from r b (pre ++ s0) = Some mo.
Proof.
  induction pre as [|a pre IH]; intros b s0 H.
  - simpl in H. simpl app.
    assert (Hm : m r match_obj b 0 s0 no_caps accept <> None).
    { eapply (m_complete _ _ _ _ _ _ _ _ H match_obj accept 0 no_caps c');
        [apply accept_uniform|discriminate]. }
    destruct s0; simpl;
      destruct (m r match_obj b 0 _ no_caps accept); [eauto|tauto|eauto|tauto].
  - simpl. destruct (m r match_obj b 0 _ no_caps accept); [eauto|].
    apply IH. exact H.
Qed.

(** ** Totals Extractor *)

Lemma remove_commas_app u v :
  remove_commas (u ++ v) = remove_commas u ++ remove_commas v.
Proof. apply filter_app. Qed.

Lemma remove_commas_digits u :
  Forall (fun a => cc_in (Union Digit (Lit ","%char)) a = true) u ->
  Forall (fun a => is_digit a = true) (remove_commas u).
Proof.
  induction 1 as [|a u Ha _ IH]; simpl; auto.
  destruct (Ascii.eqb a ",") eqn:E; simpl; auto.
  constructor; auto. simpl in Ha. rewrite E, orb_false_r in Ha. exact Ha.
Qed.

(** The shape of a number of the TOTAL line. *)
Lemma total_number_shape b s c w b' s' c' :
  mt total_number b s c w b' s' c' ->
  exists u a1 a2,
    w = u ++ ["."%char; a1; a2]
    /\ Forall (fun a => cc_in (Union Digit (Lit ","%char)) a = true) u
    /\ is_digit a1 = true /\ is_digit a2 = true.
Proof.
  intros H. cbv [total_number plus lit rep d] in H. inv_mt.
  match goal with H : mt (Star _ _) _ _ _ _ _ _ _ |- _ =>
    apply mt_star_chr in H; destruct H as [_ HF] end.
  match goal with H : cc_in (Lit _) ?a = true |- _ =>
    simpl in H; apply Ascii.eqb_eq in H; subst end.
  eexists (_ :: _), _, _. simpl. split; [reflexivity|].
  repeat split; auto.
Qed.

Lemma total_number_float b s c w b' s' c' :
  mt total_number b s c w b' s' c' ->
  exists q, float (remove_commas w) = Some q.
Proof.
  intros H. apply total_number_shape in H.
  destruct H as (u & a1 & a2 & -> & Hu & H1 & H2).
  rewrite remove_commas_app.
  assert (E : remove_commas ["."%char; a1; a2] = ["."%char; a1; a2]).
  { unfold remove_commas. simpl.
    now rewrite (digit_not_comma a1), (digit_not_comma a2). }
  rewrite E. apply float_decimal; auto using remove_commas_digits.
Qed.

Lemma total_group_float text mo i :
  re_search total_pattern text = Some mo ->
  (i = 1 \/ i = 2 \/ i = 3) ->
  exists g q, group i mo = Some g /\ float (remove_commas g) = Some q.
Proof.
  intros H Hi.
  assert (Hs : sets i total_pattern = true)
    by (destruct Hi as [->|[->| ->]]; reflexivity).
  destruct (re_search_group_set _ _ _ _ H Hs) as (g & Hg).
  apply search_from_sound in H. destruct H as (b0 & s0 & w & b' & Hm).
  destruct (mt_group_origin i _ _ _ _ _ _ _ _ Hm g Hg)
    as [Hc|(r0 & b1 & s1 & c1 & b2 & s2 & c2 & Hin & Hr)]; [discriminate|].
  assert (r0 = total_number) as ->.
  { destruct Hi as [->|[->| ->]]; simpl in Hin; intuition. }
  destruct (total_number_float _ _ _ _ _ _ _ Hr) as (q & Hq). eauto.
Qed.

Lemma totals_of_cases (text : str) :
  match re_search total_pattern text with
  | Some _ =>
      exists w dp bl,
        totals_of text = [("total_withdrawal", VNum w); ("total_deposit", VNum dp);
                          ("final_balance", VNum bl)]%string
  | None =>
      totals_of text = [("total_withdrawal", VNone); ("total_deposit", VNone);
                        ("final_balance", VNone)]%string
  end.
Proof.
  unfold totals_of.
  destruct (re_search total_pattern text) as [mo|] eqn:E; [|reflexivity].
  destruct (total_group_float _ _ 1 E) as (g1 & q1 & G1 & F1); auto.
  destruct (total_group_float _ _ 2 E) as (g2 & q2 & G2 & F2); auto.
  destruct (total_group_float _ _ 3 E) as (g3 & q3 & G3 & F3); auto.
  exists q1, q2, q3.
  unfold totals_block, try_block, assign, group_replace, bind.
  rewrite G1, G2, G3, F1, F2, F3. reflexivity.
Qed.

(** C3.  Whatever the text, the totals are either three numbers or three
    nulls, according to whether the TOTAL line was found: each of its
    three captures is made of digits, commas, a point and two digits, so
    that none of the three conversions can fail after another one
    succeeded and leave the totals half filled. *)
Theorem totals_all_or_nothing (text : str) :
  (re_search total_pattern text <> None
   /\ exists w dp bl,
        totals_of text = [("total_withdrawal", VNum w); ("total_deposit", VNum dp);
                          ("final_balance", VNum bl)]%string)
  \/ (re_search total_pattern text = None
      /\ totals_of text = [("total_withdrawal", VNone); ("total_deposit", VNone);
                           ("final_balance", VNone)]%string).
Proof.
  pose proof (totals_of_cases text) as H.
  destruct (re_search total_pattern text) as [mo|].
  - left. split; [discriminate|exact H].
  - right. split; [reflexivity|exact H].
Qed.

(** *** The TOTAL line of the scenario *)

Lemma ends_line_tail a pre : ends_line (a :: pre) -> ends_line pre.
Proof.
  intros [H|(pre' & H)]; [discriminate|].
  destruct pre' as [|a' pre']; simpl in H; injection H as -> ->.
  - now left.
  - right. now exists pre'.
Qed.

Lemma ends_line_last pre a : ends_line (pre ++ [a]) -> a = "010"%char.
Proof.
  intros [H|(pre' & H)].
  - now destruct pre.
  - apply app_inj_tail in H. now destruct H.
Qed.

(** Where the word TOTAL stands when only blanks and commas go before:
    at the line, or earlier, in the text that goes before the line. *)
Lemma total_anchor : forall (u pre s5 t : str),
  u ++ «"TOTAL"» ++ s5 = pre ++ «"TOTAL"» ++ t ->
  Forall sep_char u ->
  ends_line pre ->
  (u = pre /\ s5 = t)
  \/ exists p, pre = u ++ «"TOTAL"» ++ p /\ s5 = p ++ «"TOTAL"» ++ t.
Proof.
  induction u as [|a u IH]; intros pre s5 t E Hu He.
  - destruct pre as [|a1 pre]; [simpl in E; injection E as ->; auto|].
    simpl in E. injection E as <- E.
    destruct pre as [|a2 pre];
      [apply (ends_line_last []) in He; discriminate|].
    injection E as <- E.
    destruct pre as [|a3 pre];
      [apply (ends_line_last ["T"%char]) in He; discriminate|].
    injection E as <- E.
    destruct pre as [|a4 pre];
      [apply (ends_line_last «"TO"») in He; discriminate|].
    injection E as <- E.
    destruct pre as [|a5 pre];
      [apply (ends_line_last «"TOT"») in He; discriminate|].
    injection E as <- E.
    right. exists pre. split; [reflexivity|exact E].
  - inversion Hu as [|? ? Ha Hu']; subst.
    destruct pre as [|a1 pre].
    + exfalso. simpl in E. injection E as -> _.
      destruct Ha as [Ha|Ha]; [vm_compute in Ha|]; discriminate.
    + simpl in E. injection E as <- E.
      destruct (IH pre s5 t E Hu') as [[-> ->]|(p & -> & ->)].
      * eapply ends_line_tail; eassumption.
      * auto.
      * right. exists p. auto.
Qed.

(** A word made of characters of one kind stops before a character of
    another kind. *)
Lemma stops_before (P : ascii -> Prop) (y : ascii) : forall (w s' p t : str),
  w ++ s' = p ++ y :: t -> Forall P w -> ~ P y ->
  exists p', p = w ++ p' /\ s' = p' ++ y :: t.
Proof.
  induction w as [|a w IH]; intros s' p t E Hw Hy.
  - exists p. auto.
  - inversion Hw as [|? ? Ha Hw']; subst.
    destruct p as [|a1 p]; simpl in E.
    + injection E as -> _. contradiction.
    + injection E as <- E.
      destruct (IH _ _ _ E Hw' Hy) as (p' & -> & ->). exists p'. auto.
Qed.

(** A pattern without lookahead matches the same word whatever follows
    it. *)
Lemma mt_rest r b s c w b' s' c' :
  mt r b s c w b' s' c' -> no_lookahead r = true ->
  forall t, mt r b (w ++ t) c w b' t c'.
Proof.
  induction 1; simpl; intros A t; try discriminate; auto.
  - apply andb_true_iff in A. destruct A as [A1 A2].
    rewrite <- app_assoc. econstructor; eauto.
  - apply andb_true_iff in A. destruct A as [A1 A2]. auto.
  - apply andb_true_iff in A. destruct A as [A1 A2]. auto.
  - rewrite <- app_assoc. econstructor; eauto.
Qed.

Lemma prefix_until (x : ascii) : forall (u v t t' : str),
  u ++ x :: t = v ++ x :: t' -> ~ In x u -> ~ In x v -> u = v /\ t = t'.
Proof.
  induction u as [|a u IH]; intros v t t' E Hu Hv.
  - destruct v as [|b v]; simpl in E.
    + injection E as ->. auto.
    + injection E as -> _. exfalso. apply Hv. now left.
  - destruct v as [|b v]; simpl in E.
    + injection E as -> _. exfalso. apply Hu. now left.
    + injection E as -> E. destruct (IH v t t' E) as [-> ->]; auto.
      * intros H. apply Hu. now right.
      * intros H. apply Hv. now right.
Qed.

(** A run of blanks before a character that is not one. *)
Lemma blanks_then b x t c w b' s' c' :
  mt (plus true ws) b (" "%char :: x :: t) c w b' s' c' ->
  is_space x = false ->
  s' = x :: t /\ forall i, c' i = c i.
Proof.
  intros H Hx. unfold plus, ws in H.
  apply mt_seq_inv in H. destruct H as (w1 & b1 & s1 & c1 & w2 & H1 & H & ->).
  inv H1.
  pose proof (mt_app _ _ _ _ _ _ _ _ H) as E.
  apply mt_star_chr in H. destruct H as [-> HF].
  destruct w2 as [|a w2]; simpl in E.
  - subst. auto.
  - injection E as <- _. inversion HF; subst. simpl in *. congruence.
Qed.

(** A number of the TOTAL line read where the text has one. *)
Lemma total_number_at (u0 : str) x1 x2 t b c w b' s' c' :
  mt total_number b (u0 ++ "."%char :: x1 :: x2 :: t) c w b' s' c' ->
  all_digits (remove_commas u0) ->
  w = u0 ++ ["."%char; x1; x2] /\ s' = t /\ forall i, c' i = c i.
Proof.
  intros H Hu0.
  pose proof (mt_app _ _ _ _ _ _ _ _ H) as E.
  assert (Hc : forall i, c' i = c i)
    by (intros i; eapply mt_caps_frame; [exact H|reflexivity]).
  apply total_number_shape in H.
  destruct H as (u & a1 & a2 & -> & Hu & H1 & H2).
  rewrite <- app_assoc in E. simpl in E.
  apply prefix_until in E.
  - destruct E as [<- E]. injection E as <- <- <-. auto.
  - intros Hin.
    assert (Hd : is_digit "." = true); [|discriminate Hd].
    assert (Hin' : In "."%char (remove_commas u0))
      by (apply filter_In; split; [assumption|reflexivity]).
    revert Hin'. generalize "."%char. now apply Forall_forall.
  - intros Hin.
    assert (Hd : cc_in (Union Digit (Lit ","%char)) "." = true);
      [|discriminate Hd].
    revert Hin. generalize "."%char. now apply Forall_forall.
Qed.

Lemma separators_alpha :
  alpha sep_char (Star true (Star true (Chr (Lit ","%char)) +++ Star true ws)).
Proof.
  simpl. split; intros a H.
  - right. now apply Ascii.eqb_eq.
  - now left.
Qed.

(** What the pattern reads after the word TOTAL is made of blanks,
    digits, commas and points. *)
Lemma total_numbers_alpha :
  alpha (fun a => is_space a = true \/ amount_char a)
        (plus true ws +++ Group 1 total_number +++ plus true ws
         +++ Group 2 total_number +++ plus true ws
         +++ Group 3 total_number)%re.
Proof.
  unfold amount_char. simpl. repeat split; intros a; each_ascii a.
Qed.

(** A match of the TOTAL pattern that begins before the line reads the
    three numbers of the line, or lies in the text that goes before the
    line. *)
Lemma total_match_groups b pre rest w b' s' c' :
  mt total_pattern b (pre ++ total_line ++ rest) no_caps w b' s' c' ->
  ends_line pre ->
  (c' 1 = Some «"10,000.00"» /\ c' 2 = Some «"12,000.00"»
   /\ c' 3 = Some «"2,000.00"»)
  \/ exists p, pre = w ++ p.
Proof.
  intros H He. unfold total_pattern in H.
  apply mt_seq_inv in H. destruct H as (w0 & b0 & s0 & c0 & v0 & H0 & H & ->).
  apply mt_seq_inv in H. destruct H as (w1 & b1 & s1 & c1 & v1 & H1 & H & ->).
  apply mt_seq_inv in H. destruct H as (w2 & b2 & s2 & c2 & v2 & H2 & H & ->).
  apply mt_seq_inv in H. destruct H as (w3 & b3 & s3 & c3 & v3 & H3 & H & ->).
  inv H0.
  pose proof (mt_app _ _ _ _ _ _ _ _ H1) as E1.
  pose proof (mt_app _ _ _ _ _ _ _ _ H2) as E2.
  apply mt_star_chr in H1. destruct H1 as [_ F1].
  apply (mt_alpha sep_char) in H2; [|apply separators_alpha].
  apply mt_lit in H3. destruct H3 as (-> & E3 & ->).
  assert (Hsep : Forall sep_char (w1 ++ w2)).
  { apply Forall_app. split; [|assumption].
    eapply Forall_impl; [|exact F1]. intros a Ha. now left. }
  assert (Es : (w1 ++ w2) ++ «"TOTAL"» ++ s3 =
               pre ++ «"TOTAL"»
                 ++ («" 10,000.00 12,000.00 2,000.00"» ++ rest)).
  { rewrite <- app_assoc, <- E3, <- E2, <- E1. reflexivity. }
  apply total_anchor in Es; auto. destruct Es as [[_ ->]|(p & Ep & ->)].
  - left.
    apply mt_seq_inv in H. destruct H as (w4 & b4 & s4 & c4 & v4 & H4 & H & ->).
    apply mt_seq_inv in H. destruct H as (w5 & b5 & s5 & c5 & v5 & H5 & H & ->).
    apply mt_seq_inv in H. destruct H as (w6 & b6 & s6 & c6 & v6 & H6 & H & ->).
    apply mt_seq_inv in H. destruct H as (w7 & b7 & s7 & c7 & v7 & H7 & H & ->).
    apply mt_seq_inv in H. destruct H as (w8 & b8 & s8 & c8 & v8 & H8 & H & ->).
    apply (blanks_then _ "1"%char) in H4; [|reflexivity].
    destruct H4 as [-> F4].
    inv H5.
    match goal with H : mt total_number _ _ _ _ _ _ _ |- _ =>
      apply (total_number_at «"10,000"» "0"%char "0"%char
               («" 12,000.00 2,000.00"» ++ rest)) in H;
      [destruct H as (-> & -> & F5)|repeat constructor] end.
    apply (blanks_then _ "1"%char) in H6; [|reflexivity].
    destruct H6 as [-> F6].
    inv H7.
    match goal with H : mt total_number _ _ _ _ _ _ _ |- _ =>
      apply (total_number_at «"12,000"» "0"%char "0"%char
               («" 2,000.00"» ++ rest)) in H;
      [destruct H as (-> & -> & F7)|repeat constructor] end.
    apply (blanks_then _ "2"%char) in H8; [|reflexivity].
    destruct H8 as [-> F8].
    inv H.
    match goal with H : mt total_number _ _ _ _ _ _ _ |- _ =>
      apply (total_number_at «"2,000"» "0"%char "0"%char rest) in H;
      [destruct H as (-> & -> & F9)|repeat constructor] end.
    unfold upd. simpl. rewrite !F9, !F8. unfold upd. simpl.
    rewrite F7, F6. unfold upd. simpl. auto.
  - right.
    pose proof (mt_app _ _ _ _ _ _ _ _ H) as Et.
    pose proof (mt_alpha _ _ _ _ _ _ _ _ _ H total_numbers_alpha) as Ft.
    symmetry in Et.
    change (p ++ «"TOTAL"» ++ «" 10,000.00 12,000.00 2,000.00"» ++ rest)
      with (p ++ "T"%char
              :: «"OTAL"» ++ «" 10,000.00 12,000.00 2,000.00"» ++ rest) in Et.
    eapply stops_before in Et; [|exact Ft|].
    2:{ unfold amount_char. vm_compute. intuition discriminate. }
    destruct Et as (p' & -> & _). exists p'.
    rewrite Ep. simpl. rewrite <- !app_assoc. reflexivity.
Qed.

Lemma total_line_matches rest :
  exists mo,
    m total_pattern match_obj true 0 (total_line ++ rest) no_caps accept = Some mo
    /\ reads_total_line mo.
Proof.
  eexists. split; [vm_compute; reflexivity|].
  repeat split; reflexivity.
Qed.

Lemma search_from_hit r b s mo :
  m r match_obj b 0 s no_caps accept = Some mo -> search_from r b s = Some mo.
Proof. intros H. destruct s; simpl; now rewrite H. Qed.

Lemma search_from_cons r b a s :
  search_from r b (a :: s) =
  match m r match_obj b 0 (a :: s) no_caps accept with
  | Some mo => Some mo
  | None => search_from r (is_nl a) s
  end.
Proof. reflexivity. Qed.

Lemma search_total_line rest : forall pre b,
  search_from total_pattern b pre = None -> ends_line pre ->
  (pre = [] -> b = true) ->
  exists mo,
    search_from total_pattern b (pre ++ total_line ++ rest) = Some mo
    /\ reads_total_line mo.
Proof.
  induction pre as [|a pre IH]; intros b Hn He Hb.
  - rewrite (Hb eq_refl). simpl app.
    destruct (total_line_matches rest) as (mo & E & Hmo).
    exists mo. split; [|assumption]. now apply search_from_hit.
  - rewrite search_from_cons in Hn.
    destruct (m total_pattern match_obj b 0 (a :: pre) no_caps accept)
      eqn:En; [discriminate|].
    change ((a :: pre) ++ total_line ++ rest)
      with (a :: (pre ++ total_line ++ rest)).
    rewrite search_from_cons.
    destruct (m total_pattern match_obj b 0 (a :: pre ++ total_line ++ rest)
                no_caps accept) as [mo|] eqn:E.
    + exists mo. split; [reflexivity|].
      apply m_sound in E. destruct E as (w & b' & s' & c' & Hm & E).
      injection E as <-.
      destruct (total_match_groups b (a :: pre) rest _ _ _ _ Hm He)
        as [Hg|(p & Ep)]; [exact Hg|].
      exfalso. pose proof (mt_rest _ _ _ _ _ _ _ _ Hm eq_refl p) as Hp.
      rewrite <- Ep in Hp. revert En.
      eapply (m_complete _ _ _ _ _ _ _ _ Hp match_obj accept 0 no_caps c');
        [apply accept_uniform|discriminate].
    + apply IH.
      * exact Hn.
      * eapply ends_line_tail; eassumption.
      * intros ->. apply (ends_line_last []) in He. subst. reflexivity.
Qed.

Lemma totals_of_total_line text mo :
  re_search total_pattern text = Some mo -> reads_total_line mo ->
  totals_of text = expected_totals.
Proof.
  intros E (G1 & G2 & G3). unfold totals_of. rewrite E.
  unfold totals_block, try_block, assign, group_replace, bind.
  rewrite G1, G2, G3. vm_compute. reflexivity.
Qed.

(** C8, as amended.  When the line stands in the text, at the beginning
    of a line, and no TOTAL line is found in the text that goes before it
    (the search of the TOTAL pattern finds nothing there), the totals are
    the three numbers of the line, whatever follows it.  The word TOTAL
    may well occur before the line, in a description or in SUBTOTAL. *)
Theorem totals_of_first_total_line (pre rest : str) :
  re_search total_pattern pre = None -> ends_line pre ->
  totals_of (pre ++ total_line ++ rest) = expected_totals.
Proof.
  intros Hn He.
  destruct (search_total_line rest pre true Hn He) as (mo & E & Hmo); auto.
  eapply totals_of_total_line; eassumption.
Qed.

Lemma totals_of_first_total_line_witness :
  re_search total_pattern page_with_subtotal = None
  /\ ends_line page_with_subtotal
  /\ totals_of (page_with_subtotal ++ total_line ++ ["010"%char])
     = expected_totals.
Proof.
  assert (Hn : re_search total_pattern page_with_subtotal = None)
    by (vm_compute; reflexivity).
  assert (He : ends_line page_with_subtotal).
  { right.
    exists (page_header ++ «"TOTAL GAS STATION 40.00"» ++ "010"%char
              :: «"SUBTOTAL 1.00 2.00 3.00"»).
    reflexivity. }
  split; [exact Hn|]. split; [exact He|].
  exact (totals_of_first_total_line page_with_subtotal ["010"%char] Hn He).
Defined.

(** C8, as stated, fails: the first TOTAL line of the text is the one
    that is read. *)
Lemma earlier_total_line_counterexample :
  ~ (forall text, In total_line (split_nl text) ->
                  totals_of text = expected_totals).
Proof.
  intros H. specialize (H two_total_lines).
  assert (Hin : In total_line (split_nl two_total_lines))
    by (vm_compute; tauto).
  apply H in Hin. vm_compute in Hin. discriminate Hin.
Qed.

(** ** Statement Assembler *)

Lemma transactions_shape text : Forall transaction_shape (transactions_of text).
Proof.
  apply Forall_forall. intros t Ht.
  apply transactions_of_inv in Ht.
  destruct Ht as (line & mo & rc & _ & Hm & Hr & ->).
  apply transaction_record_inv in Hr.
  destruct Hr as (td & pd & ds & w & dp & bl & _ & _ & _ & _ & _ & _ & ->).
  unfold transaction_shape. do 7 eexists. split; [reflexivity|].
  unfold nullable_str. destruct (group 4 mo) as [[|a r]|]; eauto.
Qed.

(** C4.  Whatever the text, the parse returns the three keys; the account
    information holds the bank and the four other keys, the statement
    period its two dates, the totals their three keys; every value that
    was not found is null, and every transaction has its seven keys.  The
    parser is a total function: no exception leaves it. *)
Theorem parse_result_has_fixed_shape (text : str) :
  exists holder number type_ start_date end_date txs tw td fb,
    parse_bank_statement text =
      [("account_info",
        VDict [("bank", VStr «"Islami Bank Bangladesh PLC."»);
               ("account_holder", holder);
               ("account_number", number);
               ("account_type", type_);
               ("statement_period",
                VDict [("start_date", start_date); ("end_date", end_date)])]);
       ("transactions", VList txs);
       ("totals",
        VDict [("total_withdrawal", tw); ("total_deposit", td);
               ("final_balance", fb)])]%string
    /\ nullable_str holder /\ nullable_str number /\ nullable_str type_
    /\ nullable_str start_date /\ nullable_str end_date
    /\ Forall transaction_shape txs
    /\ nullable_num tw /\ nullable_num td /\ nullable_num fb.
Proof.
  destruct (account_info_shape text)
    as (holder & number & type_ & sd & ed & Ea & H1 & H2 & H3 & H4 & H5).
  exists holder, number, type_, sd, ed, (transactions_of text).
  unfold parse_bank_statement. rewrite Ea.
  pose proof (totals_of_cases text) as Ht.
  destruct (re_search total_pattern text) as [mo|];
    [destruct Ht as (w & dp & bl & ->)|rewrite Ht].
  - exists (VNum w), (VNum dp), (VNum bl).
    split; [reflexivity|]. unfold nullable_num.
    repeat split; eauto using transactions_shape.
  - exists VNone, VNone, VNone.
    split; [reflexivity|]. unfold nullable_num.
    repeat split; eauto using transactions_shape.
Qed.

(** C5.  The empty text gives the bank name, nulls everywhere else, no
    transaction and null totals. *)
Theorem parse_empty_text :
  parse_bank_statement [] =
    [("account_info",
      VDict [("bank", VStr «"Islami Bank Bangladesh PLC."»);
             ("account_holder", VNone);
             ("account_number", VNone);
             ("account_type", VNone);
             ("statement_period",
              VDict [("start_date", VNone); ("end_date", VNone)])]);
     ("transactions", VList []);
     ("totals",
      VDict [("total_withdrawal", VNone); ("total_deposit", VNone);
             ("final_balance", VNone)])]%string.
Proof. vm_compute. reflexivity. Qed.

(** C6.  The three header lines give the holder, the number and the type
    of the account, and no transaction. *)
Theorem parse_header_scenario :
  exists account_info,
    dict_get "account_info" (parse_bank_statement scenario1)
      = Some (VDict account_info)
    /\ dict_get "account_holder" account_info = Some (VStr «"John Doe"»)
    /\ dict_get "account_number" account_info = Some (VStr «"123456"»)
    /\ dict_get "account_type" account_info = Some (VStr «"Savings"»)
    /\ dict_get "transactions" (parse_bank_statement scenario1)
       = Some (VList []).
Proof.
  eexists. split; [vm_compute; reflexivity|].
  repeat split; vm_compute; reflexivity.
Qed.

(** * Further properties *)

(** ** The pages of the document *)

Lemma split_on_app_any x : forall u t,
  split_on x (u ++ x :: t) = split_on x u ++ split_on x t.
Proof.
  induction u as [|a u IH]; intros t; simpl.
  - now rewrite Ascii.eqb_refl.
  - rewrite IH. destruct (Ascii.eqb a x); [reflexivity|].
    destruct (split_on x u) as [|l ls] eqn:E;
      [now apply split_on_nonempty in E|reflexivity].
Qed.

Lemma split_nl_join parts :
  parts <> [] -> split_nl (join_nl parts) = flat_map split_nl parts.
Proof.
  induction parts as [|l [|l2 ls] IH]; intros Hne; [congruence| |].
  - simpl. now rewrite app_nil_r.
  - change (join_nl (l :: l2 :: ls)) with (l ++ "010"%char :: join_nl (l2 :: ls)).
    unfold split_nl in *. rewrite split_on_app_any, IH by discriminate.
    reflexivity.
Qed.

Lemma transactions_of_lines text :
  transactions_of text =
  flat_map record_of_line
    (filter (fun line => negb (skip_line line)) (split_nl text)).
Proof. apply transactions_of_spec. Qed.

Lemma flat_map_filter_flat_map {A B C} (f : B -> list C) (p : B -> bool)
    (g : A -> list B) (l : list A) :
  flat_map f (filter p (flat_map g l)) =
  flat_map (fun x => flat_map f (filter p (g x))) l.
Proof.
  induction l as [|x l IH]; simpl; [reflexivity|].
  now rewrite filter_app, flat_map_app, IH.
Qed.

(** X1.  The transactions of a document are those of its pages, one page
    after the other: joining the pages with newlines never merges a line
    of one page with a line of the next, and a page without text gives
    none. *)
Theorem transactions_of_document (pages : list (option str)) :
  transactions_of (document_text pages) =
  flat_map (fun page => transactions_of (page_text page)) pages.
Proof.
  destruct pages as [|pg pages]; [reflexivity|].
  unfold document_text. rewrite transactions_of_lines.
  rewrite split_nl_join by discriminate.
  rewrite flat_map_filter_flat_map, flat_map_concat_map, map_map,
    <- flat_map_concat_map.
  apply flat_map_ext. intros page. symmetry. apply transactions_of_lines.
Qed.

(** ** Blanks around a line *)

Lemma lstrip_pad u s :
  Forall (fun a => is_space a = true) u -> lstrip (u ++ s) = lstrip s.
Proof. induction 1 as [|a u Ha _ IH]; simpl; [reflexivity|now rewrite Ha]. Qed.

Lemma lstrip_app s v :
  lstrip (s ++ v) = match lstrip s with [] => lstrip v | t => t ++ v end.
Proof.
  induction s as [|a s IH]; simpl.
  - now destruct (lstrip v).
  - destruct (is_space a); [exact IH|reflexivity].
Qed.

Lemma strip_pad u s v :
  Forall (fun a => is_space a = true) u ->
  Forall (fun a => is_space a = true) v ->
  strip (u ++ s ++ v) = strip s.
Proof.
  intros Hu Hv. unfold strip, rstrip.
  rewrite lstrip_pad by assumption. rewrite lstrip_app.
  destruct (lstrip s) as [|a t] eqn:E.
  - rewrite <- (app_nil_r v), lstrip_pad by assumption. reflexivity.
  - rewrite rev_app_distr, lstrip_pad; [reflexivity|]. now apply Forall_rev.
Qed.

Lemma starts_with_rpad a : forall mk t,
  is_space a = true -> is_space (last mk a) = false ->
  starts_with mk (t ++ [a]) = starts_with mk t.
Proof.
  induction mk as [|m mk IH]; intros t Ha Hl; [now destruct t|].
  destruct t as [|y t]; simpl.
  - destruct mk as [|m2 mk]; simpl in *.
    + destruct (Ascii.eqb m a) eqn:E; [|reflexivity].
      apply Ascii.eqb_eq in E. congruence.
    + apply andb_false_r.
  - destruct mk as [|m2 mk]; [now destruct t|].
    rewrite IH; auto.
Qed.

Lemma contains_cons mk x s :
  contains mk (x :: s) = starts_with mk (x :: s) || contains mk s.
Proof. reflexivity. Qed.

Lemma contains_nil mk : contains mk [] = starts_with mk [].
Proof. simpl. apply orb_false_r. Qed.

Lemma contains_rpad1 mk a : forall s,
  is_space a = true -> is_space (last mk a) = false ->
  contains mk (s ++ [a]) = contains mk s.
Proof.
  intros s Ha Hl.
  assert (Hne : starts_with mk [] = false).
  { destruct mk; [simpl in Hl; congruence|reflexivity]. }
  induction s as [|x s IH].
  - pose proof (starts_with_rpad a mk [] Ha Hl) as E. simpl app in *.
    rewrite contains_cons, !contains_nil, E, Hne. reflexivity.
  - change ((x :: s) ++ [a]) with (x :: (s ++ [a])).
    rewrite !contains_cons, IH.
    change (x :: (s ++ [a])) with ((x :: s) ++ [a]).
    now rewrite starts_with_rpad.
Qed.

Lemma last_any_default (mk : str) a b : mk <> [] -> last mk a = last mk b.
Proof.
  induction mk as [|m [|m2 mk] IH]; intros H; [congruence|reflexivity|].
  apply IH. discriminate.
Qed.

Lemma contains_rpad mk : forall v s,
  Forall (fun a => is_space a = true) v ->
  is_space (last mk " "%char) = false ->
  contains mk (s ++ v) = contains mk s.
Proof.
  induction v as [|a v IH]; intros s Hv Hl; [now rewrite app_nil_r|].
  inversion Hv; subst.
  assert (Hne : mk <> []) by (intros ->; discriminate Hl).
  change (s ++ a :: v) with (s ++ [a] ++ v). rewrite app_assoc, IH by assumption.
  apply contains_rpad1; [assumption|].
  now rewrite (last_any_default mk a " "%char).
Qed.

Lemma contains_lpad mk : forall u s,
  Forall (fun a => is_space a = true) u ->
  is_space (hd " "%char mk) = false ->
  contains mk (u ++ s) = contains mk s.
Proof.
  induction u as [|a u IH]; intros s Hu Hh; [reflexivity|].
  inversion Hu; subst. simpl app. rewrite contains_cons, IH by assumption.
  destruct mk as [|m mk]; [discriminate Hh|]. simpl in *.
  destruct (Ascii.eqb m a) eqn:E; [|reflexivity].
  apply Ascii.eqb_eq in E. congruence.
Qed.

Lemma contains_pad mk u s v :
  Forall (fun a => is_space a = true) u ->
  Forall (fun a => is_space a = true) v ->
  is_space (hd " "%char mk) = false -> is_space (last mk " "%char) = false ->
  contains mk (u ++ s ++ v) = contains mk s.
Proof.
  intros Hu Hv Hh Hl. now rewrite contains_lpad, contains_rpad.
Qed.

Lemma skip_line_pad u line v :
  Forall (fun a => is_space a = true) u ->
  Forall (fun a => is_space a = true) v ->
  skip_line (u ++ line ++ v) = skip_line line.
Proof.
  intros Hu Hv. unfold skip_line.
  rewrite !contains_pad, strip_pad by (assumption || reflexivity).
  reflexivity.
Qed.

(** X2.  Blanks before and after a line do not count: the line is
    skipped or not, and gives the same record, as without them; so an
    indented line, or a line that ends with a carriage return, is read as
    the bare line. *)
Theorem blanks_around_a_line_do_not_count
    (u line v : str) (transactions : list value) :
  Forall (fun a => is_space a = true) u ->
  Forall (fun a => is_space a = true) v ->
  skip_line (u ++ line ++ v) = skip_line line
  /\ transaction_step transactions (u ++ line ++ v) =
     transaction_step transactions line.
Proof.
  intros Hu Hv. split; [now apply skip_line_pad|].
  unfold transaction_step. now rewrite skip_line_pad, strip_pad.
Qed.

Lemma blanks_around_a_line_do_not_count_witness :
  transaction_step []
    (" "%char :: «"01/03/25 02/03/25 Cash 0.00 1.00 2.00"» ++ ["013"%char]) =
  transaction_step [] «"01/03/25 02/03/25 Cash 0.00 1.00 2.00"».
Proof.
  assert (Hu : Forall (fun a => is_space a = true) [" "%char])
    by (repeat constructor).
  assert (Hv : Forall (fun a => is_space a = true) ["013"%char])
    by (repeat constructor).
  exact (proj2 (blanks_around_a_line_do_not_count [" "%char]
                  «"01/03/25 02/03/25 Cash 0.00 1.00 2.00"» ["013"%char] []
                  Hu Hv)).
Defined.

(** ** More on the Date Normalizer *)

Lemma digit_char_val a : is_digit a = true -> digit_char (digit_val a) = a.
Proof.
  intros H. apply digit_cases in H. simpl in H.
  repeat (destruct H as [<-|H]; [reflexivity|]). destruct H.
Qed.

Lemma digit_char_not_slash k : (0 <= k < 10)%Z -> digit_char k <> "/"%char.
Proof. intros H. apply digit_not_slash. now apply digit_char_ok. Qed.

Lemma read_date_range f token dt :
  read_date f token = Some dt ->
  (1 <= year dt <= 9999 /\ 1 <= month dt <= 12 /\ 1 <= day dt <= 31)%Z.
Proof.
  unfold read_date.
  destruct (split_on "/" token) as [|D [|M [|Y [|? ?]]]]; try discriminate.
  destruct (_ && _); [|discriminate]. intros H.
  apply check_date_fields_range in H. destruct H as [-> H]. exact H.
Qed.

Lemma strftime_no_slash dt :
  (1 <= year dt <= 9999 /\ 1 <= month dt <= 12 /\ 1 <= day dt <= 31)%Z ->
  ~ In "/"%char (strftime dt).
Proof.
  intros (Hy & Hm & Hd).
  assert (P2 : forall n, ~ In "/"%char (pad2 n)).
  { intros n [E|[E|[]]]; revert E; apply digit_char_not_slash;
      apply Z.mod_pos_bound; lia. }
  assert (PY : ~ In "/"%char (year_text (year dt))).
  { unfold year_text.
    destruct (Z.leb_spec 1000 (year dt)).
    - intros [E|[E|[E|[E|[]]]]]; revert E;
        apply digit_char_not_slash; apply Z.mod_pos_bound; lia.
    - destruct (Z.leb_spec 100 (year dt)).
      + intros [E|[E|[E|[]]]]; revert E;
          apply digit_char_not_slash; apply Z.mod_pos_bound; lia.
      + destruct (Z.leb_spec 10 (year dt)); [apply P2|].
        intros [E|[]]. revert E.
        apply digit_char_not_slash. lia. }
  unfold strftime. rewrite in_app_iff. intros [H|[H|H]].
  - now apply PY.
  - discriminate H.
  - rewrite in_app_iff in H. destruct H as [H|[H|H]].
    + now apply (P2 (month dt)).
    + discriminate H.
    + now apply (P2 (day dt)).
Qed.

Lemma read_date_no_slash f s : ~ In "/"%char s -> read_date f s = None.
Proof. intros H. unfold read_date. now rewrite split_on_single. Qed.

Lemma convert_unread token :
  read_date D_M_y token = None -> read_date D_M_Y token = None ->
  convert_date_format token = token.
Proof.
  intros H1 H2. unfold convert_date_format. now rewrite !strptime_spec, H1, H2.
Qed.

(** X3.  Normalizing twice is normalizing once: a token that was
    converted holds no slash any more and is left as it is, and a token
    that was returned unchanged is returned unchanged again. *)
Theorem convert_date_format_idempotent (token : str) :
  convert_date_format (convert_date_format token) = convert_date_format token.
Proof.
  assert (Hs : forall dt f, read_date f token = Some dt ->
            convert_date_format (strftime dt) = strftime dt).
  { intros dt f H. apply read_date_range in H.
    apply strftime_no_slash in H.
    apply convert_unread; now apply read_date_no_slash. }
  destruct (read_date D_M_y token) as [dt|] eqn:E1.
  { assert (E : convert_date_format token = strftime dt)
      by (unfold convert_date_format; now rewrite strptime_spec, E1).
    rewrite E. eapply Hs; eassumption. }
  destruct (read_date D_M_Y token) as [dt|] eqn:E2.
  { assert (E : convert_date_format token = strftime dt)
      by (unfold convert_date_format; now rewrite !strptime_spec, E1, E2).
    rewrite E. eapply Hs; eassumption. }
  now rewrite (convert_unread token E1 E2), (convert_unread token E1 E2).
Qed.

(** *** The fixed-width tokens *)

Lemma read_date_fixed f d1 d2 m1 m2 Y :
  is_digit d1 = true -> is_digit d2 = true ->
  is_digit m1 = true -> is_digit m2 = true -> all_digits Y ->
  read_date f (d1 :: d2 :: "/"%char :: m1 :: m2 :: "/"%char :: Y) =
  if year_shape f Y
  then check_date_fields (found_year f (digits_val Y))
                         (digits_val [m1; m2]) (digits_val [d1; d2])
  else None.
Proof.
  intros H1 H2 H3 H4 HYd.
  assert (NY : ~ In "/"%char Y).
  { intros Hin. assert (Hd : is_digit "/" = true); [|discriminate Hd].
    revert Hin. generalize "/"%char. now apply Forall_forall. }
  unfold read_date.
  change (d1 :: d2 :: "/"%char :: m1 :: m2 :: "/"%char :: Y)
    with ([d1; d2] ++ "/"%char :: [m1; m2] ++ "/"%char :: Y).
  rewrite (split_on_app "/" [d1; d2]), (split_on_app "/" [m1; m2]),
    split_on_single; auto.
  2:{ simpl. intros [E|[E|[]]]; subst; discriminate. }
  2:{ simpl. intros [E|[E|[]]]; subst; discriminate. }
  simpl day_shape. simpl month_shape. rewrite H1, H2, H3, H4. simpl.
  destruct (year_shape f Y); [|reflexivity].
  unfold int_of_str. rewrite !strip_no_space; auto.
  - repeat constructor; auto using digit_not_space.
  - repeat constructor; auto using digit_not_space.
  - eapply Forall_impl; [|exact HYd]. apply digit_not_space.
Qed.

Lemma pad2_digits a b :
  is_digit a = true -> is_digit b = true -> pad2 (digits_val [a; b]) = [a; b].
Proof. intros Ha Hb. digits_of Ha; digits_of Hb; reflexivity. Qed.

Lemma year_text_yy a b :
  is_digit a = true -> is_digit b = true ->
  year_text (found_year D_M_y (digits_val [a; b])) = century [a; b] ++ [a; b].
Proof. intros Ha Hb. digits_of Ha; digits_of Hb; reflexivity. Qed.

Lemma pad4_digits a b c e :
  is_digit a = true -> is_digit b = true -> is_digit c = true ->
  is_digit e = true ->
  pad4 (digits_val [a; b; c; e]) = [a; b; c; e].
Proof.
  intros Ha Hb Hc He.
  pose proof (digit_val_range a Ha). pose proof (digit_val_range b Hb).
  pose proof (digit_val_range c Hc). pose proof (digit_val_range e He).
  unfold pad4, digits_val. cbn [fold_left].
  set (n := (10 * (10 * (10 * (10 * 0 + digit_val a) + digit_val b)
                   + digit_val c) + digit_val e)%Z).
  assert (E1 : (n / 1000 mod 10 = digit_val a)%Z)
    by (subst n; Z.div_mod_to_equations; lia).
  assert (E2 : (n / 100 mod 10 = digit_val b)%Z)
    by (subst n; Z.div_mod_to_equations; lia).
  assert (E3 : (n / 10 mod 10 = digit_val c)%Z)
    by (subst n; Z.div_mod_to_equations; lia).
  assert (E4 : (n mod 10 = digit_val e)%Z)
    by (subst n; Z.div_mod_to_equations; lia).
  rewrite E1, E2, E3, E4.
  now rewrite !digit_char_val.
Qed.

Lemma fixed_width_inv f d1 d2 s1 m1 m2 s2 Y :
  fixed_width f (d1 :: d2 :: s1 :: m1 :: m2 :: s2 :: Y) = true ->
  s1 = "/"%char /\ s2 = "/"%char
  /\ is_digit d1 = true /\ is_digit d2 = true
  /\ is_digit m1 = true /\ is_digit m2 = true
  /\ year_shape f Y = true /\ all_digits Y.
Proof.
  simpl. rewrite !andb_true_iff.
  intros ((((((H1 & H2) & E1) & H3) & H4) & E2) & HY).
  apply Ascii.eqb_eq in E1, E2. repeat split; auto.
  unfold year_shape in HY. apply andb_true_iff in HY. destruct HY as [HY _].
  apply Forall_forall. now apply forallb_forall.
Qed.

Lemma convert_read token f dt :
  read_date D_M_y token = (match f with D_M_y => Some dt | D_M_Y => None end) ->
  read_date D_M_Y token = (match f with D_M_y => None | D_M_Y => Some dt end) ->
  convert_date_format token = strftime dt.
Proof.
  intros H1 H2. unfold convert_date_format. rewrite !strptime_spec, H1.
  destruct f; [reflexivity|]. now rewrite H2.
Qed.

(** X4.  A token DD/MM/YY is decided by the calendar alone.  When its
    numbers are a day of the calendar, the result is made of the very
    digits of the token, YY-MM-DD after the century, 20 for the years 00
    to 68 and 19 for 69 to 99; when they are not (31/02/25, 29/02/23,
    00/01/25), the token comes back unchanged. *)
Theorem convert_fixed_width_two_digit_year (d1 d2 s1 m1 m2 s2 y1 y2 : ascii) :
  fixed_width D_M_y [d1; d2; s1; m1; m2; s2; y1; y2] = true ->
  convert_date_format [d1; d2; s1; m1; m2; s2; y1; y2] =
  match check_date_fields (found_year D_M_y (digits_val [y1; y2]))
                          (digits_val [m1; m2]) (digits_val [d1; d2]) with
  | Some _ => century [y1; y2] ++ [y1; y2; "-"%char; m1; m2; "-"%char; d1; d2]
  | None => [d1; d2; s1; m1; m2; s2; y1; y2]
  end.
Proof.
  intros H. apply fixed_width_inv in H.
  destruct H as (-> & -> & H1 & H2 & H3 & H4 & HY & HYd).
  inversion HYd as [|? ? Hy1 HYd']; subst. inversion HYd' as [|? ? Hy2 _]; subst.
  pose proof (read_date_fixed D_M_y d1 d2 m1 m2 [y1; y2] H1 H2 H3 H4 HYd) as Ry.
  pose proof (read_date_fixed D_M_Y d1 d2 m1 m2 [y1; y2] H1 H2 H3 H4 HYd) as RY.
  rewrite HY in Ry.
  assert (EY : year_shape D_M_Y [y1; y2] = false)
    by (unfold year_shape; simpl; apply andb_false_r).
  rewrite EY in RY.
  destruct (check_date_fields _ _ _) as [dt|] eqn:Ec.
  - rewrite (convert_read _ D_M_y dt Ry RY).
    apply check_date_fields_range in Ec. destruct Ec as [-> _].
    unfold strftime. cbn [year month day].
    rewrite year_text_yy, !pad2_digits by assumption.
    now rewrite <- app_assoc.
  - now apply convert_unread.
Qed.

Lemma convert_fixed_width_two_digit_year_witness :
  convert_date_format «"01/03/25"» = «"2025-03-01"»
  /\ convert_date_format «"31/02/25"» = «"31/02/25"».
Proof.
  split.
  - exact (convert_fixed_width_two_digit_year
             "0" "1" "/" "0" "3" "/" "2" "5" eq_refl).
  - exact (convert_fixed_width_two_digit_year
             "3" "1" "/" "0" "2" "/" "2" "5" eq_refl).
Defined.

Lemma digit_val_zero a : is_digit a = true -> digit_val a = 0%Z -> a = "0"%char.
Proof. intros H E. rewrite <- (digit_char_val a H), E. reflexivity. Qed.

(** X5.  A token DD/MM/YYYY whose year does not begin with 0 is decided
    by the calendar alone too: YYYY-MM-DD with the digits of the token
    when its numbers are a day of the calendar, the token unchanged when
    they are not. *)
Theorem convert_fixed_width_four_digit_year
    (d1 d2 s1 m1 m2 s2 y1 y2 y3 y4 : ascii) :
  fixed_width D_M_Y [d1; d2; s1; m1; m2; s2; y1; y2; y3; y4] = true ->
  y1 <> "0"%char ->
  convert_date_format [d1; d2; s1; m1; m2; s2; y1; y2; y3; y4] =
  match check_date_fields (digits_val [y1; y2; y3; y4])
                          (digits_val [m1; m2]) (digits_val [d1; d2]) with
  | Some _ => [y1; y2; y3; y4; "-"%char; m1; m2; "-"%char; d1; d2]
  | None => [d1; d2; s1; m1; m2; s2; y1; y2; y3; y4]
  end.
Proof.
  intros H Hz. apply fixed_width_inv in H.
  destruct H as (-> & -> & H1 & H2 & H3 & H4 & HY & HYd).
  inversion HYd as [|? ? Hy1 HYd1]; subst.
  inversion HYd1 as [|? ? Hy2 HYd2]; subst.
  inversion HYd2 as [|? ? Hy3 HYd3]; subst.
  inversion HYd3 as [|? ? Hy4 _]; subst.
  pose proof (read_date_fixed D_M_y d1 d2 m1 m2 _ H1 H2 H3 H4 HYd) as Ry.
  pose proof (read_date_fixed D_M_Y d1 d2 m1 m2 _ H1 H2 H3 H4 HYd) as RY.
  rewrite HY in RY.
  assert (Ey : year_shape D_M_y [y1; y2; y3; y4] = false)
    by (unfold year_shape; simpl; apply andb_false_r).
  rewrite Ey in Ry. cbn [found_year] in RY.
  destruct (check_date_fields _ _ _) as [dt|] eqn:Ec.
  - rewrite (convert_read _ D_M_Y dt Ry RY).
    apply check_date_fields_range in Ec. destruct Ec as [-> _].
    unfold strftime, year_text. cbn [year month day].
    assert (Hk : (1000 <= digits_val [y1; y2; y3; y4])%Z).
    { pose proof (digit_val_range y1 Hy1). pose proof (digit_val_range y2 Hy2).
      pose proof (digit_val_range y3 Hy3). pose proof (digit_val_range y4 Hy4).
      assert (digit_val y1 <> 0%Z)
        by (intros E; apply Hz; now apply digit_val_zero).
      unfold digits_val. cbn [fold_left]. lia. }
    destruct (Z.leb_spec 1000 (digits_val [y1; y2; y3; y4])); [|lia].
    rewrite pad4_digits, !pad2_digits by assumption. reflexivity.
  - now apply convert_unread.
Qed.

Lemma convert_fixed_width_four_digit_year_witness :
  convert_date_format «"29/02/2024"» = «"2024-02-29"»
  /\ convert_date_format «"29/02/2023"» = «"29/02/2023"».
Proof.
  assert (Hz : "2"%char <> "0"%char) by discriminate.
  split.
  - exact (convert_fixed_width_four_digit_year
             "2" "9" "/" "0" "2" "/" "2" "0" "2" "4" eq_refl Hz).
  - exact (convert_fixed_width_four_digit_year
             "2" "9" "/" "0" "2" "/" "2" "0" "2" "3" eq_refl Hz).
Defined.

(** ** The upload route *)

Lemma lower_char_point a :
  Ascii.eqb "."%char (lower_char a) = true <-> a = "."%char.
Proof.
  split; [|intros ->; reflexivity].
  destruct a as [[] [] [] [] [] [] [] []]; vm_compute; intros H;
    try discriminate H; reflexivity.
Qed.

Lemma lower_char_letter (l u : ascii) :
  In (l, u) [("p", "P"); ("d", "D"); ("f", "F")]%char ->
  forall a, Ascii.eqb l (lower_char a) = true <-> either_case l u a.
Proof.
  unfold either_case. simpl.
  intros [E|[E|[E|[]]]] a; injection E as <- <-;
    (split; [|intros [->| ->]; reflexivity]);
    destruct a as [[] [] [] [] [] [] [] []]; vm_compute; intros H;
    try discriminate H; auto.
Qed.

Lemma ends_with_pdf name :
  ends_with «".pdf"» (lower name) = true <-> pdf_name name.
Proof.
  unfold ends_with, lower. rewrite <- map_rev.
  rewrite <- (rev_involutive name) at 2.
  generalize (rev name) as r. clear name. intros r. unfold pdf_name. split.
  - destruct r as [|f [|d [|p [|pt r]]]]; simpl;
      rewrite ?andb_false_r; try discriminate.
    rewrite !andb_true_iff. intros (Hf & Hd & Hp & Hpt & _).
    apply lower_char_point in Hpt. subst pt.
    apply (lower_char_letter "f" "F") in Hf; [|simpl; auto].
    apply (lower_char_letter "d" "D") in Hd; [|simpl; auto].
    apply (lower_char_letter "p" "P") in Hp; [|simpl; auto].
    exists (rev r), p, d, f. repeat split; auto.
    now rewrite <- !app_assoc.
  - intros (stem & p & d & f & E & Hp & Hd & Hf).
    apply (f_equal (@rev ascii)) in E. rewrite rev_involutive in E. subst r.
    rewrite rev_app_distr.
    cbn [rev app list_ascii_of_string map starts_with].
    apply (lower_char_letter "f" "F") in Hf; [|simpl; auto].
    apply (lower_char_letter "d" "D") in Hd; [|simpl; auto].
    apply (lower_char_letter "p" "P") in Hp; [|simpl; auto].
    rewrite Hf, Hd, Hp. reflexivity.
Qed.

Lemma pdf_name_nonempty name : pdf_name name -> name <> [].
Proof. intros (stem & p & d & f & -> & _). now destruct stem. Qed.

Lemma upload_pdf_cases {stream : Type} (reader : pdf_reader stream) files :
  (exists file, pdf_upload files file
     /\ upload_pdf reader files =
        match reader (file_stream_of file) with
        | Ok pages => (parse_bank_statement (document_text pages), 200)
        | Raise e =>
            ([("error"%string,
               VStr («"An internal error occurred while processing the PDF: "»
                     ++ exn_text e));
              ("traceback"%string, VStr (exn_trace e))], 500)
        end)
  \/ ((forall file, ~ pdf_upload files file)
      /\ exists msg, upload_pdf reader files = (error_body msg, 400)).
Proof.
  unfold upload_pdf, pdf_upload, parse_bank_statement_stream.
  destruct (files_get "file" files) as [file|] eqn:Ef.
  2:{ right. split; [intros file [E _]; discriminate E|eauto]. }
  destruct (filename file) as [[|a name]|] eqn:En.
  - right. split; [|eauto]. intros file' (E & name & En' & Hn).
    injection E as <-. rewrite En in En'. injection En' as <-.
    now apply pdf_name_nonempty in Hn.
  - destruct (ends_with _ _) eqn:Ee; simpl.
    + left. exists file. split.
      * split; [reflexivity|]. exists (a :: name). split; [assumption|].
        now apply ends_with_pdf.
      * now destruct (reader (file_stream_of file)).
    + right. split; [|eauto]. intros file' (E & name' & En' & Hn).
      injection E as <-. rewrite En in En'. injection En' as <-.
      apply ends_with_pdf in Hn. congruence.
  - right. split; [|eauto]. intros file' (E & name & En' & _).
    injection E as <-. congruence.
Qed.

(** X6.  The test of the file name, in words: the lowered name ends with
    .pdf exactly when the name ends with a point and the letters p, d, f,
    each in either case.  No other character is lowered onto one of the
    four, and a name made of the extension alone passes. *)
Theorem pdf_names_pass_the_test (name : str) :
  (ends_with «".pdf"» (lower name) = true <-> pdf_name name)
  /\ ends_with «".pdf"» (lower «".pdf"») = true.
Proof. split; [apply ends_with_pdf|reflexivity]. Qed.

(** X7.  The status of the answer is 200, 400 or 500.  It is 200 exactly
    when the request carries a PDF upload that the reader reads, and the
    body is then the parse of the text of its pages; it is 500 exactly
    when the reader raises on that upload; it is 400 exactly when the
    request carries no PDF upload. *)
Theorem upload_pdf_status {stream : Type} (reader : pdf_reader stream)
    (files : list (string * file_storage stream)) :
  let status := snd (upload_pdf reader files) in
  (status = 200 <->
   exists file pages,
     pdf_upload files file /\ reader (file_stream_of file) = Ok pages
     /\ fst (upload_pdf reader files)
        = parse_bank_statement (document_text pages))
  /\ (status = 500 <->
      exists file e,
        pdf_upload files file /\ reader (file_stream_of file) = Raise e)
  /\ (status = 400 <-> forall file, ~ pdf_upload files file)
  /\ (status = 200 \/ status = 400 \/ status = 500).
Proof.
  cbv zeta.
  destruct (upload_pdf_cases reader files)
    as [(file & Hu & ->)|(Hn & msg & ->)].
  - assert (U : forall file', pdf_upload files file' -> file' = file).
    { intros file' [E _]. destruct Hu as [E' _]. congruence. }
    destruct (reader (file_stream_of file)) as [pages|e] eqn:Er; simpl.
    + repeat split; try discriminate; eauto.
      * intros (file' & e & Hu' & Er'). apply U in Hu'. subst. congruence.
      * intros H. now apply H in Hu.
    + repeat split; try discriminate; eauto.
      * intros (file' & pages & Hu' & Er' & _). apply U in Hu'. subst.
        congruence.
      * intros H. now apply H in Hu.
  - simpl. repeat split; try discriminate; auto.
    + intros (file & pages & Hu & _). now apply Hn in Hu.
    + intros (file & e & Hu & _). now apply Hn in Hu.
Qed.

(** X8.  A request that is answered 400 is answered without the reader:
    with any other reader the answer is the same, body and status. *)
Theorem rejected_upload_is_not_read {stream : Type}
    (reader reader' : pdf_reader stream)
    (files : list (string * file_storage stream)) :
  snd (upload_pdf reader files) = 400 ->
  upload_pdf reader' files = upload_pdf reader files.
Proof.
  unfold upload_pdf, parse_bank_statement_stream.
  destruct (files_get "file" files) as [file|]; [|reflexivity].
  destruct (filename file) as [[|a name]|]; try reflexivity.
  destruct (negb _); [reflexivity|].
  destruct (reader (file_stream_of file)); discriminate.
Qed.

Lemma rejected_upload_is_not_read_witness :
  upload_pdf (fun _ : unit => Raise (mkexn «"no"» «"trace"»))
             [("file"%string, mkfile (Some «"statement.txt"») tt)]
  = upload_pdf (fun _ : unit => Ok [])
               [("file"%string, mkfile (Some «"statement.txt"») tt)].
Proof.
  exact (rejected_upload_is_not_read
           (fun _ : unit => Ok [])
           (fun _ : unit => Raise (mkexn «"no"» «"trace"»))
           [("file"%string, mkfile (Some «"statement.txt"») tt)] eq_refl).
Defined.

(** X9.  The body of the answer says which answer it is: it has a key
    [error], holding a text, exactly when the status is not 200; the body
    of a 200 has the three keys of a parse and no other. *)
Theorem upload_pdf_error_key {stream : Type} (reader : pdf_reader stream)
    (files : list (string * file_storage stream)) :
  let (body, status) := upload_pdf reader files in
  (status = 200 /\ dict_get "error" body = None
   /\ map fst body = ["account_info"; "transactions"; "totals"]%string)
  \/ (status <> 200 /\ exists msg, dict_get "error" body = Some (VStr msg)).
Proof.
  destruct (upload_pdf_cases reader files)
    as [(file & Hu & ->)|(Hn & msg & ->)].
  - destruct (reader (file_stream_of file)) as [pages|e].
    + left. repeat split.
    + right. split; [discriminate|]. simpl. eauto.
  - right. split; [discriminate|]. simpl. eauto.
Qed.

(** ** More on the Header Extractor *)

Lemma search_from_at r : forall s b mo,
  search_from r b s = Some mo ->
  exists pre s0 w b',
    s = pre ++ s0
    /\ mt r (bol_after b pre) s0 no_caps w b' (snd mo) (fst mo).
Proof.
  induction s as [|a s IH]; intros b mo H; simpl in H.
  - destruct (m r match_obj b 0 [] no_caps accept) eqn:E; [|discriminate].
    injection H as <-. apply m_sound in E.
    destruct E as (w & b' & s' & c' & Hm & E). injection E as <-.
    exists []. simpl. eauto 8.
  - destruct (m r match_obj b 0 (a :: s) no_caps accept) eqn:E.
    + injection H as <-. apply m_sound in E.
      destruct E as (w & b' & s' & c' & Hm & E). injection E as <-.
      exists []. simpl. eauto 8.
    + apply IH in H. destruct H as (pre & s0 & w & b' & -> & Hm).
      exists (a :: pre). simpl. eauto 8.
Qed.

(** What a search finds lies in the text: the text is what comes before
    the match, the match, and what is left. *)
Lemma re_search_at r text mo :
  re_search r text = Some mo ->
  exists pre w b',
    text = pre ++ w ++ snd mo
    /\ mt r (bol_after true pre) (w ++ snd mo) no_caps w b' (snd mo) (fst mo).
Proof.
  intros H. apply search_from_at in H.
  destruct H as (pre & s0 & w & b' & -> & Hm).
  pose proof (mt_app _ _ _ _ _ _ _ _ Hm) as E. subst s0. eauto 8.
Qed.

Lemma mt_blanks b s c w b' s' c' :
  mt (plus true ws) b s c w b' s' c' -> blanks w /\ c' = c.
Proof.
  unfold plus, ws. intros H. peel H H1. inv H1.
  apply mt_star_chr in H. destruct H as [-> H].
  split; [|reflexivity]. split; [discriminate|]. now constructor.
Qed.

Lemma mt_line_group b s c w b' s' c' :
  mt (Group 1 (Star false (Chr Dot))) b s c w b' s' c' ->
  ~ In "010"%char w /\ c' = upd 1 w c.
Proof.
  intros H. inv H.
  match goal with H : mt (Star _ _) _ _ _ _ _ _ _ |- _ =>
    apply mt_star_chr in H; destruct H as [-> H] end.
  split; [|reflexivity]. intros Hin.
  assert (E : cc_in Dot "010" = true); [|discriminate E].
  revert Hin. generalize "010"%char. now apply Forall_forall.
Qed.

Lemma mt_digits b s c w b' s' c' :
  mt (plus true d) b s c w b' s' c' -> w <> [] /\ all_digits w /\ c' = c.
Proof.
  unfold plus, d. intros H. peel H H1. inv H1.
  apply mt_star_chr in H. destruct H as [-> H].
  split; [discriminate|]. split; [|reflexivity]. now constructor.
Qed.

Lemma mt_date_yyyy b s c w b' s' c' :
  mt date_yyyy b s c w b' s' c' -> fixed_width D_M_Y w = true /\ c' = c.
Proof.
  unfold date_yyyy. cbv [rep lit d]. intros H. inv_mt. class_facts.
  split; [|reflexivity].
  cbn [app fixed_width]. unfold year_shape. cbn [forallb List.length].
  repeat match goal with H : is_digit _ = true |- _ => rewrite H; clear H end.
  reflexivity.
Qed.

Lemma mt_date_yy b s c w b' s' c' :
  mt date_yy b s c w b' s' c' -> fixed_width D_M_y w = true /\ c' = c.
Proof.
  unfold date_yy. cbv [rep lit d]. intros H. inv_mt. class_facts.
  split; [|reflexivity].
  cbn [app fixed_width]. unfold year_shape. cbn [forallb List.length].
  repeat match goal with H : is_digit _ = true |- _ => rewrite H; clear H end.
  reflexivity.
Qed.

Ltac peel_as H H1 x :=
  apply mt_seq_inv in H;
  let b1 := fresh "b" in let s1 := fresh "s" in
  let c1 := fresh "c" in let w2 := fresh "w" in
  destruct H as (x & b1 & s1 & c1 & w2 & H1 & H & ->).

Ltac name_word H x :=
  match type of H with mt _ _ _ _ ?w _ _ _ => rename w into x end.

(** The two patterns of a label followed by the rest of its line. *)
Lemma label_line_found label text mo :
  re_search (lit label +++ plus true ws +++ Group 1 (Star false (Chr Dot))
             +++ nl)%re text = Some mo ->
  exists value, group 1 mo = Some value /\ label_line «label» text value.
Proof.
  intros H. apply re_search_at in H.
  destruct H as (pre & w & b' & E & Hm). revert E.
  peel_as Hm H1 x1. peel_as Hm H2 x2. peel_as Hm H3 x3. name_word Hm x4.
  apply mt_lit in H1. destruct H1 as (-> & _ & ->).
  apply mt_blanks in H2. destruct H2 as (Hb & ->).
  apply mt_line_group in H3. destruct H3 as (Hn & ->).
  unfold nl in Hm. inv Hm. class_facts.
  match goal with H : upd _ _ _ = fst mo |- _ => rename H into Ec end.
  intros ->. exists x3. split; [unfold group; now rewrite <- Ec|].
  exists pre, x2, (snd mo). split; [|auto].
  rewrite <- !app_assoc. reflexivity.
Qed.

Lemma account_no_found text mo :
  re_search account_no_pattern text = Some mo ->
  exists number,
    group 1 mo = Some number /\ label_number «"Account No"» text number.
Proof.
  intros H. apply re_search_at in H.
  destruct H as (pre & w & b' & E & Hm). revert E.
  unfold account_no_pattern in Hm.
  peel_as Hm H1 x1. peel_as Hm H2 x2. name_word Hm x3.
  apply mt_lit in H1. destruct H1 as (-> & _ & ->).
  apply mt_blanks in H2. destruct H2 as (Hb & ->).
  inv Hm.
  match goal with H : mt (plus _ _) _ _ _ _ _ _ _ |- _ =>
    apply mt_digits in H; destruct H as (Hne & Hd & ->) end.
  match goal with H : upd _ _ _ = fst mo |- _ => rename H into Ec end.
  intros ->. exists x3. split; [unfold group; now rewrite <- Ec|].
  exists pre, x2, (snd mo). split; [|auto].
  rewrite <- !app_assoc. reflexivity.
Qed.

Lemma period_found text mo :
  re_search period_pattern text = Some mo ->
  exists first last,
    group 1 mo = Some first /\ group 2 mo = Some last
    /\ period_sentence text first last.
Proof.
  intros H. apply re_search_at in H.
  destruct H as (pre & w & b' & E & Hm). revert E.
  unfold period_pattern in Hm.
  peel_as Hm H1 x1. peel_as Hm H2 x2. peel_as Hm H3 x3. peel_as Hm H4 x4.
  peel_as Hm H5 x5. peel_as Hm H6 x6. name_word Hm x7.
  apply mt_lit in H1. destruct H1 as (-> & _ & ->).
  apply mt_blanks in H2. destruct H2 as (Hb1 & ->).
  inv H3.
  match goal with H : mt date_yyyy _ _ _ _ _ _ _ |- _ =>
    apply mt_date_yyyy in H; destruct H as (Hf1 & ->) end.
  apply mt_blanks in H4. destruct H4 as (Hb2 & ->).
  apply mt_lit in H5. destruct H5 as (-> & _ & ->).
  apply mt_blanks in H6. destruct H6 as (Hb3 & ->).
  inv Hm.
  match goal with H : mt date_yyyy _ _ _ _ _ _ _ |- _ =>
    apply mt_date_yyyy in H; destruct H as (Hf2 & ->) end.
  match goal with H : upd _ _ _ = fst mo |- _ => rename H into Ec end.
  intros ->. exists x3, x7. unfold group. rewrite <- Ec.
  split; [reflexivity|]. split; [reflexivity|].
  exists pre, x2, x4, x6, (snd mo). split; [|auto 6].
  rewrite <- !app_assoc. reflexivity.
Qed.

(** ** The header values, exactly *)

Lemma mt_lit_intro str : forall b s c,
  mt (lit str) b («str» ++ s) c «str» (bol_after b «str») s c.
Proof.
  induction str as [|a str IH]; intros b s c; simpl.
  - constructor.
  - eapply (mt_seq _ _ _ _ _ [a]).
    + constructor. simpl. apply Ascii.eqb_refl.
    + apply IH.
Qed.

Lemma mt_star_chr_intro g cl : forall w b s c,
  Forall (fun a => cc_in cl a = true) w ->
  mt (Star g (Chr cl)) b (w ++ s) c w (bol_after b w) s c.
Proof.
  induction w as [|a w IH]; intros b s c H; simpl.
  - constructor.
  - inversion H; subst. eapply (mt_star_cons _ _ _ _ _ [a]).
    + now constructor.
    + now apply IH.
Qed.

Lemma mt_plus_chr_intro g cl w b s c :
  w <> [] -> Forall (fun a => cc_in cl a = true) w ->
  mt (plus g (Chr cl)) b (w ++ s) c w (bol_after b w) s c.
Proof.
  destruct w as [|a w]; [congruence|]. intros _ H. inversion H; subst.
  unfold plus. simpl. eapply (mt_seq _ _ _ _ _ [a]).
  - now constructor.
  - now apply mt_star_chr_intro.
Qed.

Lemma mt_blanks_intro w b s c :
  blanks w -> mt (plus true ws) b (w ++ s) c w (bol_after b w) s c.
Proof. intros [Hne H]. now apply mt_plus_chr_intro. Qed.

Lemma mt_rep_chr_intro cl : forall n w b s c,
  List.length w = n -> Forall (fun a => cc_in cl a = true) w ->
  mt (rep n (Chr cl)) b (w ++ s) c w (bol_after b w) s c.
Proof.
  induction n as [|n IH]; intros [|a w] b s c E H; try discriminate; simpl.
  - constructor.
  - inversion H; subst. injection E as E. eapply (mt_seq _ _ _ _ _ [a]).
    + now constructor.
    + now apply IH.
Qed.

Lemma mt_date_intro f w b s c :
  fixed_width f w = true ->
  mt (match f with D_M_y => date_yy | D_M_Y => date_yyyy end)
     b (w ++ s) c w (bol_after b w) s c.
Proof.
  destruct w as [|d1 [|d2 [|s1 [|m1 [|m2 [|s2 Y]]]]]]; try discriminate.
  intros H. apply fixed_width_inv in H.
  destruct H as (-> & -> & H1 & H2 & H3 & H4 & HY & HYd).
  unfold year_shape in HY. apply andb_true_iff in HY. destruct HY as [_ HY].
  apply Nat.eqb_eq in HY.
  change (d1 :: d2 :: "/"%char :: m1 :: m2 :: "/"%char :: Y)
    with ([d1; d2] ++ «"/"» ++ [m1; m2] ++ «"/"» ++ Y).
  rewrite <- !app_assoc.
  assert (E : mt (rep 2 d +++ lit "/" +++ rep 2 d +++ lit "/"
                  +++ rep (List.length Y) d)%re b
                ([d1; d2] ++ «"/"» ++ [m1; m2] ++ «"/"» ++ Y ++ s) c
                ([d1; d2] ++ «"/"» ++ [m1; m2] ++ «"/"» ++ Y)
                (bol_after b ([d1; d2] ++ «"/"» ++ [m1; m2] ++ «"/"» ++ Y))
                s c).
  { assert (Hb : forall u v b0, bol_after b0 (u ++ v)
                                = bol_after (bol_after b0 u) v).
    { induction u; simpl; auto. }
    rewrite !Hb.
    eapply mt_seq; [apply mt_rep_chr_intro; [reflexivity|now repeat constructor]|].
    eapply mt_seq; [apply mt_lit_intro|].
    eapply mt_seq; [apply mt_rep_chr_intro; [reflexivity|now repeat constructor]|].
    eapply mt_seq; [apply mt_lit_intro|].
    apply mt_rep_chr_intro; [reflexivity|exact HYd]. }
  rewrite HY in E. destruct f; exact E.
Qed.

Lemma not_newline_dot value :
  ~ In "010"%char value -> Forall (fun a => cc_in Dot a = true) value.
Proof.
  intros Hn. apply Forall_forall. intros a Ha. simpl. unfold is_nl.
  destruct (Ascii.eqb_spec a "010"); [subst; contradiction|reflexivity].
Qed.

Lemma label_line_matches label text value :
  label_line «label» text value ->
  exists mo,
    re_search (lit label +++ plus true ws +++ Group 1 (Star false (Chr Dot))
               +++ nl)%re text = Some mo.
Proof.
  intros (pre & sp & rest & -> & Hsp & Hn). unfold re_search.
  eapply search_from_complete.
  eapply mt_seq; [apply mt_lit_intro|].
  eapply mt_seq; [apply mt_blanks_intro, Hsp|].
  eapply mt_seq; [apply mt_group, mt_star_chr_intro, not_newline_dot, Hn|].
  unfold nl. apply mt_chr. reflexivity.
Qed.

Lemma account_no_matches text number :
  label_number «"Account No"» text number ->
  exists mo, re_search account_no_pattern text = Some mo.
Proof.
  intros (pre & sp & rest & -> & Hsp & Hne & Hd). unfold re_search.
  eapply search_from_complete. unfold account_no_pattern.
  eapply mt_seq; [apply mt_lit_intro|].
  eapply mt_seq; [apply mt_blanks_intro, Hsp|].
  apply mt_group. apply mt_plus_chr_intro; assumption.
Qed.

Lemma period_matches text first last :
  period_sentence text first last ->
  exists mo, re_search period_pattern text = Some mo.
Proof.
  intros (pre & sp1 & sp2 & sp3 & rest & -> & Hs1 & Hs2 & Hs3 & Hf1 & Hf2).
  unfold re_search.
  eapply search_from_complete. unfold period_pattern.
  eapply mt_seq; [apply mt_lit_intro|].
  eapply mt_seq; [apply mt_blanks_intro, Hs1|].
  eapply mt_seq; [apply mt_group, (mt_date_intro D_M_Y), Hf1|].
  eapply mt_seq; [apply mt_blanks_intro, Hs2|].
  eapply mt_seq; [apply mt_lit_intro|].
  eapply mt_seq; [apply mt_blanks_intro, Hs3|].
  apply mt_group, (mt_date_intro D_M_Y), Hf2.
Qed.

Lemma account_info_fields (text : str) :
  exists holder number type_ period,
    account_info_of text =
      [("bank", VStr «"Islami Bank Bangladesh PLC."»);
       ("account_holder", holder);
       ("account_number", number);
       ("account_type", type_);
       ("statement_period", period)]%string
    /\ match re_search holder_pattern text with
       | Some mo => exists g, group 1 mo = Some g /\ holder = VStr (strip g)
       | None => holder = VNone
       end
    /\ match re_search account_no_pattern text with
       | Some mo => exists g, group 1 mo = Some g /\ number = VStr g
       | None => number = VNone
       end
    /\ match re_search account_type_pattern text with
       | Some mo => exists g, group 1 mo = Some g /\ type_ = VStr (strip g)
       | None => type_ = VNone
       end
    /\ match re_search period_pattern text with
       | Some mo =>
           exists g1 g2,
             group 1 mo = Some g1 /\ group 2 mo = Some g2
             /\ period =
                VDict [("start_date", VStr (convert_date_format (strip g1)));
                       ("end_date", VStr (convert_date_format (strip g2)))]%string
       | None =>
           period = VDict [("start_date", VNone); ("end_date", VNone)]%string
       end.
Proof.
  unfold account_info_of, account_info_block, group_strip.
  destruct (re_search holder_pattern text) as [m1|] eqn:E1.
  1: destruct (re_search_group_set _ _ _ 1 E1 eq_refl) as (g1 & G1);
     rewrite G1.
  all: destruct (re_search account_no_pattern text) as [m2|] eqn:E2.
  all: try (destruct (re_search_group_set _ _ _ 1 E2 eq_refl) as (g2 & G2);
            rewrite G2).
  all: destruct (re_search account_type_pattern text) as [m3|] eqn:E3.
  all: try (destruct (re_search_group_set _ _ _ 1 E3 eq_refl) as (g3 & G3);
            rewrite G3).
  all: destruct (re_search period_pattern text) as [m4|] eqn:E4.
  all: try (destruct (re_search_group_set _ _ _ 1 E4 eq_refl) as (g4 & G4);
            destruct (re_search_group_set _ _ _ 2 E4 eq_refl) as (g5 & G5);
            rewrite G4, G5).
  all: cbn [try_block assign bind dict_set opt_value String.eqb Ascii.eqb
            Bool.eqb];
    do 4 eexists; (split; [reflexivity|]); repeat split; eauto.
Qed.

Lemma fixed_width_no_space f w :
  fixed_width f w = true -> Forall (fun a => is_space a = false) w.
Proof.
  destruct w as [|d1 [|d2 [|s1 [|m1 [|m2 [|s2 Y]]]]]]; try discriminate.
  intros H. apply fixed_width_inv in H.
  destruct H as (-> & -> & H1 & H2 & H3 & H4 & _ & HYd).
  repeat (constructor; [auto using digit_not_space|]).
  eapply Forall_impl; [|exact HYd]. apply digit_not_space.
Qed.

(** X10.  The holder and the type of the account are read after their
    labels, and only there.  The value is null exactly when the text has
    nowhere the label, blanks and a rest of line closed by a newline;
    otherwise it is such a rest of line, stripped.  The blanks may hold
    newlines, so that a label alone on its line is given the next line. *)
Theorem holder_and_type_follow_their_labels (text : str) :
  let info := account_info_of text in
  ((dict_get "account_holder" info = Some VNone
    /\ ~ exists value, label_line «"Name"» text value)
   \/ exists value,
        label_line «"Name"» text value
        /\ dict_get "account_holder" info = Some (VStr (strip value)))
  /\ ((dict_get "account_type" info = Some VNone
       /\ ~ exists value, label_line «"Account Type"» text value)
      \/ exists value,
           label_line «"Account Type"» text value
           /\ dict_get "account_type" info = Some (VStr (strip value))).
Proof.
  cbv zeta.
  destruct (account_info_fields text)
    as (holder & number & type_ & period & -> & Hh & _ & Ht & _).
  split.
  - destruct (re_search holder_pattern text) as [mo|] eqn:E.
    + right. destruct Hh as (g & Hg & ->).
      apply label_line_found in E. destruct E as (value & Hv & Hl).
      exists value. split; [assumption|]. simpl. congruence.
    + left. subst holder. split; [reflexivity|]. intros (value & Hl).
      apply label_line_matches in Hl. destruct Hl as (mo & Hmo).
      unfold holder_pattern in E. congruence.
  - destruct (re_search account_type_pattern text) as [mo|] eqn:E.
    + right. destruct Ht as (g & Hg & ->).
      apply label_line_found in E. destruct E as (value & Hv & Hl).
      exists value. split; [assumption|]. simpl. congruence.
    + left. subst type_. split; [reflexivity|]. intros (value & Hl).
      apply label_line_matches in Hl. destruct Hl as (mo & Hmo).
      unfold account_type_pattern in E. congruence.
Qed.

(** X11.  The account number is null exactly when the text has nowhere
    the label Account No, blanks and a digit; otherwise it is a run of
    digits, one at least, that stands there. *)
Theorem account_number_follows_its_label (text : str) :
  let info := account_info_of text in
  (dict_get "account_number" info = Some VNone
   /\ ~ exists number, label_number «"Account No"» text number)
  \/ exists number,
       label_number «"Account No"» text number
       /\ dict_get "account_number" info = Some (VStr number).
Proof.
  cbv zeta.
  destruct (account_info_fields text)
    as (holder & number & type_ & period & -> & _ & Hn & _ & _).
  destruct (re_search account_no_pattern text) as [mo|] eqn:E.
  - right. destruct Hn as (g & Hg & ->).
    apply account_no_found in E. destruct E as (num & Hv & Hl).
    exists num. split; [assumption|]. simpl. congruence.
  - left. subst number. split; [reflexivity|]. intros (num & Hl).
    apply account_no_matches in Hl. destruct Hl as (mo & Hmo). congruence.
Qed.

(** X12.  The two dates of the statement period are null together,
    exactly when the text has nowhere the sentence of the period with two
    tokens DD/MM/YYYY; otherwise they are the two tokens of such a
    sentence, each one through the Date Normalizer. *)
Theorem statement_period_follows_its_sentence (text : str) :
  let period := dict_get "statement_period" (account_info_of text) in
  (period = Some (VDict [("start_date", VNone); ("end_date", VNone)]%string)
   /\ ~ exists first last, period_sentence text first last)
  \/ exists first last,
       period_sentence text first last
       /\ period =
          Some (VDict [("start_date", VStr (convert_date_format first));
                       ("end_date", VStr (convert_date_format last))]%string).
Proof.
  cbv zeta.
  destruct (account_info_fields text)
    as (holder & number & type_ & period & -> & _ & _ & _ & Hp).
  destruct (re_search period_pattern text) as [mo|] eqn:E.
  - right. destruct Hp as (g1 & g2 & G1 & G2 & ->).
    apply period_found in E. destruct E as (first & last & F1 & F2 & Hs).
    exists first, last. split; [assumption|].
    assert (g1 = first) as -> by congruence.
    assert (g2 = last) as -> by congruence.
    destruct Hs as (_ & _ & _ & _ & _ & _ & _ & _ & _ & Hf1 & Hf2).
    rewrite !strip_no_space by (eapply fixed_width_no_space; eassumption).
    reflexivity.
  - left. subst period. split; [reflexivity|]. intros (first & last & Hl).
    apply period_matches in Hl. destruct Hl as (mo & Hmo). congruence.
Qed.

(** ** The columns of a transaction line *)

Lemma mt_caps_same r b s c w b' s' c' :
  mt r b s c w b' s' c' -> (forall i, group_bodies i r = []) -> c' = c.
Proof.
  induction 1; intros Hg; auto.
  - rewrite IHmt2, IHmt1; auto; intros i; specialize (Hg i); simpl in Hg;
      apply app_eq_nil in Hg; tauto.
  - apply IHmt. intros i. specialize (Hg i). simpl in Hg.
    apply app_eq_nil in Hg. tauto.
  - apply IHmt. intros i. specialize (Hg i). simpl in Hg.
    apply app_eq_nil in Hg. tauto.
  - rewrite IHmt2, IHmt1; auto.
  - specialize (Hg i). simpl in Hg. rewrite Nat.eqb_refl in Hg. discriminate.
Qed.

Lemma mt_digits_1_3 b s c w b' s' c' :
  mt (rep_range 1 3 d) b s c w b' s' c' ->
  1 <= List.length w <= 3 /\ all_digits w.
Proof.
  cbv [rep_range rep upto opt Nat.sub d]. intros H. inv_mt; class_facts;
    simpl; (split; [lia|]); repeat constructor; assumption.
Qed.

Lemma mt_comma_groups b s c w b' s' c' :
  mt (Star true (lit "," +++ rep 3 d)%re) b s c w b' s' c' ->
  exists groups,
    w = List.concat (map (fun g => ","%char :: g) groups)
    /\ Forall (fun g => List.length g = 3 /\ all_digits g) groups.
Proof.
  intros H. remember (Star true (lit "," +++ rep 3 d)%re) as r eqn:Er.
  induction H; inversion Er; subst; clear Er.
  - exists []. auto.
  - destruct (IHmt2 eq_refl) as (groups & -> & HF).
    cbv [lit rep d] in H. inv_mt. class_facts.
    match goal with |- context [ [?x] ++ [?y] ++ [?z] ++ [] ] =>
      exists ([x; y; z] :: groups) end.
    split; [reflexivity|].
    constructor; [|assumption]. split; [reflexivity|].
    repeat constructor; assumption.
Qed.

Lemma mt_amount_word b s c w b' s' c' :
  mt amount b s c w b' s' c' -> amount_word w.
Proof.
  unfold amount. intros H. peel_as H H1 h. peel_as H H2 gs. peel_as H H3 pt.
  apply mt_digits_1_3 in H1. destruct H1 as [Hl Hh].
  apply mt_comma_groups in H2. destruct H2 as (groups & -> & HF).
  apply mt_lit in H3. destruct H3 as (-> & _ & _).
  cbv [rep d] in H. inv_mt. class_facts.
  match goal with |- context [ [?x] ++ [?y] ++ [] ] =>
    exists h, groups, x, y end.
  simpl. repeat split; auto; lia.
Qed.

Lemma zero_amount_word : amount_word «"0.00"».
Proof.
  exists ["0"%char], [], "0"%char, "0"%char. simpl.
  repeat split; auto. repeat constructor.
Qed.

Lemma mt_amount_or_zero_word b s c w b' s' c' :
  mt amount_or_zero b s c w b' s' c' -> amount_word w.
Proof.
  unfold amount_or_zero. intros H. inv H.
  - eapply mt_amount_word; eassumption.
  - match goal with H : mt _ _ _ _ _ _ _ _ |- _ =>
      apply (mt_lit "0.00") in H; destruct H as (-> & _ & _) end.
    apply zero_amount_word.
Qed.

Lemma amount_word_nonempty w : amount_word w -> w <> [].
Proof.
  intros (h & groups & a1 & a2 & -> & Hl & _). destruct h; simpl in *;
    [lia|discriminate].
Qed.

Lemma optional_capture_amount w :
  amount_word w -> optional_capture w = Some w.
Proof.
  intros H. apply amount_word_nonempty in H. now destruct w.
Qed.

Lemma mt_plus_chr g cl b s c w b' s' c' :
  mt (plus g (Chr cl)) b s c w b' s' c' ->
  w <> [] /\ Forall (fun a => cc_in cl a = true) w /\ c' = c.
Proof.
  unfold plus. intros H. peel H H1. inv H1.
  apply mt_star_chr in H. destruct H as [-> H].
  split; [discriminate|]. split; [|reflexivity]. now constructor.
Qed.

(** The lookahead of the pattern. *)
Lemma mt_lookahead b s c w b' s' c' :
  mt (Alt amount (Alt (lit "0.00") (plus true ws +++ amount)%re))
     b s c w b' s' c' ->
  numeric_start s /\ c' = c.
Proof.
  intros H. pose proof (mt_app _ _ _ _ _ _ _ _ H) as E.
  assert (Ec : c' = c) by (eapply mt_caps_same; [exact H|reflexivity]).
  split; [|exact Ec]. subst s. inv H.
  - exists [], w, s'. split; [reflexivity|]. split; [constructor|].
    eapply mt_amount_word; eassumption.
  - match goal with H : mt (Alt _ _) _ _ _ _ _ _ _ |- _ => inv H end.
    + match goal with H : mt _ _ _ _ _ _ _ _ |- _ =>
        apply (mt_lit "0.00") in H; destruct H as (-> & _ & _) end.
      exists [], «"0.00"», s'. split; [reflexivity|]. split; [constructor|].
      apply zero_amount_word.
    + match goal with H : mt (Seq _ _) _ _ _ _ _ _ _ |- _ =>
        rename H into Hs end.
      peel_as Hs H1 sp. name_word Hs a.
      apply mt_blanks in H1. destruct H1 as ((_ & Hsp) & _).
      exists sp, a, s'. split; [now rewrite <- app_assoc|].
      split; [assumption|]. eapply mt_amount_word; eassumption.
Qed.

Lemma mt_optional_reference b s c w b' s' c' :
  mt (opt (Group 4 (plus true (Chr alnum)))) b s c w b' s' c' ->
  Forall (fun a => cc_in alnum a = true) w
  /\ c' = match optional_capture w with Some g => upd 4 g c | None => c end.
Proof.
  unfold opt. intros H. inv H.
  - match goal with H : mt (Group _ _) _ _ _ _ _ _ _ |- _ => inv H end.
    match goal with H : mt (plus _ _) _ _ _ _ _ _ _ |- _ =>
      apply mt_plus_chr in H; destruct H as (Hne & HF & ->) end.
    split; [assumption|]. destruct w; [congruence|reflexivity].
  - match goal with H : mt Eps _ _ _ _ _ _ _ |- _ => inv H end.
    split; [constructor|reflexivity].
Qed.

Lemma mt_optional_amount i b s c w b' s' c' :
  mt (opt (Group i amount_or_zero)) b s c w b' s' c' ->
  optional_amount w
  /\ c' = match optional_capture w with Some g => upd i g c | None => c end.
Proof.
  unfold opt. intros H. inv H.
  - match goal with H : mt (Group _ _) _ _ _ _ _ _ _ |- _ => inv H end.
    match goal with H : mt amount_or_zero _ _ _ _ _ _ _ |- _ =>
      pose proof (mt_caps_same _ _ _ _ _ _ _ _ H (fun _ => eq_refl)) as ->;
      apply mt_amount_or_zero_word in H; rename H into Hw end.
    split; [now right|]. now rewrite optional_capture_amount.
  - match goal with H : mt Eps _ _ _ _ _ _ _ |- _ => inv H end.
    split; [now left|reflexivity].
Qed.

Lemma mt_dot_group i b s c w b' s' c' :
  mt (Group i (Star false (Chr Dot))) b s c w b' s' c' ->
  ~ In "010"%char w /\ c' = upd i w c.
Proof.
  intros H. inv H.
  match goal with H : mt (Star _ _) _ _ _ _ _ _ _ |- _ =>
    apply mt_star_chr in H; destruct H as [-> H] end.
  split; [|reflexivity]. intros Hin.
  assert (E : cc_in Dot "010" = true); [|discriminate E].
  revert Hin. generalize "010"%char. now apply Forall_forall.
Qed.

(** What a match of the transaction pattern has read. *)
Lemma transaction_layout s mo :
  re_match transaction_pattern s = Some mo ->
  exists cs, line_layout s cs /\ reads_columns mo cs.
Proof.
  intros H. apply re_match_sound in H. destruct H as (w & b' & Hm).
  pose proof (mt_app _ _ _ _ _ _ _ _ Hm) as Es. revert Es.
  unfold transaction_pattern in Hm.
  peel_as Hm P1 td. peel_as Hm P2 sp1. peel_as Hm P3 pd. peel_as Hm P4 sp2.
  peel_as Hm P5 ds. peel_as Hm P6 sp3. peel_as Hm PA la. peel_as Hm PG rf.
  peel_as Hm P7 sp4. peel_as Hm P8 wd. peel_as Hm P9 sp5. peel_as Hm P10 dp.
  peel_as Hm P11 sp6. name_word Hm bl.
  pose proof (mt_app _ _ _ _ _ _ _ _ PG) as EG.
  pose proof (mt_app _ _ _ _ _ _ _ _ P7) as E7.
  pose proof (mt_app _ _ _ _ _ _ _ _ P8) as E8.
  pose proof (mt_app _ _ _ _ _ _ _ _ P9) as E9.
  pose proof (mt_app _ _ _ _ _ _ _ _ P10) as E10.
  pose proof (mt_app _ _ _ _ _ _ _ _ P11) as E11.
  pose proof (mt_app _ _ _ _ _ _ _ _ Hm) as E12.
  subst.
  inv P1.
  match goal with H : mt date_yy _ _ _ _ _ _ _ |- _ =>
    apply mt_date_yy in H; destruct H as (Hf1 & ->) end.
  apply mt_blanks in P2. destruct P2 as (Hs1 & ->).
  inv P3.
  match goal with H : mt date_yy _ _ _ _ _ _ _ |- _ =>
    apply mt_date_yy in H; destruct H as (Hf2 & ->) end.
  apply mt_blanks in P4. destruct P4 as (Hs2 & ->).
  apply mt_dot_group in P5. destruct P5 as (Hds & ->).
  apply mt_blanks in P6. destruct P6 as (Hs3 & ->).
  inv PA.
  match goal with H : mt (Alt amount _) _ _ _ _ _ _ _ |- _ =>
    apply mt_lookahead in H; destruct H as (Hla & ->) end.
  apply mt_optional_reference in PG. destruct PG as (Hrf & ->).
  apply mt_star_chr in P7. destruct P7 as (-> & Hs4).
  apply mt_optional_amount in P8. destruct P8 as (Hwd & ->).
  apply mt_blanks in P9. destruct P9 as (Hs5 & ->).
  apply mt_optional_amount in P10. destruct P10 as (Hdp & ->).
  apply mt_blanks in P11. destruct P11 as (Hs6 & ->).
  inv Hm.
  match goal with H : mt amount _ _ _ _ _ _ _ |- _ =>
    pose proof (mt_caps_same _ _ _ _ _ _ _ _ H (fun _ => eq_refl)) as ->;
    apply mt_amount_word in H; rename H into Hbl end.
  match goal with H : upd _ _ _ = fst mo |- _ => rename H into Ec end.
  intros Es.
  exists (mkcolumns td pd ds rf wd dp bl (snd mo)). split.
  - exists sp1, sp2, sp3, sp4, sp5, sp6. cbn [col_date col_post_date
      col_description col_reference col_withdrawal col_deposit col_balance
      col_rest].
    split; [rewrite Es, <- !app_assoc; reflexivity|].
    repeat (split; [assumption|]). assumption.
  - unfold reads_columns, group. rewrite <- Ec.
    cbn [col_date col_post_date col_description col_reference col_withdrawal
         col_deposit col_balance col_rest].
    destruct (optional_capture rf), (optional_capture wd),
      (optional_capture dp); repeat split; reflexivity.
Qed.

(** *** A line with the columns is matched *)

Lemma bol_after_app : forall u v b,
  bol_after b (u ++ v) = bol_after (bol_after b u) v.
Proof. induction u; simpl; auto. Qed.

Lemma mt_seq_eq r1 r2 b s c w w1 b1 s1 c1 w2 b2 s2 c2 :
  mt r1 b s c w1 b1 s1 c1 -> mt r2 b1 s1 c1 w2 b2 s2 c2 -> w = w1 ++ w2 ->
  mt (Seq r1 r2) b s c w b2 s2 c2.
Proof. intros H1 H2 ->. econstructor; eassumption. Qed.

Lemma mt_digits_1_3_intro h b s c :
  1 <= List.length h <= 3 -> all_digits h ->
  mt (rep_range 1 3 d) b (h ++ s) c h (bol_after b h) s c.
Proof.
  intros Hl Hd. cbv [rep_range rep upto opt Nat.sub d].
  destruct h as [|x [|y [|z [|]]]]; simpl in Hl; try lia.
  - inversion Hd; subst.
    eapply mt_seq_eq; [eapply mt_seq_eq; [now apply mt_chr|apply mt_eps|]
                      |apply mt_alt_r, mt_eps|]; reflexivity.
  - inversion Hd as [|? ? Hx Hd1]; subst. inversion Hd1; subst.
    eapply mt_seq_eq; [eapply mt_seq_eq; [now apply mt_chr|apply mt_eps|]
                      | |]; [reflexivity| |reflexivity].
    apply mt_alt_l. eapply mt_seq_eq; [now apply mt_chr| |reflexivity].
    apply mt_alt_r, mt_eps.
  - inversion Hd as [|? ? Hx Hd1]; subst.
    inversion Hd1 as [|? ? Hy Hd2]; subst. inversion Hd2; subst.
    eapply mt_seq_eq; [eapply mt_seq_eq; [now apply mt_chr|apply mt_eps|]
                      | |]; [reflexivity| |reflexivity].
    apply mt_alt_l. eapply mt_seq_eq; [now apply mt_chr| |reflexivity].
    apply mt_alt_l. eapply mt_seq_eq; [now apply mt_chr|apply mt_eps|].
    reflexivity.
Qed.

Lemma mt_comma_groups_intro : forall groups b s c,
  Forall (fun g => List.length g = 3 /\ all_digits g) groups ->
  mt (Star true (lit "," +++ rep 3 d)%re) b
     (List.concat (map (fun g => ","%char :: g) groups) ++ s) c
     (List.concat (map (fun g => ","%char :: g) groups))
     (bol_after b (List.concat (map (fun g => ","%char :: g) groups))) s c.
Proof.
  induction groups as [|g groups IH]; intros b s c HF;
    cbn [map List.concat].
  - constructor.
  - inversion HF as [|? ? [Hl Hd] HF']; subst.
    rewrite bol_after_app, <- app_assoc.
    eapply mt_star_cons; [|apply IH; assumption].
    change (","%char :: g) with («","» ++ g).
    rewrite bol_after_app, <- app_assoc.
    eapply mt_seq; [apply mt_lit_intro|].
    apply mt_rep_chr_intro; assumption.
Qed.

Lemma mt_amount_intro w b s c :
  amount_word w -> mt amount b (w ++ s) c w (bol_after b w) s c.
Proof.
  intros (h & groups & a1 & a2 & -> & Hl & Hh & HF & H1 & H2).
  unfold amount. rewrite !bol_after_app, <- !app_assoc.
  eapply mt_seq; [apply mt_digits_1_3_intro; assumption|].
  eapply mt_seq; [apply mt_comma_groups_intro; assumption|].
  change ["."%char; a1; a2] with («"."» ++ [a1; a2]).
  rewrite bol_after_app, <- app_assoc.
  eapply mt_seq; [apply mt_lit_intro|].
  apply mt_rep_chr_intro; [reflexivity|]. now repeat constructor.
Qed.

Lemma mt_lookahead_intro s b c :
  numeric_start s ->
  mt (Ahead (Alt amount (Alt (lit "0.00") (plus true ws +++ amount)%re)))
     b s c [] b s c.
Proof.
  intros (sp & a & t & -> & Hsp & Ha).
  destruct sp as [|x sp].
  - eapply mt_ahead. apply mt_alt_l. simpl app.
    apply mt_amount_intro. exact Ha.
  - eapply mt_ahead. apply mt_alt_r, mt_alt_r.
    eapply mt_seq; [apply mt_blanks_intro; split; [discriminate|exact Hsp]|].
    apply mt_amount_intro. exact Ha.
Qed.

Lemma mt_optional_reference_intro rf b s c :
  Forall (fun a => cc_in alnum a = true) rf ->
  mt (opt (Group 4 (plus true (Chr alnum)))) b (rf ++ s) c rf
     (bol_after b rf) s
     (match optional_capture rf with Some g => upd 4 g c | None => c end).
Proof.
  intros H. destruct rf as [|a rf].
  - apply mt_alt_r. constructor.
  - apply mt_alt_l. cbn [optional_capture].
    apply mt_group, mt_plus_chr_intro; [discriminate|assumption].
Qed.

Lemma mt_optional_amount_intro i w b s c :
  optional_amount w ->
  mt (opt (Group i amount_or_zero)) b (w ++ s) c w (bol_after b w) s
     (match optional_capture w with Some g => upd i g c | None => c end).
Proof.
  intros [->|H].
  - apply mt_alt_r. constructor.
  - rewrite (optional_capture_amount w H).
    apply mt_alt_l, mt_group, mt_alt_l, mt_amount_intro, H.
Qed.

Lemma line_layout_matches s cs :
  line_layout s cs -> exists mo, re_match transaction_pattern s = Some mo.
Proof.
  intros (sp1 & sp2 & sp3 & sp4 & sp5 & sp6 & -> & Hf1 & Hs1 & Hf2 & Hs2
          & Hds & Hs3 & Hla & Hrf & Hs4 & Hwd & Hs5 & Hdp & Hs6 & Hbl).
  eapply re_match_complete. unfold transaction_pattern.
  eapply mt_seq; [apply mt_group, (mt_date_intro D_M_y), Hf1|].
  eapply mt_seq; [apply mt_blanks_intro, Hs1|].
  eapply mt_seq; [apply mt_group, (mt_date_intro D_M_y), Hf2|].
  eapply mt_seq; [apply mt_blanks_intro, Hs2|].
  eapply mt_seq; [apply mt_group, mt_star_chr_intro, not_newline_dot, Hds|].
  eapply mt_seq; [apply mt_blanks_intro, Hs3|].
  eapply mt_seq; [apply mt_lookahead_intro, Hla|].
  eapply mt_seq; [apply mt_optional_reference_intro, Hrf|].
  eapply mt_seq; [apply mt_star_chr_intro, Hs4|].
  eapply mt_seq; [apply mt_optional_amount_intro, Hwd|].
  eapply mt_seq; [apply mt_blanks_intro, Hs5|].
  eapply mt_seq; [apply mt_optional_amount_intro, Hdp|].
  eapply mt_seq; [apply mt_blanks_intro, Hs6|].
  apply mt_group, mt_amount_intro, Hbl.
Qed.

(** *** The record of the columns *)

Lemma float_hundredths u a1 a2 :
  all_digits u -> is_digit a1 = true -> is_digit a2 = true ->
  float (u ++ ["."%char; a1; a2])
  = Some (decimal (digits_val (u ++ [a1; a2])) 2).
Proof.
  intros Hu H1 H2. unfold float.
  rewrite strip_no_space.
  2:{ apply Forall_app. split.
      - eapply Forall_impl; [|exact Hu]. apply digit_not_space.
      - repeat constructor; auto using digit_not_space. }
  assert (Hall : forallb is_digit (u ++ [a1; a2]) = true).
  { apply forallb_digits, Forall_app. split; auto. }
  assert (Hun : float_unsigned (u ++ ["."%char; a1; a2])
                = Some (decimal (digits_val (u ++ [a1; a2])) 2)).
  { unfold float_unsigned. rewrite split_dot_digits by assumption.
    rewrite Hall. rewrite length_app, Nat.add_comm. reflexivity. }
  destruct u as [|a u]; simpl app in *.
  - change (Ascii.eqb "." "-") with false. change (Ascii.eqb "." "+") with false.
    exact Hun.
  - inversion Hu; subst.
    destruct (digit_not_sign a) as [-> ->]; auto.
Qed.

Lemma remove_commas_filter : forall u,
  Forall (fun a => is_digit a = true \/ a = ","%char) u ->
  remove_commas u = filter is_digit u /\ all_digits (filter is_digit u).
Proof.
  induction 1 as [|a u Ha _ [IH1 IH2]]; simpl; [split; constructor|].
  destruct Ha as [Ha| ->].
  - rewrite (digit_not_comma a Ha), Ha. simpl. rewrite IH1.
    split; [reflexivity|]. now constructor.
  - simpl. auto.
Qed.

Lemma comma_groups_chars groups :
  Forall (fun g => List.length g = 3 /\ all_digits g) groups ->
  Forall (fun a => is_digit a = true \/ a = ","%char)
         (List.concat (map (fun g => ","%char :: g) groups)).
Proof.
  induction 1 as [|g groups [_ Hg] _ IH]; simpl; [constructor|].
  constructor; [now right|]. apply Forall_app. split; [|assumption].
  eapply Forall_impl; [|exact Hg]. intros a Ha. now left.
Qed.

(** The shape of an amount, for [float]: digits and commas, a point and
    two digits. *)
Lemma amount_word_parts w :
  amount_word w ->
  exists u a1 a2,
    w = u ++ ["."%char; a1; a2]
    /\ Forall (fun a => is_digit a = true \/ a = ","%char) u
    /\ is_digit a1 = true /\ is_digit a2 = true.
Proof.
  intros (h & groups & a1 & a2 & -> & _ & Hh & HF & H1 & H2).
  exists (h ++ List.concat (map (fun g => ","%char :: g) groups)), a1, a2.
  split; [now rewrite <- app_assoc|]. split; [|auto].
  apply Forall_app. split; [|now apply comma_groups_chars].
  eapply Forall_impl; [|exact Hh]. intros a Ha. now left.
Qed.

Lemma amount_word_no_space w :
  amount_word w -> Forall (fun a => is_space a = false) w.
Proof.
  intros H. apply amount_word_parts in H.
  destruct H as (u & a1 & a2 & -> & Hu & H1 & H2).
  apply Forall_app. split.
  - eapply Forall_impl; [|exact Hu].
    intros a [Ha| ->]; [now apply digit_not_space|reflexivity].
  - repeat constructor; auto using digit_not_space.
Qed.

Lemma amount_word_float w :
  amount_word w -> float (remove_commas (strip w)) = Some (amount_value w).
Proof.
  intros H. rewrite strip_no_space by now apply amount_word_no_space.
  apply amount_word_parts in H.
  destruct H as (u & a1 & a2 & -> & Hu & H1 & H2).
  destruct (remove_commas_filter u Hu) as [E Hd].
  unfold amount_value. rewrite remove_commas_app, E.
  unfold remove_commas at 1. rewrite filter_app. cbn [filter].
  rewrite (digit_not_comma a1 H1), (digit_not_comma a2 H2), H1, H2.
  change (is_digit ".") with false. change (Ascii.eqb "." ",") with false.
  cbn [negb]. now apply float_hundredths.
Qed.

Lemma optional_amount_float w :
  optional_amount w ->
  float_or_zero (remove_commas (strip (or_zero (optional_capture w))))
  = Some (amount_value w).
Proof.
  intros [->|H]; [vm_compute; reflexivity|].
  rewrite (optional_capture_amount w H).
  pose proof (amount_word_nonempty w H) as Hne.
  destruct w as [|a w]; [congruence|]. cbn [or_zero].
  unfold float_or_zero.
  destruct (is_empty _) eqn:Ee; [|now apply amount_word_float].
  pose proof (amount_word_float _ H) as Hf.
  destruct (remove_commas (strip (a :: w))); [|discriminate Ee].
  discriminate Hf.
Qed.

Lemma transaction_record_of_columns s mo cs :
  line_layout s cs -> reads_columns mo cs ->
  exists rc, transaction_record mo = Some rc
             /\ VDict rc = record_of_columns cs.
Proof.
  intros (sp1 & sp2 & sp3 & sp4 & sp5 & sp6 & _ & _ & _ & _ & _
          & _ & _ & _ & Hrf & _ & Hwd & _ & Hdp & _ & Hbl)
         (G1 & G2 & G3 & G4 & G5 & G6 & G7 & _).
  unfold transaction_record. rewrite G1, G2, G3, G4, G5, G6, G7.
  rewrite (optional_amount_float _ Hwd), (optional_amount_float _ Hdp).
  rewrite <- (optional_capture_amount _ Hbl),
    (optional_amount_float _ (or_intror Hbl)).
  cbn [bind]. eexists. split; [reflexivity|].
  unfold record_of_columns. repeat f_equal.
  destruct (col_reference cs) as [|a rf]; [reflexivity|].
  cbn [optional_capture opt_value]. f_equal. apply strip_no_space.
  eapply Forall_impl; [|exact Hrf]. apply alnum_not_space.
Qed.

Lemma record_of_line_columns line :
  (record_of_line line = []
   /\ ~ exists cs, line_layout (strip line) cs)
  \/ exists cs,
       line_layout (strip line) cs
       /\ record_of_line line = [record_of_columns cs].
Proof.
  unfold record_of_line.
  destruct (re_match transaction_pattern (strip line)) as [mo|] eqn:E.
  - right. destruct (transaction_layout _ _ E) as (cs & Hl & Hr).
    exists cs. split; [assumption|].
    destruct (transaction_record_of_columns _ _ _ Hl Hr) as (rc & -> & <-).
    reflexivity.
  - left. split; [reflexivity|]. intros (cs & Hl).
    apply line_layout_matches in Hl. destruct Hl as (mo & Hmo). congruence.
Qed.

Lemma transactions_of_columns t text :
  In t (transactions_of text) ->
  exists line cs,
    In line (retained_lines text) /\ line_layout (strip line) cs
    /\ t = record_of_columns cs.
Proof.
  rewrite transactions_of_spec, in_flat_map. intros (line & Hl & Ht).
  destruct (record_of_line_columns line) as [[E _]|(cs & Hc & E)];
    rewrite E in Ht; [destruct Ht|].
  destruct Ht as [<-|[]]. eauto.
Qed.

Lemma amount_value_reads w : reads_amount w (amount_value w).
Proof.
  assert (Hh : hundredths (amount_value w)).
  { exists (digits_val (filter is_digit w)). split; [|reflexivity].
    apply digits_val_nonneg; [|lia].
    apply Forall_forall. intros a Ha. apply filter_In in Ha. tauto. }
  split; [|auto]. destruct Hh as (n & Hn & ->). now apply decimal_nonneg.
Qed.



(** X14.  Every amount of every record, the balance as well as the
    withdrawal and the deposit, is read from a column of a line of the
    text, an amount with two decimals or an empty column: it is not
    negative and, when the column has at most fifteen digits, it is the
    decimal the column spells, a whole number of hundredths. *)
Theorem amounts_are_hundredths (text : str) :
  Forall (fun t =>
            exists line cs w dp bl,
              In line (retained_lines text) /\ line_layout (strip line) cs
              /\ get "withdrawal" t = Some (VNum w)
              /\ get "deposit" t = Some (VNum dp)
              /\ get "balance" t = Some (VNum bl)
              /\ reads_amount (col_withdrawal cs) w
              /\ reads_amount (col_deposit cs) dp
              /\ reads_amount (col_balance cs) bl)
         (transactions_of text).
Proof.
  apply Forall_forall. intros t Ht.
  apply transactions_of_columns in Ht.
  destruct Ht as (line & cs & Hin & Hl & ->).
  exists line, cs, (amount_value (col_withdrawal cs)),
    (amount_value (col_deposit cs)), (amount_value (col_balance cs)).
  split; [assumption|]. split; [assumption|].
  split; [reflexivity|]. split; [reflexivity|]. split; [reflexivity|].
  auto using amount_value_reads.
Qed.

(** *** Where a reference comes from *)

Lemma run_prefix (P : ascii -> Prop) : forall (u h : str) p q r,
  u ++ r = h ++ p :: q -> Forall P u -> ~ P p -> exists h', h = u ++ h'.
Proof.
  induction u as [|a u IH]; intros h p q r E Hu Hp; [now exists h|].
  inversion Hu; subst. destruct h as [|b h]; simpl in E.
  - injection E as -> _. contradiction.
  - injection E as -> E. destruct (IH h p q r E) as (h' & ->); auto.
    now exists h'.
Qed.

Lemma run_unique : forall (h1 h2 : str) p1 p2 t1 t2,
  h1 ++ p1 :: t1 = h2 ++ p2 :: t2 ->
  all_digits h1 -> all_digits h2 ->
  is_digit p1 = false -> is_digit p2 = false -> h1 = h2.
Proof.
  induction h1 as [|a h1 IH]; intros h2 p1 p2 t1 t2 E H1 H2 Hp1 Hp2.
  - destruct h2 as [|b h2]; [reflexivity|]. simpl in E. injection E as -> _.
    inversion H2; subst. congruence.
  - inversion H1; subst. destruct h2 as [|b h2]; simpl in E.
    + injection E as -> _. congruence.
    + injection E as -> E. inversion H2; subst. f_equal. eauto.
Qed.

(** An amount is a run of one to three digits and a tail that begins
    with a comma or a point; the tail makes an amount after any such
    run. *)
Lemma amount_word_head a :
  amount_word a ->
  exists h p q,
    a = h ++ p :: q /\ 1 <= List.length h <= 3 /\ all_digits h
    /\ is_digit p = false /\ cc_in alnum p = false /\ is_space p = false
    /\ forall h0, 1 <= List.length h0 <= 3 -> all_digits h0 ->
                  amount_word (h0 ++ p :: q).
Proof.
  intros (h & groups & a1 & a2 & -> & Hl & Hh & HF & H1 & H2).
  destruct groups as [|g groups].
  - exists h, "."%char, [a1; a2]. repeat split; auto; try lia.
    intros h0 Hl0 Hd0. exists h0, [], a1, a2. repeat split; auto; lia.
  - exists h, ","%char,
      (g ++ List.concat (map (fun g => ","%char :: g) groups)
         ++ ["."%char; a1; a2]).
    split; [simpl; now rewrite <- app_assoc|].
    repeat split; auto; try lia.
    intros h0 Hl0 Hd0. exists h0, (g :: groups), a1, a2.
    split; [simpl; now rewrite <- app_assoc|]. repeat split; auto; lia.
Qed.

Lemma head_not_blank (sp : str) x t u :
  x :: t = sp ++ u -> is_space x = false ->
  Forall (fun a => is_space a = true) sp -> sp = [].
Proof.
  intros E Hx Hsp. destruct sp as [|a sp]; [reflexivity|].
  simpl in E. injection E as <- _. inversion Hsp; subst. congruence.
Qed.

(** The reference group at the beginning of the numeric section. *)
Lemma numeric_section_reference rf sp4 wd sp5 rest :
  numeric_start (rf ++ sp4 ++ wd ++ sp5 ++ rest) ->
  Forall (fun a => cc_in alnum a = true) rf -> rf <> [] ->
  Forall (fun a => is_space a = true) sp4 ->
  optional_amount wd -> blanks sp5 ->
  sp4 = [] /\ 1 <= List.length rf <= 2 /\ all_digits rf
  /\ wd <> [] /\ amount_word (rf ++ wd).
Proof.
  intros Hla Hrf Hne Hs4 Hwd Hs5.
  destruct Hla as (sp & a & t' & E & Hsp & Ha).
  destruct rf as [|x rf]; [congruence|]. clear Hne.
  assert (Hx : is_space x = false)
    by (inversion Hrf; subst; now apply alnum_not_space).
  assert (sp = []) as ->.
  { eapply (head_not_blank sp x); [|exact Hx|exact Hsp].
    simpl in E. exact E. }
  rewrite app_nil_l in E.
  destruct (amount_word_head a Ha)
    as (h & p & q & -> & Hl & Hh & Hp & Hpa & Hps & Hre).
  rewrite <- app_assoc in E.
  change ((p :: q) ++ t') with (p :: q ++ t') in E.
  destruct (run_prefix (fun a => cc_in alnum a = true) (x :: rf) h p
              (q ++ t') _ E Hrf) as (h' & ->); [congruence|].
  rewrite <- app_assoc in E. apply app_inv_head in E.
  apply Forall_app in Hh. destruct Hh as [Hrd Hh'].
  rewrite length_app in Hl.
  destruct Hs5 as [Hne5 Hs5].
  assert (Hsp5 : exists y sp5', sp5 = y :: sp5' /\ is_space y = true).
  { destruct sp5 as [|y sp5']; [congruence|]. inversion Hs5; subst. eauto. }
  destruct Hsp5 as (y5 & sp5' & -> & Hy5).
  destruct h' as [|y h'].
  - (* the run of digits would end with the reference *)
    exfalso. simpl in E.
    destruct sp4 as [|z sp4].
    + destruct Hwd as [->|Hw].
      * simpl in E. injection E as -> _. congruence.
      * destruct (amount_word_head wd Hw)
          as ([|z h2] & p2 & q2 & -> & Hl2 & Hh2 & _); [simpl in Hl2; lia|].
        simpl in E. injection E as -> _. inversion Hh2; subst. congruence.
    + simpl in E. injection E as -> _. inversion Hs4; subst.
      simpl in *. congruence.
  - inversion Hh'; subst.
    assert (sp4 = []) as ->.
    { eapply (head_not_blank sp4 y); [|now apply digit_not_space|exact Hs4].
      symmetry. exact E. }
    simpl app in E.
    destruct Hwd as [->|Hw].
    { simpl in E. injection E as -> _.
      exfalso.
      match goal with H : is_digit ?z = true, H' : is_space ?z = true |- _ =>
        apply digit_not_space in H; congruence end. }
    destruct (amount_word_head wd Hw)
      as (h2 & p2 & q2 & Ew & Hl2 & Hh2 & Hp2 & _ & _ & Hre2).
    assert (Eh : h2 = y :: h').
    { subst wd. rewrite <- app_assoc in E. simpl in E.
      eapply run_unique; [exact E| | | |]; auto. }
    simpl in Hl.
    split; [reflexivity|]. split; [simpl; lia|]. split; [assumption|].
    split; [now apply amount_word_nonempty|].
    subst wd. rewrite app_assoc. apply Hre2.
    + rewrite length_app, Eh. simpl in *. lia.
    + apply Forall_app. split; [assumption|]. rewrite Eh. assumption.
Qed.

Lemma reference_in_amount s cs :
  line_layout s cs -> col_reference cs <> [] ->
  1 <= List.length (col_reference cs) <= 2
  /\ all_digits (col_reference cs)
  /\ col_withdrawal cs <> []
  /\ amount_word (col_reference cs ++ col_withdrawal cs)
  /\ exists pre sp sp' post,
       s = pre ++ sp ++ (col_reference cs ++ col_withdrawal cs)
               ++ sp' ++ post
       /\ blanks sp /\ blanks sp'.
Proof.
  intros (sp1 & sp2 & sp3 & sp4 & sp5 & sp6 & Es & _ & _ & _ & _
          & _ & Hs3 & Hla & Hrf & Hs4 & Hwd & Hs5 & _ & _ & _) Hne.
  destruct cs as [td pd ds rf wd dp bl rest]. simpl in *.
  destruct (numeric_section_reference _ _ _ _ _ Hla Hrf Hne Hs4 Hwd Hs5)
    as (-> & Hl & Hd & Hw & Ha).
  repeat (split; [assumption|]).
  exists (td ++ sp1 ++ pd ++ sp2 ++ ds), sp3, sp5, (dp ++ sp6 ++ bl ++ rest).
  split; [|split; assumption].
  rewrite Es, <- !app_assoc. reflexivity.
Qed.

(** X15.  A reference, when a record has one, is not a reference number
    of the line: it is the first digit, or the first two digits, of an
    amount that stands between blanks on the line, and the withdrawal of
    the record is read from what remains of this amount: it is the
    decimal the remainder spells when the remainder has at most fifteen
    digits. *)
Theorem reference_is_cut_from_an_amount (text : str) :
  Forall (fun t =>
            get "reference" t = Some VNone
            \/ exists line g wd q,
                 In line (retained_lines text)
                 /\ get "reference" t = Some (VStr g)
                 /\ 1 <= List.length g <= 2 /\ all_digits g
                 /\ wd <> [] /\ amount_word (g ++ wd)
                 /\ get "withdrawal" t = Some (VNum q)
                 /\ reads_amount wd q
                 /\ exists pre sp sp' post,
                      strip line = pre ++ sp ++ (g ++ wd) ++ sp' ++ post
                      /\ blanks sp /\ blanks sp')
         (transactions_of text).
Proof.
  apply Forall_forall. intros t Ht.
  apply transactions_of_columns in Ht.
  destruct Ht as (line & cs & Hin & Hl & ->).
  destruct (col_reference cs) as [|x rf] eqn:Er; [left; simpl; now rewrite Er|].
  right.
  destruct (reference_in_amount _ _ Hl) as (H1 & H2 & H3 & H4 & H5);
    [congruence|].
  rewrite Er in *.
  exists line, (x :: rf), (col_withdrawal cs),
    (amount_value (col_withdrawal cs)).
  split; [assumption|]. split; [simpl; now rewrite Er|].
  split; [lia|]. split; [assumption|]. split; [assumption|].
  split; [assumption|]. split; [reflexivity|].
  split; [apply amount_value_reads|assumption].
Qed.

(** ** The totals, exactly *)

Lemma bol_after_ends_line pre : bol_after true pre = true <-> ends_line pre.
Proof.
  assert (H : forall pre b, bol_after b pre = true <->
                            (pre = [] /\ b = true)
                            \/ exists pre', pre = pre' ++ ["010"%char]).
  { induction pre0 as [|a pre0 IH]; intros b; simpl.
    - split; [auto|]. intros [[_ H]|(pre' & H)]; [assumption|].
      now destruct pre'.
    - rewrite IH. split.
      + intros [[-> Ha]|(pre' & ->)].
        * right. exists []. unfold is_nl in Ha.
          apply Ascii.eqb_eq in Ha. now subst.
        * right. now exists (a :: pre').
      + intros [[H _]|(pre' & H)]; [discriminate|].
        destruct pre' as [|a' pre']; simpl in H; injection H as -> ->.
        * left. split; reflexivity.
        * right. now exists pre'. }
  rewrite H. unfold ends_line. intuition.
Qed.

Lemma union_digit_comma u :
  Forall (fun a => cc_in (Union Digit (Lit ","%char)) a = true) u <->
  Forall (fun a => is_digit a = true \/ a = ","%char) u.
Proof.
  split; intros H; (eapply Forall_impl; [|exact H]); intros a; simpl;
    rewrite orb_true_iff, Ascii.eqb_eq; auto.
Qed.

Lemma mt_total_word b s c w b' s' c' :
  mt total_number b s c w b' s' c' -> total_word w /\ c' = c.
Proof.
  intros H.
  pose proof (mt_caps_same _ _ _ _ _ _ _ _ H (fun _ => eq_refl)) as Ec.
  split; [|exact Ec]. unfold total_number in H.
  peel_as H H1 u. peel_as H H2 pt.
  apply mt_plus_chr in H1. destruct H1 as (Hne & Hu & _).
  apply mt_lit in H2. destruct H2 as (-> & _ & _).
  cbv [rep d] in H. inv_mt. class_facts.
  match goal with |- context [ [?x] ++ [?y] ++ [] ] => exists u, x, y end.
  split; [reflexivity|]. split; [assumption|].
  split; [now apply union_digit_comma|]. auto.
Qed.

Lemma mt_total_word_intro w b s c :
  total_word w -> mt total_number b (w ++ s) c w (bol_after b w) s c.
Proof.
  intros (u & a1 & a2 & -> & Hne & Hu & H1 & H2).
  unfold total_number.
  change ["."%char; a1; a2] with («"."» ++ [a1; a2]).
  rewrite !bol_after_app, <- !app_assoc.
  eapply mt_seq;
    [apply mt_plus_chr_intro; [assumption|now apply union_digit_comma]|].
  eapply mt_seq; [apply mt_lit_intro|].
  apply mt_rep_chr_intro; [reflexivity|]. now repeat constructor.
Qed.

Lemma total_word_float n :
  total_word n -> float (remove_commas n) = Some (amount_value n).
Proof.
  intros (u & a1 & a2 & -> & _ & Hu & H1 & H2).
  destruct (remove_commas_filter u Hu) as [E Hd].
  unfold amount_value. rewrite remove_commas_app, E.
  unfold remove_commas at 1. rewrite filter_app. cbn [filter].
  rewrite (digit_not_comma a1 H1), (digit_not_comma a2 H2), H1, H2.
  change (is_digit ".") with false. change (Ascii.eqb "." ",") with false.
  cbn [negb]. now apply float_hundredths.
Qed.

Lemma mt_seps_intro : forall seps b s c,
  Forall sep_char seps ->
  mt (Star true (Star true (Chr (Lit ","%char)) +++ Star true ws)%re) b
     (seps ++ s) c seps (bol_after b seps) s c.
Proof.
  induction seps as [|x seps IH]; intros b s c H; [constructor|].
  inversion H as [|? ? Hx H']; subst.
  change (x :: seps) with ([x] ++ seps).
  rewrite bol_after_app, <- app_assoc.
  eapply mt_star_cons; [|now apply IH].
  destruct Hx as [Hx| ->].
  - eapply (mt_seq_eq _ _ _ _ _ _ []);
      [apply mt_star_nil| |reflexivity].
    apply (mt_star_chr_intro true Space [x]). now repeat constructor.
  - eapply (mt_seq_eq _ _ _ _ _ _ [","%char] _ _ _ []);
      [|apply mt_star_nil|reflexivity].
    apply (mt_star_chr_intro true (Lit ",") [","%char]).
    now repeat constructor.
Qed.

Lemma mt_bol_inv b s c w b' s' c' :
  mt Bol b s c w b' s' c' ->
  b = true /\ w = [] /\ b' = true /\ s' = s /\ c' = c.
Proof. inversion 1; auto. Qed.

Lemma total_found text mo :
  re_search total_pattern text = Some mo ->
  exists n1 n2 n3,
    group 1 mo = Some n1 /\ group 2 mo = Some n2 /\ group 3 mo = Some n3
    /\ total_sentence text n1 n2 n3.
Proof.
  intros H. apply re_search_at in H.
  destruct H as (pre & w & b' & E & Hm). revert E.
  unfold total_pattern in Hm.
  peel_as Hm H0 x0. peel_as Hm H1 x1. peel_as Hm H2 x2. peel_as Hm H3 x3.
  peel_as Hm H4 sp1. peel_as Hm H5 n1. peel_as Hm H6 sp2. peel_as Hm H7 n2.
  peel_as Hm H8 sp3. name_word Hm n3.
  apply mt_bol_inv in H0. destruct H0 as (He & -> & -> & -> & ->).
  apply bol_after_ends_line in He.
  apply mt_star_chr in H1. destruct H1 as (-> & F1).
  pose proof (mt_caps_same _ _ _ _ _ _ _ _ H2 (fun _ => eq_refl)) as ->.
  apply (mt_alpha sep_char) in H2; [|apply separators_alpha].
  apply mt_lit in H3. destruct H3 as (-> & _ & ->).
  apply mt_blanks in H4. destruct H4 as (Hs1 & ->).
  inv H5.
  match goal with H : mt total_number _ _ _ _ _ _ _ |- _ =>
    apply mt_total_word in H; destruct H as (Hn1 & ->) end.
  apply mt_blanks in H6. destruct H6 as (Hs2 & ->).
  inv H7.
  match goal with H : mt total_number _ _ _ _ _ _ _ |- _ =>
    apply mt_total_word in H; destruct H as (Hn2 & ->) end.
  apply mt_blanks in H8. destruct H8 as (Hs3 & ->).
  inv Hm.
  match goal with H : mt total_number _ _ _ _ _ _ _ |- _ =>
    apply mt_total_word in H; destruct H as (Hn3 & ->) end.
  match goal with H : upd _ _ _ = fst mo |- _ => rename H into Ec end.
  intros ->. exists n1, n2, n3. unfold group. rewrite <- Ec.
  repeat (split; [reflexivity|]).
  exists pre, (x1 ++ x2), sp1, sp2, sp3, (snd mo).
  split; [rewrite app_nil_l, <- !app_assoc; reflexivity|].
  split; [assumption|]. split; [|auto 10].
  apply Forall_app. split; [|assumption].
  eapply Forall_impl; [|exact F1]. intros a Ha. now left.
Qed.

Lemma total_matches text n1 n2 n3 :
  total_sentence text n1 n2 n3 ->
  exists mo, re_search total_pattern text = Some mo.
Proof.
  intros (pre & seps & sp1 & sp2 & sp3 & rest & -> & He & Hseps
          & Hs1 & Hs2 & Hs3 & Hn1 & Hn2 & Hn3).
  apply bol_after_ends_line in He. unfold re_search.
  eapply search_from_complete. rewrite He. unfold total_pattern.
  eapply (mt_seq_eq _ _ _ _ _ _ []); [apply mt_bol| |reflexivity].
  eapply (mt_seq_eq _ _ _ _ _ _ []); [apply mt_star_nil| |reflexivity].
  eapply mt_seq; [apply mt_seps_intro, Hseps|].
  eapply mt_seq; [apply mt_lit_intro|].
  eapply mt_seq; [apply mt_blanks_intro, Hs1|].
  eapply mt_seq; [apply mt_group, mt_total_word_intro, Hn1|].
  eapply mt_seq; [apply mt_blanks_intro, Hs2|].
  eapply mt_seq; [apply mt_group, mt_total_word_intro, Hn2|].
  eapply mt_seq; [apply mt_blanks_intro, Hs3|].
  apply mt_group, mt_total_word_intro, Hn3.
Qed.

(** X16.  The totals are null, all three, exactly when the text has
    nowhere a TOTAL line: at the beginning of a line, blanks and commas,
    the word TOTAL, and three numbers set off by blanks.  Otherwise they
    are read from the three numbers of such a line, in their order: none
    is negative, and a number of at most fifteen digits gives the decimal
    it spells, a whole number of hundredths.  The conversions never
    raise. *)
Theorem totals_follow_the_total_line (text : str) :
  (totals_of text = [("total_withdrawal", VNone); ("total_deposit", VNone);
                     ("final_balance", VNone)]%string
   /\ ~ exists n1 n2 n3, total_sentence text n1 n2 n3)
  \/ exists n1 n2 n3 q1 q2 q3,
       total_sentence text n1 n2 n3
       /\ totals_of text =
          [("total_withdrawal", VNum q1); ("total_deposit", VNum q2);
           ("final_balance", VNum q3)]%string
       /\ reads_amount n1 q1 /\ reads_amount n2 q2 /\ reads_amount n3 q3.
Proof.
  destruct (re_search total_pattern text) as [mo|] eqn:E.
  - right. destruct (total_found _ _ E) as (n1 & n2 & n3 & G1 & G2 & G3 & Hs).
    exists n1, n2, n3, (amount_value n1), (amount_value n2), (amount_value n3).
    split; [assumption|].
    split; [|auto using amount_value_reads].
    destruct Hs as (_ & _ & _ & _ & _ & _ & _ & _ & _ & _ & _ & _
                    & Hn1 & Hn2 & Hn3).
    unfold totals_of. rewrite E.
    unfold totals_block, try_block, assign, group_replace, bind.
    rewrite G1, G2, G3.
    rewrite (total_word_float _ Hn1), (total_word_float _ Hn2),
      (total_word_float _ Hn3).
    reflexivity.
  - left. split; [unfold totals_of; now rewrite E|].
    intros (n1 & n2 & n3 & Hs). apply total_matches in Hs.
    destruct Hs as (mo & Hmo). congruence.
Qed.

(** ** Lines whose columns are set off by single blanks *)

Lemma token_unique (f : ascii -> bool) : forall (h1 h2 : str) p1 p2 t1 t2,
  h1 ++ p1 :: t1 = h2 ++ p2 :: t2 ->
  Forall (fun a => f a = true) h1 -> Forall (fun a => f a = true) h2 ->
  f p1 = false -> f p2 = false -> h1 = h2 /\ p1 = p2 /\ t1 = t2.
Proof.
  induction h1 as [|a h1 IH]; intros h2 p1 p2 t1 t2 E H1 H2 Hp1 Hp2.
  - destruct h2 as [|b h2]; simpl in E.
    + injection E as -> ->. auto.
    + injection E as -> _. inversion H2; subst. congruence.
  - inversion H1; subst. destruct h2 as [|b h2]; simpl in E.
    + injection E as -> _. congruence.
    + injection E as -> E. inversion H2; subst.
      destruct (IH h2 p1 p2 t1 t2 E) as (-> & -> & ->); auto.
Qed.

Lemma app_inv_length {A} : forall (u u' v v' : list A),
  List.length u = List.length u' -> u ++ v = u' ++ v' -> u = u' /\ v = v'.
Proof.
  induction u as [|a u IH]; intros [|a' u'] v v' Hl E; try discriminate;
    simpl in *; auto.
  injection E as -> E. injection Hl as Hl.
  destruct (IH u' v v' Hl E) as [-> ->]. auto.
Qed.

Lemma last_app_ne {A} (u v : list A) d : v <> [] -> last (u ++ v) d = last v d.
Proof.
  intros Hv. induction u as [|a u IH]; [reflexivity|].
  simpl app. destruct (u ++ v) as [|b l] eqn:E.
  - apply app_eq_nil in E. destruct E. congruence.
  - exact IH.
Qed.

Lemma last_default {A} (v : list A) d d' : v <> [] -> last v d = last v d'.
Proof.
  induction v as [|a v IH]; [congruence|]. intros _.
  destruct v as [|b v]; [reflexivity|]. simpl in *. apply IH. discriminate.
Qed.

Lemma last_Forall {A} (P : A -> Prop) (v : list A) d :
  Forall P v -> v <> [] -> P (last v d).
Proof.
  intros H Hv. destruct (exists_last Hv) as (v0 & z & ->).
  rewrite last_last. apply Forall_app in H. destruct H as [_ H].
  now inversion H.
Qed.

Lemma last_not_blank_ne (w : str) d :
  is_space d = true -> is_space (last w d) = false -> w <> [].
Proof. intros Hd H ->. simpl in H. congruence. Qed.

Lemma count_blanks_app u v :
  count_blanks (u ++ v) = count_blanks u + count_blanks v.
Proof. unfold count_blanks. now rewrite filter_app, length_app. Qed.

Lemma count_blanks_cons a u :
  count_blanks (a :: u)
  = (if is_space a then 1 else 0) + count_blanks u.
Proof. unfold count_blanks. simpl. now destruct (is_space a). Qed.

Lemma count_blanks_none w :
  Forall (fun a => is_space a = false) w -> count_blanks w = 0.
Proof.
  unfold count_blanks. induction 1 as [|a w Ha _ IH]; simpl; [reflexivity|].
  now rewrite Ha.
Qed.

Lemma count_blanks_blanks sp : blanks sp -> 1 <= count_blanks sp.
Proof.
  intros [Hne H]. destruct sp as [|a sp]; [congruence|].
  inversion H; subst. rewrite count_blanks_cons.
  match goal with H : is_space a = true |- _ => rewrite H end. lia.
Qed.

Lemma count_blanks_last w d :
  w <> [] -> is_space (last w d) = true -> 1 <= count_blanks w.
Proof.
  intros Hne H. destruct (exists_last Hne) as (w0 & z & ->).
  rewrite last_last in H. rewrite count_blanks_app, count_blanks_cons, H. lia.
Qed.

Lemma amount_word_first a :
  amount_word a -> exists x t, a = x :: t /\ is_digit x = true.
Proof.
  intros (h & groups & a1 & a2 & -> & Hl & Hh & _).
  destruct h as [|x h]; [simpl in Hl; lia|]. inversion Hh; subst.
  simpl. eauto.
Qed.

Lemma fixed_width_first w :
  fixed_width D_M_y w = true ->
  List.length w = 8 /\ exists x t, w = x :: t /\ is_digit x = true.
Proof.
  destruct w as [|d1 [|d2 [|s1 [|m1 [|m2 [|s2 Y]]]]]]; try discriminate.
  intros H. apply fixed_width_inv in H.
  destruct H as (_ & _ & H1 & _ & _ & _ & HY & _).
  unfold year_shape in HY. apply andb_true_iff in HY. destruct HY as [_ HY].
  apply Nat.eqb_eq in HY. split; [simpl; now rewrite HY|eauto].
Qed.

(** Blanks that begin a text which begins with something else. *)
Lemma blanks_prefix : forall (l sp : str) r x r',
  l ++ r = sp ++ x :: r' ->
  Forall (fun a => is_digit a = false) l ->
  Forall (fun a => is_space a = true) sp -> is_digit x = true ->
  Forall (fun a => is_space a = true) l.
Proof.
  induction l as [|a l IH]; intros sp r x r' E Hl Hsp Hx; [constructor|].
  inversion Hl; subst. destruct sp as [|y sp]; simpl in E.
  - injection E as -> _. congruence.
  - injection E as -> E. inversion Hsp; subst. constructor; eauto.
Qed.

(** Where the numeric section begins on a line whose description has no
    digit and does not end with a blank: after the blank that follows the
    description, and after a blank. *)
Lemma numeric_section_start (P N A0 ds T : str) :
  P ++ N = A0 ++ ds ++ " "%char :: T ->
  List.length A0 < List.length P ->
  (exists P0 sp, P = P0 ++ sp /\ blanks sp) ->
  numeric_start N ->
  Forall (fun a => is_digit a = false) ds ->
  is_space (last ds " "%char) = false ->
  exists T1,
    T = T1 ++ N /\ P = A0 ++ ds ++ " "%char :: T1
    /\ (T1 = [] \/ is_space (last T1 " "%char) = true).
Proof.
  intros E Hlen (P0 & sp & EP & Hne & Hsp) Hns Hds Hlast.
  assert (Hdne : ds <> []) by (eapply last_not_blank_ne; [|exact Hlast]; reflexivity).
  assert (HP : is_space (last P " "%char) = true).
  { rewrite EP, last_app_ne by assumption.
    now apply (last_Forall (fun a => is_space a = true)). }
  assert (Hends : P <> A0 ++ ds).
  { intros ->. rewrite last_app_ne in HP by assumption. congruence. }
  rewrite app_assoc in E. apply app_eq_app in E.
  destruct E as (l & [[E1 E2]|[E1 E2]]).
  - destruct l as [|x T1].
    + rewrite app_nil_r in E1. contradiction.
    + simpl in E2. injection E2 as <- E2. exists T1.
      split; [assumption|]. split; [now rewrite E1, <- app_assoc|].
      destruct T1 as [|y T1]; [now left|]. right.
      rewrite E1 in HP. rewrite last_app_ne in HP by discriminate.
      change (" "%char :: y :: T1) with ([" "%char] ++ y :: T1) in HP.
      rewrite last_app_ne in HP by discriminate. exact HP.
  - exfalso. destruct l as [|x l].
    + rewrite app_nil_r in E1. auto.
    + apply app_eq_app in E1. destruct E1 as (m0 & [[E3 E4]|[E3 E4]]).
      * rewrite E3, length_app in Hlen. lia.
      * assert (Hl : Forall (fun a => is_digit a = false) (x :: l)).
        { rewrite E4 in Hds. apply Forall_app in Hds. tauto. }
        destruct Hns as (sp' & a & t & EN & Hsp' & Ha).
        destruct (amount_word_first a Ha) as (x0 & t0 & -> & Hx0).
        rewrite E2 in EN.
        assert (Hb : Forall (fun a => is_space a = true) (x :: l)).
        { eapply (blanks_prefix (x :: l) sp'); [|exact Hl|exact Hsp'|exact Hx0].
          simpl. simpl in EN. exact EN. }
        rewrite E4, last_app_ne in Hlast by discriminate.
        apply (last_Forall _ _ " "%char) in Hb; [|discriminate].
        simpl in Hb, Hlast. congruence.
Qed.

Lemma strip_ends (s : str) :
  match s with x :: _ => is_space x = false | [] => True end ->
  is_space (last s " "%char) = false -> strip s = s.
Proof.
  intros Hh Hl. unfold strip, rstrip. rewrite (lstrip_id s Hh).
  assert (Hne : s <> []) by (eapply last_not_blank_ne; [|exact Hl]; reflexivity).
  destruct (exists_last Hne) as (s0 & z & ->).
  rewrite last_last in Hl. rewrite rev_app_distr. simpl.
  rewrite Hl. simpl. now rewrite rev_involutive.
Qed.

Lemma amount_word_last a d : amount_word a -> is_digit (last a d) = true.
Proof.
  intros (h & groups & a1 & a2 & -> & _ & _ & _ & _ & H2).
  rewrite !app_assoc.
  change ["."%char; a1; a2] with (["."%char; a1] ++ [a2]).
  now rewrite app_assoc, last_last.
Qed.

(** The numeric section of a layout holds two runs of blanks. *)
Lemma layout_blanks rf sp4 wd sp5 dp sp6 bl rest :
  blanks sp5 -> blanks sp6 ->
  2 <= count_blanks (rf ++ sp4 ++ wd ++ sp5 ++ dp ++ sp6 ++ bl ++ rest).
Proof.
  intros H5 H6. apply count_blanks_blanks in H5, H6.
  rewrite !count_blanks_app. lia.
Qed.

(** What a layout of such a line begins with. *)
Lemma layout_of_single_blank_line td pd ds T cs :
  fixed_width D_M_y td = true -> fixed_width D_M_y pd = true ->
  Forall (fun a => is_digit a = false) ds ->
  is_space (last ds " "%char) = false ->
  line_layout (td ++ " "%char :: pd ++ " "%char :: ds ++ " "%char :: T) cs ->
  exists T1 sp4 sp5 sp6,
    T = T1 ++ col_reference cs ++ sp4 ++ col_withdrawal cs ++ sp5
             ++ col_deposit cs ++ sp6 ++ col_balance cs ++ col_rest cs
    /\ (T1 = [] \/ is_space (last T1 " "%char) = true)
    /\ (T1 = [] -> col_date cs = td /\ col_post_date cs = pd
                   /\ strip (col_description cs) = strip ds)
    /\ numeric_start (col_reference cs ++ sp4 ++ col_withdrawal cs ++ sp5
                      ++ col_deposit cs ++ sp6 ++ col_balance cs
                      ++ col_rest cs)
    /\ Forall (fun a => cc_in alnum a = true) (col_reference cs)
    /\ Forall (fun a => is_space a = true) sp4
    /\ optional_amount (col_withdrawal cs) /\ blanks sp5
    /\ optional_amount (col_deposit cs) /\ blanks sp6
    /\ amount_word (col_balance cs).
Proof.
  intros Hf1 Hf2 Hds Hlast
         (sp1 & sp2 & sp3 & sp4 & sp5 & sp6 & Es & Hf1' & Hs1 & Hf2' & Hs2
          & _ & Hs3 & Hla & Hrf & Hs4 & Hwd & Hs5 & Hdp & Hs6 & Hbl).
  destruct cs as [td' pd' ds' rf wd dp bl rest]. simpl in *.
  destruct (fixed_width_first _ Hf1) as (L1 & x1 & t1 & E1 & D1).
  destruct (fixed_width_first _ Hf2) as (L2 & x2 & t2 & E2 & D2).
  destruct (fixed_width_first _ Hf1') as (L1' & _).
  destruct (fixed_width_first _ Hf2') as (L2' & _).
  set (N := rf ++ sp4 ++ wd ++ sp5 ++ dp ++ sp6 ++ bl ++ rest) in *.
  assert (E : (td' ++ sp1 ++ pd' ++ sp2 ++ ds' ++ sp3) ++ N
              = (td ++ " "%char :: pd ++ [" "%char]) ++ ds ++ " "%char :: T).
  { rewrite <- !app_assoc. simpl. rewrite <- !app_assoc. simpl.
    symmetry. exact Es. }
  destruct Hs1 as [Hn1 Hb1]. destruct Hs2 as [Hn2 Hb2].
  destruct (numeric_section_start _ _ _ _ _ E) as (T1 & ET & EP & HT1); auto.
  { rewrite !length_app. simpl. rewrite !length_app. simpl.
    destruct sp1; [congruence|]. destruct sp2; [congruence|].
    destruct Hs3 as [Hn3 _]. destruct sp3; [congruence|]. simpl. lia. }
  { exists (td' ++ sp1 ++ pd' ++ sp2 ++ ds'), sp3.
    split; [now rewrite <- !app_assoc|assumption]. }
  exists T1, sp4, sp5, sp6. split; [exact ET|]. split; [exact HT1|].
  split; [|auto 12].
  intros ->. clear E ET.
  rewrite <- !app_assoc in EP. simpl in EP.
  rewrite <- !app_assoc in EP. simpl in EP.
  apply app_inv_length in EP; [|congruence]. destruct EP as [Etd EP].
  destruct sp1 as [|y1 sp1]; [congruence|]. simpl in EP. injection EP as _ EP.
  apply Forall_inv_tail in Hb1.
  assert (sp1 = []) as ->.
  { eapply (head_not_blank sp1 x2); [|now apply digit_not_space|exact Hb1].
    rewrite E2 in EP. simpl in EP. symmetry. exact EP. }
  rewrite app_nil_l in EP.
  apply app_inv_length in EP; [|congruence]. destruct EP as [Epd EP].
  split; [assumption|]. split; [assumption|].
  rewrite <- (strip_pad sp2 ds' sp3); [|assumption|apply Hs3].
  rewrite EP. change (" "%char :: ds ++ [" "%char])
    with ([" "%char] ++ ds ++ [" "%char]).
  apply strip_pad; repeat constructor.
Qed.

Lemma strip_between (u mid v : str) :
  match u with x :: _ => is_space x = false | [] => False end ->
  v <> [] -> is_space (last v " "%char) = false ->
  strip (u ++ mid ++ v) = u ++ mid ++ v.
Proof.
  intros Hu Hv Hl. apply strip_ends.
  - destruct u as [|x u]; [destruct Hu|exact Hu].
  - rewrite app_assoc, last_app_ne by assumption. exact Hl.
Qed.

Lemma amount_word_token a :
  amount_word a -> Forall (fun x => negb (is_space x) = true) a.
Proof.
  intros H. apply amount_word_no_space in H.
  eapply Forall_impl; [|exact H]. intros x Hx. now rewrite Hx.
Qed.

Lemma strip_single_blank_line td pd mid a :
  fixed_width D_M_y td = true -> amount_word a ->
  strip (td ++ " "%char :: pd ++ " "%char :: mid ++ " "%char :: a)
  = td ++ " "%char :: pd ++ " "%char :: mid ++ " "%char :: a.
Proof.
  intros Hf Ha.
  destruct (fixed_width_first _ Hf) as (_ & x & t & -> & Hx).
  assert (Hl : is_space (last a " "%char) = false)
    by (apply digit_not_space, amount_word_last, Ha).
  change ((x :: t) ++ " "%char :: pd ++ " "%char :: mid ++ " "%char :: a)
    with ((x :: t) ++ (" "%char :: pd ++ " "%char :: mid ++ [" "%char]
                       ++ a)).
  replace (" "%char :: pd ++ " "%char :: mid ++ [" "%char] ++ a)
    with ((" "%char :: pd ++ " "%char :: mid ++ [" "%char]) ++ a)
    by (simpl; rewrite <- !app_assoc; simpl; rewrite <- !app_assoc;
        reflexivity).
  apply strip_between; [now apply digit_not_space| |exact Hl].
  now apply amount_word_nonempty.
Qed.

(** X17.  A line with two amounts only, each set off by a single blank
    (the column of the withdrawal or of the deposit is empty and leaves
    no blank of its own), gives no record, whatever the dates, the
    description (without digit, not ending with a blank) and the two
    amounts: the pattern asks for a run of blanks after each of the two
    optional amounts, and the line has one. *)
Theorem line_with_two_amounts_is_dropped
    (td pd ds a1 a2 : str) (transactions : list value) :
  fixed_width D_M_y td = true -> fixed_width D_M_y pd = true ->
  Forall (fun a => is_digit a = false) ds ->
  is_space (last ds " "%char) = false ->
  amount_word a1 -> amount_word a2 ->
  transaction_step transactions
    (td ++ " "%char :: pd ++ " "%char :: ds ++ " "%char :: a1
        ++ " "%char :: a2)
  = transactions.
Proof.
  intros Hf1 Hf2 Hds Hlast Ha1 Ha2.
  rewrite transaction_step_spec.
  destruct (skip_line _); [apply app_nil_r|].
  match goal with |- context [record_of_line ?l] =>
    destruct (record_of_line_columns l) as [[E _]|(cs & Hc & _)] end;
    [rewrite E; apply app_nil_r|].
  exfalso.
  replace (td ++ " "%char :: pd ++ " "%char :: ds ++ " "%char :: a1
              ++ " "%char :: a2)
    with (td ++ " "%char :: pd ++ " "%char :: (ds ++ " "%char :: a1)
             ++ " "%char :: a2) in Hc
    by (now rewrite <- app_assoc).
  rewrite strip_single_blank_line in Hc by assumption.
  rewrite <- app_assoc in Hc. simpl in Hc.
  apply layout_of_single_blank_line in Hc; auto.
  destruct Hc as (T1 & sp4 & sp5 & sp6 & ET & _ & _ & _ & _ & _ & _ & Hs5
                  & _ & Hs6 & _).
  apply (f_equal count_blanks) in ET.
  rewrite !count_blanks_app, count_blanks_cons in ET. simpl in ET.
  rewrite !count_blanks_none in ET by now apply amount_word_no_space.
  apply count_blanks_blanks in Hs5, Hs6. lia.
Qed.

Lemma cash_deposit_amounts :
  amount_word «"1,000.00"» /\ amount_word «"5,000.00"».
Proof.
  split.
  - exists ["1"%char], [«"000"»], "0"%char, "0"%char.
    repeat split; simpl; auto; repeat constructor.
  - exists ["5"%char], [«"000"»], "0"%char, "0"%char.
    repeat split; simpl; auto; repeat constructor.
Defined.

Lemma line_with_two_amounts_is_dropped_witness :
  transaction_step []
    «"01/03/25 02/03/25 Cash Deposit 1,000.00 5,000.00"» = [].
Proof.
  assert (Hds : Forall (fun a => is_digit a = false) «"Cash Deposit"»)
    by (repeat constructor).
  exact (line_with_two_amounts_is_dropped
           «"01/03/25"» «"02/03/25"» «"Cash Deposit"»
           «"1,000.00"» «"5,000.00"» [] eq_refl eq_refl Hds eq_refl
           (proj1 cash_deposit_amounts) (proj2 cash_deposit_amounts)).
Defined.

Lemma parts_no_point u :
  Forall (fun a => is_digit a = true \/ a = ","%char) u ->
  Forall (fun a => negb (Ascii.eqb a "."%char) = true) u.
Proof.
  intros H. eapply Forall_impl; [|exact H].
  intros a [Ha| ->]; [|reflexivity]. now rewrite (digit_not_point a Ha).
Qed.

(** An amount that begins an amount is the whole of it. *)
Lemma amount_word_whole bl rest c :
  amount_word bl -> amount_word c -> bl ++ rest = c -> bl = c /\ rest = [].
Proof.
  intros Hb Hc E.
  apply amount_word_parts in Hb, Hc.
  destruct Hb as (u & b1 & b2 & -> & Hu & _).
  destruct Hc as (u' & c1 & c2 & -> & Hu' & _).
  rewrite <- app_assoc in E. simpl in E.
  apply (token_unique (fun a => negb (Ascii.eqb a "."%char))) in E;
    auto using parts_no_point.
  destruct E as (-> & _ & E). injection E as -> -> ->. split; reflexivity.
Qed.

(** A column between blanks, read where the line has an amount. *)
Lemma column_is_amount (w sp t a t' : str) :
  w ++ sp ++ t = a ++ " "%char :: t' ->
  optional_amount w -> blanks sp -> amount_word a ->
  w = a /\ exists sp', sp = " "%char :: sp' /\ sp' ++ t = t'.
Proof.
  intros E Hw [Hne Hsp] Ha.
  destruct sp as [|y sp]; [congruence|]. inversion Hsp; subst.
  destruct (amount_word_first a Ha) as (x & ta & Ea & Hx).
  destruct Hw as [->|Hw].
  - exfalso. rewrite Ea in E. simpl in E. injection E as -> _.
    apply digit_not_space in Hx. congruence.
  - simpl in E.
    apply (token_unique (fun a => negb (is_space a))) in E;
      auto using amount_word_token.
    + destruct E as (-> & -> & <-). split; [reflexivity|]. now exists sp.
    + match goal with H : is_space y = true |- _ => now rewrite H end.
Qed.

Lemma no_blank_before (sp t : str) a :
  amount_word a -> Forall (fun x => is_space x = true) sp ->
  forall u v, sp ++ u = a ++ v -> sp = [].
Proof.
  intros Ha Hsp u v E.
  destruct (amount_word_first a Ha) as (x & ta & -> & Hx).
  eapply (head_not_blank sp x); [|now apply digit_not_space|exact Hsp].
  simpl in E. symmetry. exact E.
Qed.

(** X18.  A line made of two tokens DD/MM/YY, a description and three
    amounts, set off by single blanks, where the description holds no
    digit and no newline and does not end with a blank, and each amount
    has at most fifteen digits, is read as printed when the withdrawal
    has a single digit before its first comma or point (0.00, 7.50,
    1,000.00): the record holds the two dates through the Date
    Normalizer, the description, no reference, and the values of the
    three amounts in the order withdrawal, deposit, balance. *)
Theorem line_with_three_amounts_is_read
    (td pd ds wd dp bl : str) (transactions : list value) :
  fixed_width D_M_y td = true -> fixed_width D_M_y pd = true ->
  Forall (fun a => is_digit a = false) ds ->
  is_space (last ds " "%char) = false -> ~ In "010"%char ds ->
  amount_word wd -> amount_word dp -> amount_word bl ->
  short_number wd -> short_number dp -> short_number bl ->
  one_leading_digit wd ->
  skip_line (td ++ " "%char :: pd ++ " "%char :: ds ++ " "%char :: wd
                ++ " "%char :: dp ++ " "%char :: bl) = false ->
  transaction_step transactions
    (td ++ " "%char :: pd ++ " "%char :: ds ++ " "%char :: wd
        ++ " "%char :: dp ++ " "%char :: bl)
  = transactions ++ [record_of_columns (mkcolumns td pd ds [] wd dp bl [])].
Proof.
  intros Hf1 Hf2 Hds Hlast Hnl Hwd Hdp Hbl _ _ _ Hone Hskip.
  rewrite transaction_step_spec, Hskip. f_equal.
  assert (Es : strip (td ++ " "%char :: pd ++ " "%char :: ds ++ " "%char :: wd
                        ++ " "%char :: dp ++ " "%char :: bl)
               = td ++ " "%char :: pd ++ " "%char :: ds ++ " "%char :: wd
                    ++ " "%char :: dp ++ " "%char :: bl).
  { replace (td ++ " "%char :: pd ++ " "%char :: ds ++ " "%char :: wd
                ++ " "%char :: dp ++ " "%char :: bl)
      with (td ++ " "%char :: pd ++ " "%char
               :: (ds ++ " "%char :: wd ++ " "%char :: dp) ++ " "%char :: bl)
      by (rewrite <- !app_assoc; simpl; rewrite <- !app_assoc; reflexivity).
    now apply strip_single_blank_line. }
  match goal with |- record_of_line ?l = _ =>
    destruct (record_of_line_columns l) as [[_ Hn]|(cs & Hc & ->)] end.
  - exfalso. apply Hn. rewrite Es.
    exists (mkcolumns td pd ds [] wd dp bl []).
    exists [" "%char], [" "%char], [" "%char], [], [" "%char], [" "%char].
    cbn [col_date col_post_date col_description col_reference col_withdrawal
         col_deposit col_balance col_rest].
    assert (Hb : blanks [" "%char])
      by (split; [discriminate|repeat constructor]).
    split; [cbn [app]; rewrite app_nil_r; reflexivity|].
    repeat (split; [assumption|]).
    split.
    { exists [], wd, (" "%char :: dp ++ " "%char :: bl).
      split; [cbn [app]; rewrite app_nil_r; reflexivity|].
      split; [constructor|assumption]. }
    split; [constructor|]. split; [constructor|].
    split; [now right|]. split; [assumption|].
    split; [now right|]. split; assumption.
  - rewrite Es in Hc.
    apply layout_of_single_blank_line in Hc; auto.
    destruct Hc as (T1 & sp4 & sp5 & sp6 & ET & HT1 & Hpre & Hla & Hrf & Hs4
                    & Hw & Hs5 & Hd & Hs6 & Hb).
    assert (T1 = []) as ->.
    { pose proof (f_equal count_blanks ET) as Ec.
      repeat (rewrite count_blanks_app in Ec
              || rewrite count_blanks_cons in Ec).
      change (is_space " ") with true in Ec. cbv iota in Ec.
      rewrite !(count_blanks_none wd), !(count_blanks_none dp),
        !(count_blanks_none bl) in Ec by now apply amount_word_no_space.
      pose proof (count_blanks_blanks _ Hs5).
      pose proof (count_blanks_blanks _ Hs6).
      destruct HT1 as [HT1|HT1]; [assumption|].
      destruct T1 as [|y T1]; [reflexivity|].
      apply count_blanks_last in HT1; [|discriminate]. lia. }
    destruct (Hpre eq_refl) as (Etd & Epd & Eds).
    destruct cs as [td' pd' ds' rf wd' dp' bl' rest]. simpl in *.
    subst td' pd'.
    destruct Hone as (x & p & q & Ewd & Hp).
    assert (rf = []) as ->.
    { destruct rf as [|r0 rf]; [reflexivity|]. exfalso.
      destruct (numeric_section_reference _ _ _ _ _ Hla Hrf) as
        (-> & _ & Hrd & Hne & _); auto; [discriminate|].
      destruct Hw as [->|Hw]; [congruence|].
      destruct (amount_word_first _ Hw) as (w0 & tw & -> & Hw0).
      rewrite Ewd in ET. inversion Hrd as [|? ? Hr0 Hrd']; subst.
      destruct rf as [|r1 rf]; simpl in ET.
      - injection ET as _ -> _. congruence.
      - injection ET as _ -> _. inversion Hrd'; subst. congruence. }
    simpl in ET.
    assert (sp4 = []) as ->
      by (eapply (no_blank_before sp4 [] wd); [assumption|exact Hs4|];
          symmetry; exact ET).
    simpl in ET. symmetry in ET.
    apply column_is_amount in ET; auto.
    destruct ET as (-> & sp5' & -> & ET).
    assert (sp5' = []) as ->.
    { destruct Hs5 as [_ Hs5]. apply Forall_inv_tail in Hs5.
      eapply (no_blank_before sp5' [] dp); [assumption|exact Hs5|exact ET]. }
    simpl in ET.
    apply column_is_amount in ET; auto.
    destruct ET as (-> & sp6' & -> & ET).
    assert (sp6' = []) as ->.
    { destruct Hs6 as [_ Hs6]. apply Forall_inv_tail in Hs6.
      eapply (no_blank_before sp6' [] bl); [assumption|exact Hs6|].
      rewrite <- (app_nil_r bl) in ET. exact ET. }
    simpl in ET.
    destruct (amount_word_whole _ _ _ Hb Hbl ET) as [-> ->].
    unfold record_of_columns. simpl. now rewrite Eds.
Qed.

Lemma line_with_three_amounts_is_read_witness :
  transaction_step []
    «"01/03/25 02/03/25 Cash Deposit 0.00 1,000.00 5,000.00"»
  = [record_of_columns
       (mkcolumns «"01/03/25"» «"02/03/25"» «"Cash Deposit"» []
                  «"0.00"» «"1,000.00"» «"5,000.00"» [])].
Proof.
  assert (Hds : Forall (fun a => is_digit a = false) «"Cash Deposit"»)
    by (repeat constructor).
  assert (Hnl : ~ In "010"%char «"Cash Deposit"»)
    by (simpl; intuition discriminate).
  assert (Hone : one_leading_digit «"0.00"»)
    by (exists "0"%char, "."%char, «"00"»; split; reflexivity).
  assert (Hs1 : short_number «"0.00"») by (vm_compute; lia).
  assert (Hs2 : short_number «"1,000.00"») by (vm_compute; lia).
  assert (Hs3 : short_number «"5,000.00"») by (vm_compute; lia).
  exact (line_with_three_amounts_is_read
           «"01/03/25"» «"02/03/25"» «"Cash Deposit"»
           «"0.00"» «"1,000.00"» «"5,000.00"» [] eq_refl eq_refl Hds eq_refl
           Hnl zero_amount_word (proj1 cash_deposit_amounts)
           (proj2 cash_deposit_amounts) Hs1 Hs2 Hs3 Hone eq_refl).
Defined.

(** ** The reference group is tried first *)

Lemma re_match_parts s :
  re_match transaction_pattern s
  = m line_head match_obj true 0 s no_caps
      (fun b p s' c =>
         orelse (m (reference_group +++ numeric_tail)%re match_obj b p s' c
                   accept)
                (m numeric_tail match_obj b p s' c accept)).
Proof. reflexivity. Qed.

Lemma line_head_layout s w b' s' c' :
  mt line_head true s no_caps w b' s' c' ->
  exists td sp1 pd sp2 ds sp3,
    w = td ++ sp1 ++ pd ++ sp2 ++ ds ++ sp3
    /\ fixed_width D_M_y td = true /\ blanks sp1
    /\ fixed_width D_M_y pd = true /\ blanks sp2
    /\ ~ In "010"%char ds /\ blanks sp3
    /\ numeric_start s'
    /\ c' = upd 3 ds (upd 2 pd (upd 1 td no_caps)).
Proof.
  intros Hm. unfold line_head in Hm.
  peel_as Hm P1 td. peel_as Hm P2 sp1. peel_as Hm P3 pd. peel_as Hm P4 sp2.
  peel_as Hm P5 ds. peel_as Hm P6 sp3. name_word Hm la.
  inv P1.
  match goal with H : mt date_yy _ _ _ _ _ _ _ |- _ =>
    apply mt_date_yy in H; destruct H as (Hf1 & ->) end.
  apply mt_blanks in P2. destruct P2 as (Hs1 & ->).
  inv P3.
  match goal with H : mt date_yy _ _ _ _ _ _ _ |- _ =>
    apply mt_date_yy in H; destruct H as (Hf2 & ->) end.
  apply mt_blanks in P4. destruct P4 as (Hs2 & ->).
  apply mt_dot_group in P5. destruct P5 as (Hds & ->).
  apply mt_blanks in P6. destruct P6 as (Hs3 & ->).
  inv Hm.
  match goal with H : mt (Alt amount _) _ _ _ _ _ _ _ |- _ =>
    apply mt_lookahead in H; destruct H as (Hla & ->) end.
  exists td, sp1, pd, sp2, ds, sp3.
  split; [now rewrite !app_nil_r|]. auto 10.
Qed.

Lemma numeric_tail_layout b s c w b' s' c' :
  mt numeric_tail b s c w b' s' c' ->
  exists sp4 wd sp5 dp sp6 bl,
    w = sp4 ++ wd ++ sp5 ++ dp ++ sp6 ++ bl
    /\ Forall (fun a => is_space a = true) sp4
    /\ optional_amount wd /\ blanks sp5
    /\ optional_amount dp /\ blanks sp6 /\ amount_word bl.
Proof.
  intros Hm. unfold numeric_tail in Hm.
  peel_as Hm P7 sp4. peel_as Hm P8 wd. peel_as Hm P9 sp5. peel_as Hm P10 dp.
  peel_as Hm P11 sp6. name_word Hm bl.
  apply mt_star_chr in P7. destruct P7 as (_ & Hs4).
  apply mt_optional_amount in P8. destruct P8 as (Hwd & _).
  apply mt_blanks in P9. destruct P9 as (Hs5 & _).
  apply mt_optional_amount in P10. destruct P10 as (Hdp & _).
  apply mt_blanks in P11. destruct P11 as (Hs6 & _).
  inv Hm.
  match goal with H : mt amount _ _ _ _ _ _ _ |- _ =>
    apply mt_amount_word in H; rename H into Hbl end.
  exists sp4, wd, sp5, dp, sp6, bl. auto 10.
Qed.

(** A match without reference: at the place where the numeric section
    was read, no reading of it begins with a reference. *)
Lemma transaction_match_priority s mo :
  re_match transaction_pattern s = Some mo -> group 4 mo = None ->
  exists P N bN,
    s = P ++ N
    /\ (exists td sp1 pd sp2 ds sp3,
          P = td ++ sp1 ++ pd ++ sp2 ++ ds ++ sp3
          /\ fixed_width D_M_y td = true /\ blanks sp1
          /\ fixed_width D_M_y pd = true /\ blanks sp2 /\ blanks sp3)
    /\ numeric_start N /\ 2 <= count_blanks N
    /\ forall c w b2 s2 c2,
         ~ mt (reference_group +++ numeric_tail)%re bN N c w b2 s2 c2.
Proof.
  intros H Hg. rewrite re_match_parts in H. apply m_sound in H.
  destruct H as (w & bN & N & cN & Hhead & HK). cbv beta in HK.
  pose proof (mt_app _ _ _ _ _ _ _ _ Hhead) as Es.
  apply line_head_layout in Hhead.
  destruct Hhead as (td & sp1 & pd & sp2 & ds & sp3 & Ew & Hf1 & Hs1 & Hf2
                     & Hs2 & _ & Hs3 & Hla & _).
  destruct (m (reference_group +++ numeric_tail)%re match_obj bN
              (0 + List.length w) N cN accept) as [y|] eqn:E1.
  - exfalso. cbn [orelse] in HK. injection HK as ->.
    apply m_sound in E1. destruct E1 as (w2 & b2 & s2 & c2 & Hd & Ea).
    injection Ea as <-. unfold group in Hg. cbn [fst] in Hg.
    peel Hd Hr. unfold reference_group in Hr. inv Hr.
    eapply (mt_caps_keep 4); [exact Hd| |exact Hg].
    unfold upd. simpl. discriminate.
  - cbn [orelse] in HK. exists w, N, bN. split; [assumption|].
    split; [exists td, sp1, pd, sp2, ds, sp3; auto 8|].
    split; [assumption|]. split.
    + apply m_sound in HK. destruct HK as (w2 & b2 & s2 & c2 & Hd & _).
      pose proof (mt_app _ _ _ _ _ _ _ _ Hd) as EN.
      apply numeric_tail_layout in Hd.
      destruct Hd as (sp4 & wd & sp5 & dp & sp6 & bl & -> & _ & _ & Hs5 & _
                      & Hs6 & _).
      rewrite EN. apply count_blanks_blanks in Hs5, Hs6.
      rewrite !count_blanks_app. lia.
    + intros c w1 b2 s2 c2 Hd.
      eapply (m_complete _ _ _ _ _ _ _ _ Hd match_obj accept
                (0 + List.length w) cN c2);
        [apply accept_uniform|discriminate|exact E1].
Qed.

Lemma record_of_line_match line mo :
  re_match transaction_pattern (strip line) = Some mo ->
  exists cs,
    line_layout (strip line) cs /\ reads_columns mo cs
    /\ record_of_line line = [record_of_columns cs].
Proof.
  intros E. destruct (transaction_layout _ _ E) as (cs & Hl & Hr).
  exists cs. split; [assumption|]. split; [assumption|].
  unfold record_of_line. rewrite E.
  destruct (transaction_record_of_columns _ _ _ Hl Hr) as (rc & -> & <-).
  reflexivity.
Qed.

Lemma strip_three_amount_line td pd ds wd dp bl :
  fixed_width D_M_y td = true -> amount_word bl ->
  strip (td ++ " "%char :: pd ++ " "%char :: ds ++ " "%char :: wd
            ++ " "%char :: dp ++ " "%char :: bl)
  = td ++ " "%char :: pd ++ " "%char :: ds ++ " "%char :: wd
       ++ " "%char :: dp ++ " "%char :: bl.
Proof.
  intros Hf Hbl.
  replace (td ++ " "%char :: pd ++ " "%char :: ds ++ " "%char :: wd
              ++ " "%char :: dp ++ " "%char :: bl)
    with (td ++ " "%char :: pd ++ " "%char
             :: (ds ++ " "%char :: wd ++ " "%char :: dp) ++ " "%char :: bl)
    by (rewrite <- !app_assoc; simpl; rewrite <- !app_assoc; reflexivity).
  now apply strip_single_blank_line.
Qed.

Lemma three_amount_layout td pd ds wd dp bl :
  fixed_width D_M_y td = true -> fixed_width D_M_y pd = true ->
  ~ In "010"%char ds ->
  amount_word wd -> amount_word dp -> amount_word bl ->
  line_layout (td ++ " "%char :: pd ++ " "%char :: ds ++ " "%char :: wd
                  ++ " "%char :: dp ++ " "%char :: bl)
              (mkcolumns td pd ds [] wd dp bl []).
Proof.
  intros Hf1 Hf2 Hnl Hwd Hdp Hbl.
  exists [" "%char], [" "%char], [" "%char], [], [" "%char], [" "%char].
  cbn [col_date col_post_date col_description col_reference col_withdrawal
       col_deposit col_balance col_rest].
  assert (Hb : blanks [" "%char])
    by (split; [discriminate|repeat constructor]).
  split; [cbn [app]; rewrite app_nil_r; reflexivity|].
  repeat (split; [assumption|]).
  split.
  { exists [], wd, (" "%char :: dp ++ " "%char :: bl).
    split; [cbn [app]; rewrite app_nil_r; reflexivity|].
    split; [constructor|assumption]. }
  split; [constructor|]. split; [constructor|].
  split; [now right|]. split; [assumption|].
  split; [now right|]. split; assumption.
Qed.

Lemma digit_alnum a : is_digit a = true -> cc_in alnum a = true.
Proof. each_ascii a. Qed.

Lemma two_leading_digits_rest wd :
  amount_word wd -> two_leading_digits wd ->
  exists x1 rem,
    wd = x1 :: rem /\ is_digit x1 = true /\ amount_word rem.
Proof.
  intros Hw (x1 & x2 & t & -> & Hx2).
  destruct (amount_word_head _ Hw)
    as (h & p & q & E & Hl & Hh & Hp & _ & _ & Hre).
  destruct h as [|y1 [|y2 h]]; simpl in E.
  - simpl in Hl. lia.
  - injection E as -> -> _. congruence.
  - injection E as -> -> ->. inversion Hh as [|? ? Hy1 Hh']; subst.
    exists y1, ((y2 :: h) ++ p :: q). split; [reflexivity|].
    split; [assumption|]. apply Hre; [simpl in *; lia|assumption].
Qed.

(** The numeric section of a line with three amounts set off by single
    blanks can be read with a reference when the first amount has two
    leading digits. *)
Lemma reference_reading b c wd dp bl :
  amount_word wd -> two_leading_digits wd ->
  amount_word dp -> amount_word bl ->
  exists w b2 c2,
    mt (reference_group +++ numeric_tail)%re b
       (wd ++ " "%char :: dp ++ " "%char :: bl) c w b2 [] c2.
Proof.
  intros Hwd Htwo Hdp Hbl.
  destruct (two_leading_digits_rest wd Hwd Htwo) as (x1 & rem & -> & Hx1 & Hrem).
  assert (Hb : blanks [" "%char])
    by (split; [discriminate|repeat constructor]).
  replace ((x1 :: rem) ++ " "%char :: dp ++ " "%char :: bl)
    with ([x1] ++ [] ++ rem ++ [" "%char] ++ dp ++ [" "%char] ++ bl ++ [])
    by (cbn [app]; now rewrite app_nil_r).
  do 3 eexists.
  eapply mt_seq.
  { apply mt_group, mt_plus_chr_intro; [discriminate|].
    repeat constructor. now apply digit_alnum. }
  unfold numeric_tail.
  eapply mt_seq; [apply (mt_star_chr_intro true Space []); constructor|].
  eapply mt_seq; [apply mt_optional_amount_intro; right; exact Hrem|].
  eapply mt_seq; [apply mt_blanks_intro, Hb|].
  eapply mt_seq; [apply mt_optional_amount_intro; right; exact Hdp|].
  eapply mt_seq; [apply mt_blanks_intro, Hb|].
  apply mt_group, mt_amount_intro, Hbl.
Qed.

(** X19.  On a line made of two tokens DD/MM/YY, a description and
    three amounts, set off by single blanks, where the description holds
    no digit and no newline and does not end with a blank, and each
    amount has at most fifteen digits, a withdrawal printed with two or
    three digits before its first comma or point (25.00, 500.00,
    12,345.00) is never read as printed: the reference group, tried
    first, takes its first digit or its first two digits, and the record
    holds them as the reference and the value of what remains as the
    withdrawal. *)
Theorem line_with_long_withdrawal_is_cut
    (td pd ds wd dp bl : str) (transactions : list value) :
  fixed_width D_M_y td = true -> fixed_width D_M_y pd = true ->
  Forall (fun a => is_digit a = false) ds ->
  is_space (last ds " "%char) = false -> ~ In "010"%char ds ->
  amount_word wd -> amount_word dp -> amount_word bl ->
  short_number wd -> short_number dp -> short_number bl ->
  two_leading_digits wd ->
  skip_line (td ++ " "%char :: pd ++ " "%char :: ds ++ " "%char :: wd
                ++ " "%char :: dp ++ " "%char :: bl) = false ->
  exists rf rem,
    wd = rf ++ rem /\ 1 <= List.length rf <= 2 /\ all_digits rf
    /\ amount_word rem
    /\ transaction_step transactions
         (td ++ " "%char :: pd ++ " "%char :: ds ++ " "%char :: wd
             ++ " "%char :: dp ++ " "%char :: bl)
       = transactions
           ++ [record_of_columns (mkcolumns td pd ds rf rem dp bl [])].
Proof.
  intros Hf1 Hf2 Hds Hlast Hnl Hwd Hdp Hbl _ _ _ Htwo Hskip.
  rewrite transaction_step_spec, Hskip.
  pose proof (strip_three_amount_line td pd ds wd dp bl Hf1 Hbl) as Es.
  pose proof (three_amount_layout td pd ds wd dp bl Hf1 Hf2 Hnl Hwd Hdp Hbl)
    as Hlay.
  apply line_layout_matches in Hlay. destruct Hlay as (mo & Hmo).
  pose proof Hmo as Hmo'. rewrite <- Es in Hmo'.
  apply record_of_line_match in Hmo'.
  destruct Hmo' as (cs & Hc & Hr & ->). rewrite Es in Hc.
  apply layout_of_single_blank_line in Hc; auto.
  destruct Hc as (T1 & sp4 & sp5 & sp6 & ET & HT1 & Hpre & Hla & Hrf & Hs4
                  & Hw & Hs5 & Hd & Hs6 & Hb).
  assert (Hcount : count_blanks (wd ++ " "%char :: dp ++ " "%char :: bl) = 2).
  { repeat (rewrite count_blanks_app || rewrite count_blanks_cons).
    change (is_space " ") with true. cbv iota.
    rewrite !count_blanks_none by now apply amount_word_no_space. reflexivity. }
  assert (T1 = []) as ->.
  { pose proof (f_equal count_blanks ET) as Ec.
    rewrite Hcount in Ec. rewrite !count_blanks_app in Ec.
    pose proof (count_blanks_blanks _ Hs5).
    pose proof (count_blanks_blanks _ Hs6).
    destruct HT1 as [HT1|HT1]; [assumption|].
    destruct T1 as [|y T1]; [reflexivity|].
    apply count_blanks_last in HT1; [|discriminate]. lia. }
  destruct (Hpre eq_refl) as (Etd & Epd & Eds).
  destruct cs as [td' pd' ds' rf wd' dp' bl' rest]. simpl in *.
  subst td' pd'.
  destruct rf as [|r0 rf].
  - (* no reference: the reference group would have been preferred *)
    exfalso.
    destruct Hr as (_ & _ & _ & G4 & _). simpl in G4.
    destruct (transaction_match_priority _ _ Hmo G4)
      as (P & N & bN & EL & HP & HN & HcN & Hno).
    destruct HP as (td1 & sp1 & pd1 & sp2 & ds1 & sp3' & EP & Hf1' & Hs1
                    & Hf2' & Hs2 & Hs3).
    destruct (fixed_width_first _ Hf1) as (L1 & _).
    destruct (fixed_width_first _ Hf2) as (L2 & _).
    destruct (fixed_width_first _ Hf1') as (L1' & _).
    destruct (fixed_width_first _ Hf2') as (L2' & _).
    assert (E : P ++ N
                = (td ++ " "%char :: pd ++ [" "%char]) ++ ds
                  ++ " "%char :: wd ++ " "%char :: dp ++ " "%char :: bl).
    { rewrite <- EL, <- !app_assoc. simpl. rewrite <- !app_assoc.
      reflexivity. }
    destruct (numeric_section_start _ _ _ _ _ E) as (T1 & ET' & _ & HT1');
      auto.
    { rewrite EP, !length_app. simpl. rewrite !length_app. simpl.
      destruct Hs1 as [Hn1 _]. destruct Hs2 as [Hn2 _].
      destruct Hs3 as [Hn3 _].
      destruct sp1; [congruence|]. destruct sp2; [congruence|].
      destruct sp3'; [congruence|]. simpl. lia. }
    { exists (td1 ++ sp1 ++ pd1 ++ sp2 ++ ds1), sp3'.
      split; [now rewrite EP, <- !app_assoc|assumption]. }
    assert (T1 = []) as ->.
    { pose proof (f_equal count_blanks ET') as Ec.
      rewrite Hcount, count_blanks_app in Ec.
      destruct HT1' as [HT1'|HT1']; [assumption|].
      destruct T1 as [|y T1]; [reflexivity|].
      apply count_blanks_last in HT1'; [|discriminate]. lia. }
    simpl in ET'. subst N.
    destruct (reference_reading bN no_caps wd dp bl Hwd Htwo Hdp Hbl)
      as (w & b2 & c2 & Hder).
    exact (Hno _ _ _ _ _ Hder).
  - destruct (numeric_section_reference _ _ _ _ _ Hla Hrf) as
      (-> & Hl & Hrd & Hne & Harw); auto; [discriminate|].
    destruct Hw as [->|Hw]; [congruence|].
    simpl in ET.
    change (r0 :: rf ++ wd' ++ sp5 ++ dp' ++ sp6 ++ bl' ++ rest)
      with ((r0 :: rf) ++ wd' ++ sp5 ++ dp' ++ sp6 ++ bl' ++ rest) in ET.
    rewrite app_assoc in ET. symmetry in ET.
    apply column_is_amount in ET; auto; [|now right].
    destruct ET as (Ewd & sp5' & -> & ET).
    assert (sp5' = []) as ->.
    { destruct Hs5 as [_ Hs5]. apply Forall_inv_tail in Hs5.
      eapply (no_blank_before sp5' [] dp); [assumption|exact Hs5|exact ET]. }
    simpl in ET.
    apply column_is_amount in ET; auto.
    destruct ET as (-> & sp6' & -> & ET).
    assert (sp6' = []) as ->.
    { destruct Hs6 as [_ Hs6]. apply Forall_inv_tail in Hs6.
      eapply (no_blank_before sp6' [] bl); [assumption|exact Hs6|].
      rewrite <- (app_nil_r bl) in ET. exact ET. }
    simpl in ET.
    destruct (amount_word_whole _ _ _ Hb Hbl ET) as [-> ->].
    exists (r0 :: rf), wd'. split; [now symmetry|].
    split; [assumption|]. split; [assumption|]. split; [assumption|].
    unfold record_of_columns. simpl. now rewrite Eds.
Qed.

Lemma line_with_long_withdrawal_is_cut_witness :
  exists rf rem,
    «"12,345.00"» = rf ++ rem /\ 1 <= List.length rf <= 2 /\ all_digits rf
    /\ amount_word rem
    /\ transaction_step []
         «"01/03/25 02/03/25 Cash Deposit 12,345.00 0.00 5,000.00"»
       = [record_of_columns
            (mkcolumns «"01/03/25"» «"02/03/25"» «"Cash Deposit"» rf rem
                       «"0.00"» «"5,000.00"» [])].
Proof.
  assert (Hds : Forall (fun a => is_digit a = false) «"Cash Deposit"»)
    by (repeat constructor).
  assert (Hnl : ~ In "010"%char «"Cash Deposit"»)
    by (simpl; intuition discriminate).
  assert (Hwd : amount_word «"12,345.00"»).
  { exists «"12"», [«"345"»], "0"%char, "0"%char.
    repeat split; simpl; auto; repeat constructor. }
  assert (Htwo : two_leading_digits «"12,345.00"»)
    by (exists "1"%char, "2"%char, «",345.00"»; split; reflexivity).
  assert (Hs1 : short_number «"12,345.00"») by (vm_compute; lia).
  assert (Hs2 : short_number «"0.00"») by (vm_compute; lia).
  assert (Hs3 : short_number «"5,000.00"») by (vm_compute; lia).
  exact (line_with_long_withdrawal_is_cut
           «"01/03/25"» «"02/03/25"» «"Cash Deposit"»
           «"12,345.00"» «"0.00"» «"5,000.00"» [] eq_refl eq_refl Hds eq_refl
           Hnl Hwd zero_amount_word (proj2 cash_deposit_amounts)
           Hs1 Hs2 Hs3 Htwo eq_refl).
Defined.

(** ** The leftmost match *)

Lemma search_from_leftmost r : forall s b mo,
  search_from r b s = Some mo ->
  exists pre s0,
    s = pre ++ s0
    /\ m r match_obj (bol_after b pre) 0 s0 no_caps accept = Some mo
    /\ forall p1 p2, pre = p1 ++ p2 -> p2 <> [] ->
         m r match_obj (bol_after b p1) 0 (p2 ++ s0) no_caps accept = None.
Proof.
  induction s as [|a s IH]; intros b mo H; simpl in H.
  - destruct (m r match_obj b 0 [] no_caps accept) eqn:E; [|discriminate].
    injection H as ->. exists [], []. split; [reflexivity|].
    split; [exact E|]. intros p1 p2 Ep Hne.
    symmetry in Ep. apply app_eq_nil in Ep. destruct Ep. congruence.
  - destruct (m r match_obj b 0 (a :: s) no_caps accept) eqn:E.
    + injection H as ->. exists [], (a :: s). split; [reflexivity|].
      split; [exact E|]. intros p1 p2 Ep Hne.
      symmetry in Ep. apply app_eq_nil in Ep. destruct Ep. congruence.
    + apply IH in H. destruct H as (pre & s0 & -> & Hm & Hleft).
      exists (a :: pre), s0. split; [reflexivity|]. split; [exact Hm|].
      intros p1 p2 Ep Hne. destruct p1 as [|a' p1]; simpl in Ep.
      * subst p2. exact E.
      * injection Ep as <- Ep. simpl. now apply Hleft.
Qed.

Lemma starts_with_app p : forall v, starts_with p (p ++ v) = true.
Proof.
  induction p as [|a p IH]; intros v; simpl; auto.
  now rewrite Ascii.eqb_refl, IH.
Qed.

Lemma starts_with_inv : forall p s,
  starts_with p s = true -> exists v, s = p ++ v.
Proof.
  induction p as [|a p IH]; intros s H; [now exists s|].
  destruct s as [|b s]; [discriminate|]. simpl in H.
  apply andb_true_iff in H. destruct H as [E H].
  apply Ascii.eqb_eq in E. subst b.
  destruct (IH s H) as (v & ->). now exists v.
Qed.

(** [starts_with] reads no further than the length of the word. *)
Lemma starts_with_window : forall p u v v',
  starts_with p (u ++ v) = true -> List.length p <= List.length u ->
  starts_with p (u ++ v') = true.
Proof.
  induction p as [|a p IH]; intros u v v' H Hl; [reflexivity|].
  destruct u as [|b u]; [simpl in Hl; lia|]. simpl in *.
  apply andb_true_iff in H. destruct H as [E H]. rewrite E. simpl.
  apply (IH u v v' H). lia.
Qed.

Lemma contains_at mk : forall u s,
  starts_with mk s = true -> contains mk (u ++ s) = true.
Proof.
  intros u s H. apply starts_with_inv in H. destruct H as (v & ->).
  apply contains_app.
Qed.

Lemma removelast_length {A} (l : list A) :
  l <> [] -> S (List.length (removelast l)) = List.length l.
Proof.
  intros H. destruct (exists_last H) as (l' & a & ->).
  rewrite removelast_last, length_app. simpl. lia.
Qed.

(** An occurrence of the word that begins in [pre]. *)
Lemma occurrence_begins_before word pre' l rest v :
  word <> [] -> l <> [] ->
  l ++ word ++ rest = word ++ v ->
  begins_before word (pre' ++ l) = true.
Proof.
  intros Hw Hl E. unfold begins_before. rewrite <- app_assoc.
  apply contains_at.
  destruct (exists_last Hw) as (w0 & z & Ew).
  assert (Hs : starts_with word ((l ++ removelast word) ++ z :: rest) = true).
  { rewrite <- app_assoc.
    replace (removelast word ++ z :: rest) with (word ++ rest)
      by (rewrite Ew, removelast_last, <- app_assoc; reflexivity).
    rewrite E. apply starts_with_app. }
  rewrite <- (app_nil_r (l ++ removelast word)).
  eapply starts_with_window; [exact Hs|].
  rewrite length_app. pose proof (removelast_length _ Hw).
  destruct l; [congruence|]. simpl. lia.
Qed.

(** The search for a pattern that begins with a word finds its match at
    the first place where the word begins, when there is a match there. *)
Lemma search_at_first_word word r pre rest mo w b' s' c' :
  word <> EmptyString ->
  begins_before «word» pre = false ->
  mt (lit word +++ r)%re (bol_after true pre) («word» ++ rest) no_caps
     w b' s' c' ->
  re_search (lit word +++ r)%re (pre ++ «word» ++ rest) = Some mo ->
  m (lit word +++ r)%re match_obj (bol_after true pre) 0 («word» ++ rest)
    no_caps accept = Some mo.
Proof.
  intros Hw Hb Hd H.
  assert (Hw' : «word» <> []) by (destruct word; [congruence|discriminate]).
  apply search_from_leftmost in H.
  destruct H as (pre' & s0 & E & Hm & Hleft).
  apply app_eq_app in E. destruct E as (l & [[E1 E2]|[E1 E2]]).
  - destruct l as [|x l].
    + rewrite app_nil_r in E1. simpl in E2. now subst.
    + exfalso. pose proof Hm as Hm'. apply m_sound in Hm'.
      destruct Hm' as (w1 & b1 & s1 & c1 & Hd1 & _).
      pose proof (mt_app _ _ _ _ _ _ _ _ Hd1) as Es0.
      peel Hd1 Hl. apply mt_lit in Hl. destruct Hl as (-> & _ & _).
      rewrite <- app_assoc in Es0. rewrite Es0 in E2.
      rewrite E1 in Hb.
      assert (Hocc : begins_before «word» (pre' ++ x :: l) = true)
        by (eapply occurrence_begins_before;
            [exact Hw'|discriminate|symmetry; exact E2]).
      congruence.
  - destruct l as [|x l].
    + rewrite app_nil_r in E1. simpl in E2. now subst.
    + exfalso. specialize (Hleft pre (x :: l) E1).
      rewrite <- E2 in Hleft.
      eapply (m_complete _ _ _ _ _ _ _ _ Hd match_obj accept 0 no_caps c');
        [apply accept_uniform|discriminate|apply Hleft; discriminate].
Qed.

(** ** The header lines of a statement *)







(** ** The account number *)

Lemma m_lit_eval str : forall R b p s c (k : cont R),
  m (lit str) R b p («str» ++ s) c k
  = k (bol_after b «str») (p + List.length «str») s c.
Proof.
  induction str as [|a str IH]; intros R b p s c k.
  - simpl. now rewrite Nat.add_0_r.
  - cbn [lit m list_ascii_of_string app cc_in]. rewrite Ascii.eqb_refl.
    rewrite IH. cbn [bol_after List.length]. now rewrite Nat.add_succ_r.
Qed.

(** A greedy run of characters of a class takes them all when what
    follows succeeds there. *)
Lemma star_chr_greedy cl R (k : cont R) x : forall n w b p s c,
  List.length (w ++ s) < n ->
  Forall (fun a => cc_in cl a = true) w ->
  (forall a t, s = a :: t -> cc_in cl a = false) ->
  k (bol_after b w) (p + List.length w) s c = Some x ->
  star_loop (m (Chr cl) R) true k n b p (w ++ s) c = Some x.
Proof.
  induction n as [|n IH]; intros w b p s c Hn Hw Hs Hk; [lia|].
  destruct w as [|a w].
  - simpl in Hk. rewrite Nat.add_0_r in Hk. simpl app.
    cbn [star_loop m]. destruct s as [|a t]; [exact Hk|].
    rewrite (Hs a t eq_refl). exact Hk.
  - inversion Hw; subst. simpl app. cbn [star_loop m].
    match goal with H : cc_in cl a = true |- _ => rewrite H end.
    assert (Hp : (p <? S p) = true) by (apply Nat.ltb_lt; lia).
    rewrite Hp.
    assert (E : star_loop (m (Chr cl) R) true k n (is_nl a) (S p) (w ++ s) c
                = Some x).
    { apply IH; auto.
      - simpl in Hn. lia.
      - simpl in Hk. rewrite Nat.add_succ_r in Hk. exact Hk. }
    cbn [m] in E. rewrite E. reflexivity.
Qed.

Lemma plus_chr_greedy cl R (k : cont R) x w b p s c :
  w <> [] -> Forall (fun a => cc_in cl a = true) w ->
  (forall a t, s = a :: t -> cc_in cl a = false) ->
  k (bol_after b w) (p + List.length w) s c = Some x ->
  m (plus true (Chr cl)) R b p (w ++ s) c k = Some x.
Proof.
  intros Hne Hw Hs Hk. destruct w as [|a w]; [congruence|].
  inversion Hw; subst. unfold plus. simpl app. cbn [m].
  match goal with H : cc_in cl a = true |- _ => rewrite H end.
  assert (E : star_loop (m (Chr cl) R) true k (S (List.length (w ++ s)))
                (is_nl a) (S p) (w ++ s) c = Some x).
  { apply star_chr_greedy; auto.
    simpl in Hk. rewrite Nat.add_succ_r in Hk. exact Hk. }
  cbn [m] in E. exact E.
Qed.

Lemma account_no_eval b sp digits rest :
  blanks sp -> digits <> [] -> all_digits digits ->
  (forall a t, rest = a :: t -> is_digit a = false) ->
  m account_no_pattern match_obj b 0
    («"Account No"» ++ sp ++ digits ++ rest) no_caps accept
  = Some (upd 1 digits no_caps, rest).
Proof.
  intros [Hne Hsp] Hd Hdig Hrest. unfold account_no_pattern.
  cbn [m]. rewrite m_lit_eval.
  apply plus_chr_greedy; auto.
  { intros a t E. destruct digits as [|d0 ds]; [congruence|].
    simpl in E. injection E as <- _. inversion Hdig; subst.
    now apply digit_not_space. }
  cbn [m].
  rewrite (plus_chr_greedy Digit match_obj _
             (upd 1 digits no_caps, rest) digits); auto.
  unfold accept. rewrite firstn_consumed. reflexivity.
Qed.

(** X21.  The account number is read where the statement prints it:
    when the label Account No begins nowhere before, and is followed by
    blanks and a run of digits, the number is the whole run, whatever
    comes before and after. *)
Theorem account_number_is_read (pre sp digits rest : str) :
  begins_before «"Account No"» pre = false ->
  blanks sp -> digits <> [] -> all_digits digits ->
  (forall a t, rest = a :: t -> is_digit a = false) ->
  dict_get "account_number"
    (account_info_of (pre ++ «"Account No"» ++ sp ++ digits ++ rest))
  = Some (VStr digits).
Proof.
  intros Hb Hsp Hne Hd Hrest.
  set (text := pre ++ «"Account No"» ++ sp ++ digits ++ rest).
  pose proof (account_no_eval (bol_after true pre) sp digits rest
                Hsp Hne Hd Hrest) as Hev.
  destruct (account_info_fields text)
    as (holder & number & type_ & period & -> & _ & Hn & _ & _).
  destruct (re_search account_no_pattern text) as [mo|] eqn:Emo.
  - destruct Hn as (g & Hg & ->). simpl.
    pose proof Hev as Hder. apply m_sound in Hder.
    destruct Hder as (w & b' & s' & c' & Hder & _).
    unfold account_no_pattern in Emo, Hder.
    eapply search_at_first_word in Emo; [|discriminate|exact Hb|exact Hder].
    unfold account_no_pattern in Hev. rewrite Hev in Emo.
    injection Emo as <-. unfold group in Hg. cbn [fst] in Hg.
    change (upd 1 digits no_caps 1) with (Some digits) in Hg. congruence.
  - exfalso.
    assert (Hl : label_number «"Account No"» text digits)
      by (exists pre, sp, rest; auto).
    apply account_no_matches in Hl. destruct Hl as (mo & Hmo). congruence.
Qed.

Lemma account_number_is_read_witness :
  dict_get "account_number" (account_info_of scenario1)
  = Some (VStr «"123456"»).
Proof.
  assert (Hsp : blanks [" "%char])
    by (split; [discriminate|repeat constructor]).
  assert (Hne : «"123456"» <> []) by discriminate.
  assert (Hd : all_digits «"123456"») by (repeat constructor).
  assert (Hrest : forall a t,
             "010"%char :: «"Account Type Savings"» ++ ["010"%char] = a :: t ->
             is_digit a = false)
    by (intros a t E; injection E as <- _; reflexivity).
  exact (account_number_is_read
           («"Name John Doe"» ++ ["010"%char]) [" "%char] «"123456"»
           ("010"%char :: «"Account Type Savings"» ++ ["010"%char])
           eq_refl Hsp Hne Hd Hrest).
Defined.

(** ** The first TOTAL line *)

Lemma mt_total_sentence b s w b' s' c' :
  mt total_pattern b s no_caps w b' s' c' ->
  b = true
  /\ exists seps sp1 n1 sp2 n2 sp3 n3,
       w = seps ++ «"TOTAL"» ++ sp1 ++ n1 ++ sp2 ++ n2 ++ sp3 ++ n3
       /\ Forall sep_char seps
       /\ blanks sp1 /\ blanks sp2 /\ blanks sp3
       /\ total_word n1 /\ total_word n2 /\ total_word n3
       /\ c' = upd 3 n3 (upd 2 n2 (upd 1 n1 no_caps)).
Proof.
  intros Hm. unfold total_pattern in Hm.
  peel_as Hm H0 x0. peel_as Hm H1 x1. peel_as Hm H2 x2. peel_as Hm H3 x3.
  peel_as Hm H4 sp1. peel_as Hm H5 n1. peel_as Hm H6 sp2. peel_as Hm H7 n2.
  peel_as Hm H8 sp3. name_word Hm n3.
  apply mt_bol_inv in H0. destruct H0 as (He & -> & -> & -> & ->).
  split; [assumption|].
  apply mt_star_chr in H1. destruct H1 as (-> & F1).
  pose proof (mt_caps_same _ _ _ _ _ _ _ _ H2 (fun _ => eq_refl)) as ->.
  apply (mt_alpha sep_char) in H2; [|apply separators_alpha].
  apply mt_lit in H3. destruct H3 as (-> & _ & ->).
  apply mt_blanks in H4. destruct H4 as (Hs1 & ->).
  inv H5.
  match goal with H : mt total_number _ _ _ _ _ _ _ |- _ =>
    apply mt_total_word in H; destruct H as (Hn1 & ->) end.
  apply mt_blanks in H6. destruct H6 as (Hs2 & ->).
  inv H7.
  match goal with H : mt total_number _ _ _ _ _ _ _ |- _ =>
    apply mt_total_word in H; destruct H as (Hn2 & ->) end.
  apply mt_blanks in H8. destruct H8 as (Hs3 & ->).
  inv Hm.
  match goal with H : mt total_number _ _ _ _ _ _ _ |- _ =>
    apply mt_total_word in H; destruct H as (Hn3 & ->) end.
  exists (x1 ++ x2), sp1, n1, sp2, n2, sp3, n3.
  split; [rewrite app_nil_l, <- !app_assoc; reflexivity|].
  split; [|auto 10].
  apply Forall_app. split; [|assumption].
  eapply Forall_impl; [|exact F1]. intros a Ha. now left.
Qed.

Lemma begins_before_tail word a q :
  begins_before word (a :: q) = false -> begins_before word q = false.
Proof.
  unfold begins_before. simpl app. rewrite contains_cons.
  intros H. apply orb_false_iff in H. tauto.
Qed.

Lemma begins_before_suffix word : forall p q,
  begins_before word (p ++ q) = false -> begins_before word q = false.
Proof.
  induction p as [|a p IH]; intros q H; [exact H|].
  apply IH. eapply begins_before_tail. exact H.
Qed.

(** Where the word TOTAL stands when only blanks and commas go before,
    and the word begins nowhere before. *)
Lemma total_word_anchor : forall (u q x x' : str),
  u ++ «"TOTAL"» ++ x' = q ++ «"TOTAL"» ++ x ->
  Forall sep_char u -> begins_before «"TOTAL"» q = false ->
  u = q /\ x' = x.
Proof.
  induction u as [|a u IH]; intros q x x' E Hu Hb.
  - destruct q as [|a1 q];
      [rewrite !app_nil_l in E; apply app_inv_head in E; auto|].
    exfalso.
    assert (Hocc : begins_before «"TOTAL"» ([] ++ a1 :: q) = true).
    { eapply (occurrence_begins_before «"TOTAL"» [] (a1 :: q) x x');
        [discriminate|discriminate|]. symmetry. exact E. }
    simpl app in Hocc. congruence.
  - inversion Hu as [|? ? Ha Hu']; subst.
    destruct q as [|a1 q].
    + exfalso. simpl in E. injection E as -> _.
      destruct Ha as [Ha|Ha]; [vm_compute in Ha|]; discriminate.
    + simpl in E. injection E as <- E.
      destruct (IH q x x' E Hu') as [-> ->]; auto.
      eapply begins_before_tail. exact Hb.
Qed.

Lemma total_word_first n :
  total_word n ->
  exists x t, n = x :: t /\ is_space x = false.
Proof.
  intros (u & a1 & a2 & -> & Hne & Hu & _).
  destruct u as [|x u]; [congruence|]. inversion Hu; subst.
  exists x, (u ++ ["."%char; a1; a2]). split; [reflexivity|].
  match goal with H : _ \/ _ |- _ => destruct H as [H| ->] end;
    [now apply digit_not_space|reflexivity].
Qed.

(** A number of the TOTAL line after blanks, read where the text has
    one. *)
Lemma total_number_unique (sp sp' n n' t t' : str) :
  sp' ++ n' ++ t' = sp ++ n ++ t ->
  blanks sp' -> blanks sp -> total_word n' -> total_word n ->
  n' = n /\ t' = t.
Proof.
  intros E [_ Hsp'] [_ Hsp] Hn' Hn.
  destruct (total_word_first n' Hn') as (x' & r' & Ex' & Hx').
  destruct (total_word_first n Hn) as (x & r & Ex & Hx).
  assert (E1 : n' ++ t' = n ++ t).
  { rewrite Ex, Ex' in E |- *. simpl in E.
    apply (token_unique is_space) in E; auto.
    destruct E as (_ & -> & E). simpl. now rewrite E. }
  clear Ex Ex'.
  destruct Hn' as (u' & a1' & a2' & -> & _ & Hu' & _).
  destruct Hn as (u & a1 & a2 & -> & _ & Hu & _).
  rewrite <- !app_assoc in E1. simpl in E1.
  apply (token_unique (fun a => negb (Ascii.eqb a "."%char))) in E1;
    auto using parts_no_point.
  destruct E1 as (-> & _ & E1). injection E1 as -> -> ->. auto.
Qed.

(** X22.  The totals are those of the first TOTAL line.  When the line
    stands at the beginning of a line of the text, after blanks and
    commas at most, the word TOTAL begins nowhere before, and each of its
    three numbers has at most fifteen digits, the totals are the values
    of the three numbers, whatever follows, later TOTAL lines
    included. *)
Theorem first_total_line_is_read
    (pre seps sp1 n1 sp2 n2 sp3 n3 rest : str) :
  ends_line pre -> Forall sep_char seps ->
  begins_before «"TOTAL"» (pre ++ seps) = false ->
  blanks sp1 -> blanks sp2 -> blanks sp3 ->
  total_word n1 -> total_word n2 -> total_word n3 ->
  short_number n1 -> short_number n2 -> short_number n3 ->
  totals_of (pre ++ seps ++ «"TOTAL"» ++ sp1 ++ n1 ++ sp2 ++ n2 ++ sp3 ++ n3
                 ++ rest)
  = [("total_withdrawal", VNum (amount_value n1));
     ("total_deposit", VNum (amount_value n2));
     ("final_balance", VNum (amount_value n3))]%string.
Proof.
  intros He Hseps Hb Hs1 Hs2 Hs3 Hn1 Hn2 Hn3 _ _ _.
  set (line := seps ++ «"TOTAL"» ++ sp1 ++ n1 ++ sp2 ++ n2 ++ sp3 ++ n3
                    ++ rest).
  assert (Hder : exists w b' s' c',
             mt total_pattern (bol_after true pre) line no_caps w b' s' c').
  { apply bol_after_ends_line in He. rewrite He. unfold total_pattern, line.
    do 4 eexists.
    eapply (mt_seq_eq _ _ _ _ _ _ []); [apply mt_bol| |reflexivity].
    eapply (mt_seq_eq _ _ _ _ _ _ []); [apply mt_star_nil| |reflexivity].
    eapply mt_seq; [apply mt_seps_intro, Hseps|].
    eapply mt_seq; [apply mt_lit_intro|].
    eapply mt_seq; [apply mt_blanks_intro, Hs1|].
    eapply mt_seq; [apply mt_group, mt_total_word_intro, Hn1|].
    eapply mt_seq; [apply mt_blanks_intro, Hs2|].
    eapply mt_seq; [apply mt_group, mt_total_word_intro, Hn2|].
    eapply mt_seq; [apply mt_blanks_intro, Hs3|].
    apply mt_group, mt_total_word_intro, Hn3. }
  destruct Hder as (w & b' & s' & c' & Hder).
  destruct (search_from_complete _ _ _ _ _ pre true line Hder) as (mo & Hmo).
  assert (Hg : group 1 mo = Some n1 /\ group 2 mo = Some n2
               /\ group 3 mo = Some n3).
  { pose proof Hmo as Hl. apply search_from_leftmost in Hl.
    destruct Hl as (pre' & s0 & E & Hm & Hleft).
    apply app_eq_app in E. destruct E as (l & [[E1 E2]|[E1 E2]]).
    - (* the match begins in [pre], or where the line is *)
      apply m_sound in Hm.
      destruct Hm as (w1 & b1 & s1 & c1 & Hd1 & Ea). injection Ea as <-.
      pose proof (mt_app _ _ _ _ _ _ _ _ Hd1) as Es0.
      apply mt_total_sentence in Hd1.
      destruct Hd1 as (_ & seps' & sp1' & n1' & sp2' & n2' & sp3' & n3'
                       & -> & Hseps' & Hs1' & Hs2' & Hs3' & Hn1' & Hn2'
                       & Hn3' & Ec).
      rewrite E1 in Hb. rewrite <- app_assoc in Hb.
      apply begins_before_suffix in Hb.
      rewrite E2 in Es0. unfold line in Es0.
      rewrite <- !app_assoc in Es0. rewrite app_assoc in Es0.
      symmetry in Es0. apply total_word_anchor in Es0; auto.
      destruct Es0 as (_ & Es0).
      apply total_number_unique in Es0; auto. destruct Es0 as (-> & Es0).
      apply total_number_unique in Es0; auto. destruct Es0 as (-> & Es0).
      apply total_number_unique in Es0; auto. destruct Es0 as (-> & _).
      unfold group. cbn [fst]. rewrite Ec. auto.
    - (* the match cannot begin after the place of the line *)
      destruct l as [|x l].
      + rewrite app_nil_r in E1. simpl in E2. subst pre' s0.
        apply m_sound in Hm.
        destruct Hm as (w1 & b1 & s1 & c1 & Hd1 & Ea). injection Ea as <-.
        pose proof (mt_app _ _ _ _ _ _ _ _ Hd1) as Es0.
        apply mt_total_sentence in Hd1.
        destruct Hd1 as (_ & seps' & sp1' & n1' & sp2' & n2' & sp3' & n3'
                         & -> & Hseps' & Hs1' & Hs2' & Hs3' & Hn1' & Hn2'
                         & Hn3' & Ec).
        apply begins_before_suffix in Hb.
        unfold line in Es0. rewrite <- !app_assoc in Es0.
        symmetry in Es0. apply total_word_anchor in Es0; auto.
        destruct Es0 as (_ & Es0).
        apply total_number_unique in Es0; auto. destruct Es0 as (-> & Es0).
        apply total_number_unique in Es0; auto. destruct Es0 as (-> & Es0).
        apply total_number_unique in Es0; auto. destruct Es0 as (-> & _).
        unfold group. cbn [fst]. rewrite Ec. auto.
      + exfalso. specialize (Hleft pre (x :: l) E1).
        rewrite <- E2 in Hleft.
        eapply (m_complete _ _ _ _ _ _ _ _ Hder match_obj accept 0 no_caps c');
          [apply accept_uniform|discriminate|apply Hleft; discriminate]. }
  destruct Hg as (G1 & G2 & G3).
  unfold totals_of. fold line. unfold re_search. rewrite Hmo.
  unfold totals_block, try_block, assign, group_replace, bind.
  rewrite G1, G2, G3.
  rewrite (total_word_float _ Hn1), (total_word_float _ Hn2),
    (total_word_float _ Hn3).
  reflexivity.
Qed.

Lemma first_total_line_is_read_witness :
  totals_of two_total_lines
  = [("total_withdrawal", VNum (amount_value «"1.00"»));
     ("total_deposit", VNum (amount_value «"2.00"»));
     ("final_balance", VNum (amount_value «"3.00"»))]%string.
Proof.
  assert (Hsp : blanks [" "%char])
    by (split; [discriminate|repeat constructor]).
  assert (Hn : forall x, is_digit x = true ->
                         total_word [x; "."%char; "0"%char; "0"%char]).
  { intros x Hx. exists [x], "0"%char, "0"%char.
    split; [reflexivity|]. split; [discriminate|].
    split; [constructor; [now left|constructor]|]. split; reflexivity. }
  assert (Hs : forall x, is_digit x = true ->
                         short_number [x; "."%char; "0"%char; "0"%char]).
  { intros x Hx. unfold short_number. cbn [filter]. rewrite Hx.
    vm_compute. lia. }
  exact (first_total_line_is_read [] [] [" "%char] «"1.00"» [" "%char]
           «"2.00"» [" "%char] «"3.00"» ("010"%char :: total_line)
           (or_introl eq_refl) (Forall_nil _) eq_refl Hsp Hsp Hsp
           (Hn "1"%char eq_refl) (Hn "2"%char eq_refl)
           (Hn "3"%char eq_refl) (Hs "1"%char eq_refl)
           (Hs "2"%char eq_refl) (Hs "3"%char eq_refl)).
Defined.

(** ** The statement period and the dates of the records *)

Lemma fixed_width_shape f w :
  fixed_width f w = true ->
  List.length w = (match f with D_M_y => 8 | D_M_Y => 10 end)
  /\ exists x t, w = x :: t /\ is_space x = false.
Proof.
  destruct w as [|d1 [|d2 [|s1 [|m1 [|m2 [|s2 Y]]]]]]; try discriminate.
  intros H. apply fixed_width_inv in H.
  destruct H as (_ & _ & H1 & _ & _ & _ & HY & _).
  unfold year_shape in HY. apply andb_true_iff in HY. destruct HY as [_ HY].
  apply Nat.eqb_eq in HY. split.
  - simpl. rewrite HY. now destruct f.
  - exists d1. eexists. split; [reflexivity|]. now apply digit_not_space.
Qed.

Lemma mt_period b s w b' s' c' :
  mt period_pattern b s no_caps w b' s' c' ->
  exists sp1 first sp2 sp3 last,
    w = «"Account Statement for the period of"» ++ sp1 ++ first ++ sp2
        ++ «"to"» ++ sp3 ++ last
    /\ blanks sp1 /\ blanks sp2 /\ blanks sp3
    /\ fixed_width D_M_Y first = true /\ fixed_width D_M_Y last = true
    /\ c' = upd 2 last (upd 1 first no_caps).
Proof.
  intros Hm. unfold period_pattern in Hm.
  peel_as Hm H1 x1. peel_as Hm H2 x2. peel_as Hm H3 x3. peel_as Hm H4 x4.
  peel_as Hm H5 x5. peel_as Hm H6 x6. name_word Hm x7.
  apply mt_lit in H1. destruct H1 as (-> & _ & ->).
  apply mt_blanks in H2. destruct H2 as (Hb1 & ->).
  inv H3.
  match goal with H : mt date_yyyy _ _ _ _ _ _ _ |- _ =>
    apply mt_date_yyyy in H; destruct H as (Hf1 & ->) end.
  apply mt_blanks in H4. destruct H4 as (Hb2 & ->).
  apply mt_lit in H5. destruct H5 as (-> & _ & ->).
  apply mt_blanks in H6. destruct H6 as (Hb3 & ->).
  inv Hm.
  match goal with H : mt date_yyyy _ _ _ _ _ _ _ |- _ =>
    apply mt_date_yyyy in H; destruct H as (Hf2 & ->) end.
  exists x2, x3, x4, x6, x7. auto 10.
Qed.

(** A token of fixed width after blanks, read where the text has one. *)
Lemma date_token_unique f (sp sp' d d' t t' : str) :
  sp' ++ d' ++ t' = sp ++ d ++ t ->
  blanks sp' -> blanks sp ->
  fixed_width f d' = true -> fixed_width f d = true ->
  d' = d /\ t' = t.
Proof.
  intros E [_ Hsp'] [_ Hsp] Hd' Hd.
  destruct (fixed_width_shape f d' Hd') as (L' & x' & r' & Ex' & Hx').
  destruct (fixed_width_shape f d Hd) as (L & x & r & Ex & Hx).
  assert (E1 : d' ++ t' = d ++ t).
  { rewrite Ex, Ex' in E |- *. simpl in E.
    apply (token_unique is_space) in E; auto.
    destruct E as (_ & -> & E). simpl. now rewrite E. }
  apply app_inv_length in E1; [assumption|congruence].
Qed.

(** X23.  The statement period is read where the statement prints it:
    when the sentence begins nowhere before, and holds two tokens
    DD/MM/YYYY, the period is made of these two tokens, each through the
    Date Normalizer, whatever comes before and after. *)
Theorem statement_period_is_read
    (pre sp1 first sp2 sp3 last rest : str) :
  begins_before «"Account Statement for the period of"» pre = false ->
  blanks sp1 -> blanks sp2 -> blanks sp3 ->
  fixed_width D_M_Y first = true -> fixed_width D_M_Y last = true ->
  dict_get "statement_period"
    (account_info_of
       (pre ++ «"Account Statement for the period of"» ++ sp1 ++ first
            ++ sp2 ++ «"to"» ++ sp3 ++ last ++ rest))
  = Some (VDict [("start_date", VStr (convert_date_format first));
                 ("end_date", VStr (convert_date_format last))]%string).
Proof.
  intros Hb Hs1 Hs2 Hs3 Hf1 Hf2.
  set (tail := sp1 ++ first ++ sp2 ++ «"to"» ++ sp3 ++ last ++ rest).
  set (text := pre ++ «"Account Statement for the period of"» ++ tail).
  assert (Hder : exists w b' s' c',
             mt period_pattern (bol_after true pre)
                («"Account Statement for the period of"» ++ tail) no_caps
                w b' s' c').
  { unfold period_pattern, tail. do 4 eexists.
    eapply mt_seq; [apply mt_lit_intro|].
    eapply mt_seq; [apply mt_blanks_intro, Hs1|].
    eapply mt_seq; [apply mt_group, (mt_date_intro D_M_Y), Hf1|].
    eapply mt_seq; [apply mt_blanks_intro, Hs2|].
    eapply mt_seq; [apply mt_lit_intro|].
    eapply mt_seq; [apply mt_blanks_intro, Hs3|].
    apply mt_group, (mt_date_intro D_M_Y), Hf2. }
  destruct Hder as (w & b' & s' & c' & Hder).
  destruct (search_from_complete _ _ _ _ _ pre true _ Hder) as (mo & Hmo).
  fold text in Hmo.
  destruct (account_info_fields text)
    as (holder & number & type_ & period & -> & _ & _ & _ & Hp).
  change (search_from period_pattern true text)
    with (re_search period_pattern text) in Hmo.
  rewrite Hmo in Hp. destruct Hp as (g1 & g2 & G1 & G2 & ->).
  unfold period_pattern in Hmo, Hder.
  eapply search_at_first_word in Hmo; [|discriminate|exact Hb|exact Hder].
  apply m_sound in Hmo.
  destruct Hmo as (w1 & b1 & s1 & c1 & Hd1 & Ea). injection Ea as <-.
  pose proof (mt_app _ _ _ _ _ _ _ _ Hd1) as Es.
  apply mt_period in Hd1.
  destruct Hd1 as (sp1' & first' & sp2' & sp3' & last' & -> & Hs1' & Hs2'
                   & Hs3' & Hf1' & Hf2' & Ec).
  unfold group in G1, G2. simpl in G1, G2. rewrite Ec in G1, G2.
  injection G1 as <-. injection G2 as <-.
  unfold tail in Es. rewrite <- !app_assoc in Es. apply app_inv_head in Es.
  symmetry in Es.
  apply (date_token_unique D_M_Y) in Es; auto. destruct Es as (-> & Es).
  destruct Hs2 as [_ Hs2]. destruct Hs2' as [_ Hs2'].
  apply (token_unique is_space) in Es; auto. destruct Es as (_ & _ & Es).
  injection Es as Es.
  apply (date_token_unique D_M_Y) in Es; auto. destruct Es as (-> & _).
  simpl.
  rewrite !strip_no_space by (eapply fixed_width_no_space; eassumption).
  reflexivity.
Qed.

Lemma statement_period_is_read_witness :
  dict_get "statement_period"
    (account_info_of
       «"Account Statement for the period of 01/03/2025 to 31/03/2025"»)
  = Some (VDict [("start_date", VStr (convert_date_format «"01/03/2025"»));
                 ("end_date", VStr (convert_date_format «"31/03/2025"»))]%string).
Proof.
  assert (Hsp : blanks [" "%char])
    by (split; [discriminate|repeat constructor]).
  exact (statement_period_is_read [] [" "%char] «"01/03/2025"» [" "%char]
           [" "%char] «"31/03/2025"» [] eq_refl Hsp Hsp Hsp eq_refl eq_refl).
Defined.

Lemma convert_normalized_or_kept td :
  fixed_width D_M_y td = true -> normalized_or_kept td (convert_date_format td).
Proof.
  intros Hf.
  destruct td as [|d1 [|d2 [|s1 [|m1 [|m2 [|s2 Y]]]]]]; try discriminate.
  apply fixed_width_inv in Hf.
  destruct Hf as (-> & -> & H1 & H2 & H3 & H4 & HY & HYd).
  pose proof HY as HYl. unfold year_shape in HYl.
  apply andb_true_iff in HYl. destruct HYl as [_ HYl].
  apply Nat.eqb_eq in HYl.
  destruct Y as [|y1 [|y2 [|? ?]]]; try discriminate HYl.
  inversion HYd as [|? ? Hy1 HYd']; subst.
  inversion HYd' as [|? ? Hy2 _]; subst.
  exists d1, d2, m1, m2, y1, y2. split; [reflexivity|].
  split; [repeat constructor; assumption|].
  pose proof (read_date_fixed D_M_y d1 d2 m1 m2 [y1; y2] H1 H2 H3 H4 HYd) as Ry.
  pose proof (read_date_fixed D_M_Y d1 d2 m1 m2 [y1; y2] H1 H2 H3 H4 HYd) as RY.
  rewrite HY in Ry.
  assert (EY : year_shape D_M_Y [y1; y2] = false)
    by (unfold year_shape; simpl; apply andb_false_r).
  rewrite EY in RY.
  destruct (check_date_fields _ _ _) as [dt|] eqn:Ec.
  - rewrite (convert_read _ D_M_y dt Ry RY).
    apply check_date_fields_range in Ec. destruct Ec as [-> _].
    unfold strftime. cbn [year month day].
    rewrite year_text_yy, !pad2_digits by assumption.
    now rewrite <- app_assoc.
  - now apply convert_unread.
Qed.

(** X24.  In every record the two dates are made from the two tokens
    DD/MM/YY of a line of the text.  When the token spells a day of the
    calendar (the year 20YY for 00 to 68, 19YY for 69 to 99), the date is
    that day written YYYY-MM-DD with the digits of the token; when it
    spells none (31/02/25), the date is the token, left as it was: the
    record is produced all the same. *)
Theorem record_dates_are_normalized_or_kept (text : str) :
  Forall (fun t =>
            exists line cs dt pd,
              In line (retained_lines text) /\ line_layout (strip line) cs
              /\ get "date" t = Some (VStr dt)
              /\ get "post_date" t = Some (VStr pd)
              /\ normalized_or_kept (col_date cs) dt
              /\ normalized_or_kept (col_post_date cs) pd)
         (transactions_of text).
Proof.
  apply Forall_forall. intros t Ht.
  apply transactions_of_columns in Ht.
  destruct Ht as (line & cs & Hin & Hl & ->).
  pose proof Hl as Hl'.
  destruct Hl' as (sp1 & sp2 & sp3 & sp4 & sp5 & sp6 & _ & Hf1 & _ & Hf2 & _).
  exists line, cs, (convert_date_format (col_date cs)),
    (convert_date_format (col_post_date cs)).
  split; [assumption|]. split; [assumption|].
  split; [reflexivity|]. split; [reflexivity|].
  split; now apply convert_normalized_or_kept.
Qed.
